(** * Voiceprint lifecycle and matching engine of the Hybrid repository

    A shallow embedding of the three [VoiceMatcher] classes

    - [voice_matcher.py]   : fixed-vector ensemble scorer (module [Ensemble]),
    - [voice_matcher-1.py] : DTW alignment scorer          (module [Alignment]),
    - [voice_matcher-3.py] : mean-embedding scorer         (module [Embedding]),

    together with the properties of enrolment, scoring and clearing, the
    handlers of [routes.py] with [User.has_voiceprint] of [models.py]
    (module [Routes]) and the numeric helpers of [audio_processor.py] and
    [audio_processor-o.py] (modules [AudioProcessor], [AudioProcessorO]).

    Modelling conventions.
    - A numpy [float64] is a real number: rounding and overflow are not
      modelled, and a statement about computed values is a statement about
      exact real arithmetic.  Where binary64 departs from it in a way that
      matters (the order of a summation, absorption, the overflow of a
      squared norm), module [Binary64] evaluates the same code on Rocq's
      primitive binary64 numbers.  The alignment scorer, whose code
      manufactures [float('inf')] itself, works over reals extended with the
      IEEE special values ([xfloat]), and its [np.exp] underflows and
      overflows as in binary64.
    - The [voiceprints/] directory is explicit state ([disk]): per user one
      optional voiceprint file and one optional samples directory.  A
      directory is an association list in [os.listdir] order.
    - [try: ... except Exception:] blocks are the option monad: [None] is a
      raised exception, and each method turns it into its fallback value.
    - [datetime.utcnow()] is an explicit argument [now]. *)

From Stdlib Require Import PrimFloat.
From Stdlib Require Import Reals Lra Lia List Permutation Sorted.
From stdpp Require Import gmap strings pretty.
Import ListNotations.

Local Open Scope R_scope.

#[local] Set Warnings "-inexact-float".

(** ** numpy on real vectors *)

Abbreviation vec := (list R) (only parsing).

(** [np.sum]: numpy adds from the left; over the reals the order is immaterial. *)
Definition np_sum (v : vec) : R := fold_right Rplus 0 v.

(** [np.mean] of a one-dimensional array. *)
Definition np_mean (v : vec) : R := np_sum v / INR (length v).

(** [np.std] (population standard deviation, [ddof = 0]). *)
Definition np_std (v : vec) : R :=
  let m := np_mean v in
  sqrt (np_mean (map (fun x => (x - m) * (x - m)) v)).

Fixpoint insert_sorted (x : R) (l : vec) : vec :=
  match l with
  | [] => [x]
  | y :: l' => if Rle_dec x y then x :: y :: l' else y :: insert_sorted x l'
  end.

Definition sort (l : vec) : vec := fold_right insert_sorted [] l.

(** [np.median]: the middle element of the sorted data, or the mean of the
    two middle elements when the count is even. *)
Definition np_median (v : vec) : R :=
  let s := sort v in
  let n := length s in
  if Nat.even n
  then (nth (n / 2 - 1) s 0 + nth (n / 2) s 0) / 2
  else nth (n / 2) s 0.

(** [np.array(samples)]: a list of equally long vectors becomes a matrix
    (kept as its list of rows); a ragged list raises [ValueError]. *)
Definition np_array (rows : list vec) : option (list vec) :=
  let d := length (hd [] rows) in
  if forallb (fun r => Nat.eqb (length r) d) rows then Some rows else None.

Definition column (j : nat) (rows : list vec) : vec :=
  map (fun r => nth j r 0) rows.

(** A reduction [f(..., axis=0)] of a matrix: [f] applied to every column. *)
Definition axis0 (f : vec -> R) (rows : list vec) : vec :=
  map (fun j => f (column j rows)) (seq 0 (length (hd [] rows))).

(** Element-wise binary operation on two arrays of one shape. *)
Fixpoint zip_with (f : R -> R -> R) (x y : vec) : vec :=
  match x, y with
  | a :: x', b :: y' => f a b :: zip_with f x' y'
  | _, _ => []
  end.

(** numpy broadcasting of an element-wise operation on two one-dimensional
    arrays: equal lengths, or one operand of length one; anything else raises
    [ValueError]. *)
Definition np_broadcast (f : R -> R -> R) (x y : vec) : option vec :=
  if (length x =? length y)%nat then Some (zip_with f x y)
  else match x, y with
       | [a], _ => Some (map (f a) y)
       | _, [b] => Some (map (fun a => f a b) x)
       | _, _ => None
       end.

(** [np.average(a, weights=w)]: [sum(a * w) / sum(w)]. *)
Definition np_average (a w : vec) : R :=
  np_sum (zip_with Rmult a w) / np_sum w.

(** Comparison [x >= y] of two floats as a Python boolean. *)
Definition Rgeb (x y : R) : bool := if Rle_dec y x then true else false.

(** ** sklearn.metrics.pairwise.cosine_similarity *)

Definition dot (x y : vec) : R := np_sum (zip_with Rmult x y).

Definition l2_norm (x : vec) : R := sqrt (dot x x).

(** [10 * np.finfo(np.float64).eps]: sklearn's [normalize] leaves a row
    whose norm is below this bound undivided. *)
Definition norm_floor : R := 10 / 2 ^ 52.

Definition normalize (x : vec) : vec :=
  let n := l2_norm x in
  let n' := if Rlt_dec n norm_floor then 1 else n in
  map (fun a => a / n') x.

(** The value of [cosine_similarity] on two rows: both are L2-normalised
    and multiplied. *)
Definition cosine (x y : vec) : R := dot (normalize x) (normalize y).

(** [cosine_similarity(x.reshape(1, -1), y.reshape(1, -1))[0][0]];
    [check_pairwise_arrays] raises [ValueError] for an array without
    features and for two arrays of different widths. *)
Definition cosine_similarity (x y : vec) : option R :=
  if (0 <? length x)%nat && (length x =? length y)%nat
  then Some (cosine x y)
  else None.

(** ** The [voiceprints/] directory *)

Abbreviation user_id := Z (only parsing).

(** A directory: file names with their contents, in [os.listdir] order. *)
Abbreviation dir A := (list (string * A)) (only parsing).

Section Directory.
Context {A : Type}.

Definition listdir (d : dir A) : list string := map fst d.

(** [open(path, 'wb')] followed by [pickle.dump]: an existing file is
    replaced in place, a new one is added to the directory.  Where the new
    file appears in the listing is a choice of the model ([os.listdir]
    promises no order): what is proved about listings is proved for every
    order or does not depend on it. *)
Fixpoint write_file (name : string) (content : A) (d : dir A) : dir A :=
  match d with
  | [] => [(name, content)]
  | (n, c) :: d' =>
      if String.eqb n name then (name, content) :: d'
      else (n, c) :: write_file name content d'
  end.

(** [os.remove]: [None] is the [FileNotFoundError]. *)
Fixpoint remove_file (name : string) (d : dir A) : option (dir A) :=
  match d with
  | [] => None
  | (n, c) :: d' =>
      if String.eqb n name then Some d'
      else d'' ← remove_file name d'; Some ((n, c) :: d'')
  end.

(** [os.rmdir]: only an empty directory can be removed. *)
Definition rmdir (d : dir A) : option unit :=
  match d with [] => Some tt | _ :: _ => None end.
End Directory.

(** [filename.endswith('.pkl')] *)
Definition endswith (suffix s : string) : bool :=
  let n := String.length s in
  let k := String.length suffix in
  (k <=? n)%nat && String.eqb (String.substring (n - k) k s) suffix.

Definition is_pkl (name : string) : bool := endswith ".pkl" name.

(** The files below [voiceprints/]: [user_<id>_samples/] directories with
    sample files of type [S] and [user_<id>_voiceprint.pkl] files holding a
    pickled value of type [V]. *)
Record disk (S V : Type) := Disk {
  sample_dirs : gmap Z (dir S);
  voiceprint_files : gmap Z V
}.
Arguments Disk {S V}.
Arguments sample_dirs {S V}.
Arguments voiceprint_files {S V}.

Section Storage.
Context {S V : Type}.

(** The loop shared by the three [create_voiceprint] methods: the contents
    of every [.pkl] file of the directory, in listing order. *)
Definition pkl_contents (d : dir S) : list S :=
  map snd (List.filter (fun e => is_pkl (fst e)) d).

(** [get_sample_count] *)
Definition get_sample_count (fs : disk S V) (u : user_id) : nat :=
  match sample_dirs fs !! u with
  | None => 0%nat
  | Some d => length (List.filter is_pkl (listdir d))
  end.

(** The body of [save_voice_sample]: [os.makedirs(..., exist_ok=True)],
    then the file [sample_<n>.pkl] is written. *)
Definition store_sample (fs : disk S V) (u : user_id) (sample_number : Z)
    (data : S) : disk S V :=
  let d := default [] (sample_dirs fs !! u) in
  let sample_path := ("sample_" +:+ pretty sample_number +:+ ".pkl")%string in
  Disk (<[u := write_file sample_path data d]> (sample_dirs fs))
       (voiceprint_files fs).

(** The [for filename in os.listdir(samples_dir)] loop of
    [clear_user_voiceprint]: the files are removed one by one; the first
    [os.remove] that raises ends the loop with what is left. *)
Fixpoint remove_each (names : list string) (d : dir S) : dir S * bool :=
  match names with
  | [] => (d, true)
  | name :: names' =>
      match remove_file name d with
      | Some d' => remove_each names' d'
      | None => (d, false)
      end
  end.

(** [clear_user_voiceprint], identical in the three classes; [false] is the
    [except] branch. *)
Definition clear_user_voiceprint (fs : disk S V) (u : user_id)
    : disk S V * bool :=
  let vps := if decide (is_Some (voiceprint_files fs !! u))
             then delete u (voiceprint_files fs)
             else voiceprint_files fs in
  match sample_dirs fs !! u with
  | None => (Disk (sample_dirs fs) vps, true)
  | Some d =>
      match remove_each (listdir d) d with
      | (d', false) => (Disk (<[u := d']> (sample_dirs fs)) vps, false)
      | (d', true) =>
          match rmdir d' with
          | None => (Disk (<[u := d']> (sample_dirs fs)) vps, false)
          | Some _ => (Disk (delete u (sample_dirs fs)) vps, true)
          end
      end
  end.
End Storage.

(** ** voice_matcher.py: the fixed-vector ensemble design *)

Module Ensemble.

(** The pickled [sample_data] dictionary. *)
Record sample_data := SampleData {
  features : vec;
  timestamp : Z;
  sample_number : Z
}.

(** The pickled [voiceprint] dictionary. *)
Record voiceprint := Voiceprint {
  mean_features : vec;
  std_features : vec;
  median_features : vec;
  sample_count : nat;
  created_at : Z;
  raw_samples : list vec
}.

Definition state := disk sample_data voiceprint.

Definition threshold : R := 0.75.
Definition min_samples : nat := 3.

Definition save_voice_sample (fs : state) (u : user_id) (n : Z)
    (feat : vec) (now : Z) : state * bool :=
  (store_sample fs u n (SampleData feat now n), true).

(** The statistics of [create_voiceprint], computed in memory; [None] is an
    exception raised by numpy. *)
Definition build_voiceprint (samples : list vec) (now : Z)
    : option voiceprint :=
  samples_array ← np_array samples;
  Some (Voiceprint (axis0 np_mean samples_array)
                   (axis0 np_std samples_array)
                   (axis0 np_median samples_array)
                   (length samples)
                   now
                   samples_array).

Definition create_voiceprint (fs : state) (u : user_id) (now : Z)
    : state * bool :=
  match sample_dirs fs !! u with
  | None => (fs, false)
  | Some d =>
      let samples := map features (pkl_contents d) in
      if (length samples <? min_samples)%nat then (fs, false)
      else match build_voiceprint samples now with
           | None => (fs, false)
           | Some vp =>
               (Disk (sample_dirs fs) (<[u := vp]> (voiceprint_files fs)),
                true)
           end
  end.

(** Strategy 3, the loop over [voiceprint['raw_samples']]; [best] is
    [best_sample_score], which the caller initialises to [0.0]. *)
Fixpoint best_sample_loop (test : vec) (raw : list vec) (best : R)
    : option R :=
  match raw with
  | [] => Some best
  | sample :: raw' =>
      sample_similarity ← cosine_similarity test sample;
      best_sample_loop test raw' (Rmax best sample_similarity)
  end.

Definition weights : vec := [0.3; 0.2; 0.3; 0.2].

(** The body of [authenticate_voice] after the voiceprint is loaded. *)
Definition score (vp : voiceprint) (test : vec) : option (bool * R) :=
  mean_similarity ← cosine_similarity test (mean_features vp);
  median_similarity ← cosine_similarity test (median_features vp);
  best_sample_score ← best_sample_loop test (raw_samples vp) 0;
  diff ← np_broadcast Rminus test (mean_features vp);
  let feature_diff := map Rabs diff in
  normalized_diff ←
    np_broadcast Rdiv feature_diff
      (map (fun s => s + 1e-8) (std_features vp));
  let stat_score := 1 / (1 + np_mean normalized_diff) in
  let scores :=
    [mean_similarity; median_similarity; best_sample_score; stat_score] in
  let final_score := np_average scores weights in
  Some (Rgeb final_score threshold, final_score).

Definition authenticate_voice (fs : state) (u : user_id) (test : vec)
    : bool * R :=
  match voiceprint_files fs !! u with
  | None => (false, 0)
  | Some vp =>
      match score vp test with
      | Some result => result
      | None => (false, 0)
      end
  end.

(** The dictionary returned by [get_voiceprint_info]. *)
Record voiceprint_info := VoiceprintInfo {
  info_sample_count : nat;
  info_created_at : Z;
  feature_dimensions : nat
}.

Definition get_voiceprint_info (fs : state) (u : user_id)
    : option voiceprint_info :=
  vp ← voiceprint_files fs !! u;
  Some (VoiceprintInfo (sample_count vp) (created_at vp)
          (length (mean_features vp))).

End Ensemble.

(** ** Floats with the IEEE special values *)

Inductive xfloat := Fin (r : R) | PInf | NInf | NaN.

Definition xadd (a b : xfloat) : xfloat :=
  match a, b with
  | NaN, _ | _, NaN => NaN
  | PInf, NInf | NInf, PInf => NaN
  | PInf, _ | _, PInf => PInf
  | NInf, _ | _, NInf => NInf
  | Fin x, Fin y => Fin (x + y)
  end.

Definition xneg (a : xfloat) : xfloat :=
  match a with
  | Fin x => Fin (- x)
  | PInf => NInf
  | NInf => PInf
  | NaN => NaN
  end.

(** Division by a positive finite constant. *)
Definition xdiv_pos (a : xfloat) (c : R) : xfloat :=
  match a with
  | Fin x => Fin (x / c)
  | other => other
  end.

(** Half of the smallest positive binary64 number, [2^-1075]: a result at
    or below it rounds to 0.0.  From [2^1024] on a result overflows. *)
Definition exp_underflow : R := / 2 ^ 1075.
Definition exp_overflow : R := 2 ^ 1024.

(** [np.exp] of a finite number in binary64: the exponential with its
    underflow to 0.0 and its overflow to [inf]; the rounding of the values
    in between is not modelled. *)
Definition np_exp (x : R) : xfloat :=
  if Rle_dec (exp x) exp_underflow then Fin 0
  else if Rle_dec exp_overflow (exp x) then PInf
  else Fin (exp x).

(** [np.exp] *)
Definition xexp (a : xfloat) : xfloat :=
  match a with
  | Fin x => np_exp x
  | PInf => PInf
  | NInf => Fin 0
  | NaN => NaN
  end.

(** [a >= t] for a finite [t]; every comparison with NaN is false. *)
Definition xgeb (a : xfloat) (t : R) : bool :=
  match a with
  | Fin x => Rgeb x t
  | PInf => true
  | NInf | NaN => false
  end.

Definition xsum (l : list xfloat) : xfloat := fold_right xadd (Fin 0) l.

(** [np.mean] of a list of floats; the mean of no element is NaN. *)
Definition xmean (l : list xfloat) : xfloat :=
  match l with
  | [] => NaN
  | _ :: _ => xdiv_pos (xsum l) (INR (length l))
  end.

(** ** voice_matcher-1.py: the alignment (DTW) design *)

Module Alignment.

(** An MFCC matrix as its list of rows. *)
Abbreviation matrix := (list (list R)) (only parsing).

Definition shape0 (m : matrix) : nat := length m.
Definition shape1 (m : matrix) : nat := length (hd [] m).
Definition transpose (m : matrix) : matrix :=
  map (fun j => column j m) (seq 0 (shape1 m)).

(** [M.T if M.shape[0] < M.shape[1] else M] *)
Definition orient (m : matrix) : matrix :=
  if (shape0 m <? shape1 m)%nat then transpose m else m.

Record sample_data := SampleData {
  features : matrix;
  timestamp : Z
}.

(** The voiceprint file holds the pickled list of enrolled matrices. *)
Definition state := disk sample_data (list matrix).

Definition threshold : R := 0.1.

Section WithDtw.
(** [librosa.sequence.dtw(X, Y, metric='euclidean')]: the accumulated cost
    matrix [D], or [None] when the library raises. *)
Variable dtw : matrix -> matrix -> option (list (list xfloat)).

(** [D[-1, -1]]; an empty axis raises [IndexError]. *)
Definition last_cell (D : list (list xfloat)) : option xfloat :=
  row ← last D; last row.

Definition dtw_distance (A B : matrix) : xfloat :=
  let A := orient A in
  let B := orient B in
  match D ← dtw (transpose A) (transpose B); last_cell D with
  | Some dist => dist
  | None => PInf
  end.

Definition save_voice_sample (fs : state) (u : user_id) (n : Z)
    (mfcc_matrix : matrix) (now : Z) : state * bool :=
  (store_sample fs u n (SampleData mfcc_matrix now), true).

Definition create_voiceprint (fs : state) (u : user_id) : state * bool :=
  match sample_dirs fs !! u with
  | None => (fs, false)
  | Some d =>
      let samples := map features (pkl_contents d) in
      if (length samples <? 3)%nat then (fs, false)
      else (Disk (sample_dirs fs) (<[u := samples]> (voiceprint_files fs)),
            true)
  end.

Definition alpha : R := 40.

(** The similarity computed from the per-sample distances. *)
Definition similarity_of (distances : list xfloat) : xfloat :=
  let avg_dist := xmean distances in
  xexp (xdiv_pos (xneg avg_dist) alpha).

Definition authenticate_voice (fs : state) (u : user_id)
    (test_matrix : matrix) : bool * xfloat :=
  match voiceprint_files fs !! u with
  | None => (false, Fin 0)
  | Some enrolled_samples =>
      let distances := map (dtw_distance test_matrix) enrolled_samples in
      let similarity := similarity_of distances in
      (xgeb similarity threshold, similarity)
  end.
End WithDtw.

(** [vp[key]] for a string [key] on a pickled Python list: a list index must
    be an integer, so the subscript raises [TypeError]. *)
Definition list_getitem_str {A B : Type} (l : list A) (key : string)
    : option B := None.

(** [get_voiceprint_info]: the voiceprint file of this class holds the list
    of enrolled matrices, which the method subscripts with string keys. *)
Definition get_voiceprint_info (fs : state) (u : user_id)
    : option (nat * Z * nat) :=
  vp ← voiceprint_files fs !! u;
  sample_count ← list_getitem_str (B := nat) vp "sample_count";
  created_at ← list_getitem_str (B := Z) vp "created_at";
  mean_features ← list_getitem_str (B := list R) vp "mean_features";
  Some (sample_count, created_at, length mean_features).

End Alignment.

(** ** voice_matcher-3.py: the mean-embedding design *)

Module Embedding.

Record sample_data := SampleData {
  embedding : vec;
  timestamp : Z
}.

Record voiceprint := Voiceprint { vp_embedding : vec }.

Definition state := disk sample_data voiceprint.

Definition threshold : R := 0.75.

Definition save_voice_sample (fs : state) (u : user_id) (n : Z)
    (emb : vec) (now : Z) : state * bool :=
  (store_sample fs u n (SampleData emb now), true).

Definition create_voiceprint (fs : state) (u : user_id) : state * bool :=
  match sample_dirs fs !! u with
  | None => (fs, false)
  | Some d =>
      let embeddings := map embedding (pkl_contents d) in
      if (length embeddings <? 3)%nat then (fs, false)
      else match np_array embeddings with
           | None => (fs, false)
           | Some rows =>
               (Disk (sample_dirs fs)
                     (<[u := Voiceprint (axis0 np_mean rows)]>
                        (voiceprint_files fs)),
                true)
           end
  end.

Definition authenticate_voice (fs : state) (u : user_id)
    (test_embedding : vec) : bool * R :=
  match voiceprint_files fs !! u with
  | None => (false, 0)
  | Some vp =>
      match cosine_similarity (vp_embedding vp) test_embedding with
      | Some sim => (Rgeb sim threshold, sim)
      | None => (false, 0)
      end
  end.

End Embedding.

(** ** The fused score in the words of the specification *)

(** Signal 4: [1 / (1 + mean_j (|probe_j - mean_j| / (std_j + epsilon)))],
    the mean taken over the dimensions [j] of the probe. *)
Definition stat_similarity (probe mean std : vec) : R :=
  1 / (1 + np_mean
             (map (fun j => Rabs (nth j probe 0 - nth j mean 0)
                            / (nth j std 0 + 1e-8))
                  (seq 0 (length probe)))).

(** The largest element of the non-empty list [x :: l]. *)
Fixpoint list_max (x : R) (l : list R) : R :=
  match l with
  | [] => x
  | y :: l' => Rmax x (list_max y l')
  end.

(** Signal 3 as "the maximum of 0.0 and the per-raw-sample cosine
    similarities". *)
Definition best_sample_signal (probe : vec) (raw : list vec) : R :=
  list_max 0 (map (cosine probe) raw).

(** Signal 3 as "the best per-raw-sample cosine similarity": the largest of
    the cosine similarities themselves. *)
Definition best_raw_cosine (probe : vec) (raw : list vec) : R :=
  match map (cosine probe) raw with
  | [] => 0
  | c :: cs => list_max c cs
  end.

(** The weighted average of the four signals, weights 0.3, 0.2, 0.3, 0.2. *)
Definition fused_score (s_mean s_median s_best s_stat : R) : R :=
  0.3 * s_mean + 0.2 * s_median + 0.3 * s_best + 0.2 * s_stat.

(** A voiceprint whose vectors all have the dimension of the probe. *)
Definition well_shaped (vp : Ensemble.voiceprint) (probe : vec) : Prop :=
  (0 < length probe)%nat /\
  length (Ensemble.mean_features vp) = length probe /\
  length (Ensemble.median_features vp) = length probe /\
  length (Ensemble.std_features vp) = length probe /\
  Forall (fun s => length s = length probe) (Ensemble.raw_samples vp).

(** The similarity of the alignment design as a function of the average
    distance: [exp(-avg_distance / alpha)]. *)
Definition decay (avg_distance : R) : R := exp (- avg_distance / Alignment.alpha).

(** A distance that is a number other than [-inf]. *)
Definition is_cost (d : xfloat) : Prop :=
  match d with
  | Fin _ | PInf => True
  | NInf | NaN => False
  end.

(** A distance that is not finite. *)
Definition nonfinite (d : xfloat) : Prop :=
  match d with
  | Fin _ => False
  | PInf | NInf | NaN => True
  end.

(** A distance other than [-inf]. *)
Definition not_ninf (d : xfloat) : Prop :=
  match d with
  | NInf => False
  | Fin _ | PInf | NaN => True
  end.

(** The similarity reported for a mean distance [d >= 0]: the decay, or 0.0
    once [np.exp] has underflowed. *)
Definition reported_decay (d : R) : R :=
  if Rle_dec (decay d) exp_underflow then 0 else decay d.

(** What librosa's [dtw] returns.  It raises [ParameterError] for a cost
    matrix with NaN, and an accumulated cost is a sum of euclidean
    distances: every entry of a returned matrix is a number or [+inf]. *)
Definition librosa_dtw
    (dtw : list (list R) -> list (list R) -> option (list (list xfloat)))
    : Prop :=
  forall (X Y : list (list R)) (D : list (list xfloat)),
    dtw X Y = Some D -> Forall (Forall is_cost) D.

(** librosa's [dtw] on two sequences of one frame with one coefficient
    each: the accumulated cost matrix has the single entry [|x - y|].  On
    every other input this stand-in raises. *)
Definition dtw_single (X Y : list (list R)) : option (list (list xfloat)) :=
  match X, Y with
  | [[x]], [[y]] => Some [[Fin (Rabs (x - y))]]
  | _, _ => None
  end.

(** ** Enrolment scenarios *)

(** Three uploads, numbered 1 to 3, for one user. *)
Definition stage3 (fs : Ensemble.state) (u : user_id) (x1 x2 x3 : vec)
    : Ensemble.state :=
  let fs1 := fst (Ensemble.save_voice_sample fs u 1 x1 0) in
  let fs2 := fst (Ensemble.save_voice_sample fs1 u 2 x2 0) in
  fst (Ensemble.save_voice_sample fs2 u 3 x3 0).

(** The three uploads followed by [create_voiceprint]. *)
Definition enrol3 (fs : Ensemble.state) (u : user_id) (x1 x2 x3 : vec)
    : Ensemble.state * bool :=
  Ensemble.create_voiceprint (stage3 fs u x1 x2 x3) u 0.

(** ** Reading the staging area *)

(** [open(path, 'rb')] followed by [pickle.load]: the content of the file
    called [name]; [None] is the [FileNotFoundError]. *)
Fixpoint read_file {A : Type} (name : string) (d : dir A) : option A :=
  match d with
  | [] => None
  | (n, c) :: d' => if String.eqb n name then Some c else read_file name d'
  end.

(** The file name [f"sample_{sample_number}.pkl"]. *)
Definition sample_path (sample_number : Z) : string :=
  "sample_" +:+ pretty sample_number +:+ ".pkl".

(** The staged sample of index [n] of user [u], if there is one. *)
Definition read_sample {S V : Type} (fs : disk S V) (u : user_id) (n : Z)
    : option S :=
  d ← sample_dirs fs !! u; read_file (sample_path n) d.

(** ** models.py and routes.py: the enrolment and authentication handlers *)

(** The handlers are embedded over the fixed-vector matcher of
    [voice_matcher.py].  The feature extractor (librosa) is outside the
    model: the outcome of [audio_processor.extract_mfcc_features] on the
    uploaded file is an argument of the handler, [None] or a feature vector
    as [audio_processor-o.py] returns it.  The extractor of
    [audio_processor.py] returns a dictionary instead; the matcher stores it
    as it stores a vector, but [create_voiceprint] and [authenticate_voice]
    then raise inside their [try] blocks and answer [False] and
    [(False, 0.0)].  The properties stated of the handlers are those that
    hold with either extractor.  The temporary file is created and removed
    outside [voiceprints/], and [db.session.commit()] is taken to
    succeed. *)

Module Routes.

(** A row of the [AuthAttempt] table. *)
Record auth_attempt := AuthAttempt {
  attempt_user_id : Z;
  success : bool;
  confidence_score : R;
  ip_address : string
}.

(** What the handlers read and write: the [voiceprints/] directory, the
    column [is_voice_enrolled] of the [User] table (by user id, default
    [False]), the [AuthAttempt] table in insertion order, and the key
    ['voice_authenticated'] of the client's session ([false]: not set). *)
Record world := World {
  files : Ensemble.state;
  is_voice_enrolled : gmap Z bool;
  auth_attempts : list auth_attempt;
  voice_authenticated : bool
}.

(** [User.has_voiceprint] of models.py: the flag and
    [os.path.exists(self.get_voiceprint_path())]. *)
Definition has_voiceprint (w : world) (u : user_id) : bool :=
  default false (is_voice_enrolled w !! u) &&
  bool_decide (is_Some (voiceprint_files (files w) !! u)).

(** The parts of a request the handlers look at: the file name of
    [request.files['audio']] if that part is present, the value of
    [int(request.form.get('sample_number', 1))] ([None] when [int] raises),
    and [request.remote_addr]. *)
Record request := Request {
  audio : option string;
  sample_number : option Z;
  remote_addr : string
}.

(** The JSON bodies, redirects and pages the handlers answer with. *)
Inductive response :=
| Failure (error : string)
| Enrolled (sample_count : nat)
| Recorded (sample_number : Z) (sample_count : nat) (samples_needed : Z)
| Authenticated (authenticated : bool) (confidence : R)
| Redirect (endpoint : string)
| Page (template : string).

(** [upload_voice_sample]; [t_save] and [t_create] are the clock readings of
    [save_voice_sample] and [create_voiceprint]. *)
Definition upload_voice_sample (w : world) (u : user_id) (req : request)
    (features : option vec) (t_save t_create : Z) : world * response :=
  match audio req with
  | None => (w, Failure "No audio file provided")
  | Some filename =>
      match sample_number req with
      | None => (w, Failure "Failed to process audio sample")
      | Some n =>
          if String.eqb filename EmptyString
          then (w, Failure "No file selected")
          else
            match features with
            | None => (w, Failure "Failed to extract features from audio")
            | Some feat =>
                let fs1 :=
                  fst (Ensemble.save_voice_sample (files w) u n feat t_save) in
                let total_samples := get_sample_count fs1 u in
                let recorded :=
                  Recorded n total_samples
                           (Z.max 0 (3 - Z.of_nat total_samples)) in
                if (3 <=? total_samples)%nat
                then
                  match Ensemble.create_voiceprint fs1 u t_create with
                  | (fs2, true) =>
                      (World fs2 (<[u := true]> (is_voice_enrolled w))
                             (auth_attempts w) (voice_authenticated w),
                       Enrolled total_samples)
                  | (fs2, false) =>
                      (World fs2 (is_voice_enrolled w)
                             (auth_attempts w) (voice_authenticated w),
                       recorded)
                  end
                else
                  (World fs1 (is_voice_enrolled w)
                         (auth_attempts w) (voice_authenticated w),
                   recorded)
            end
      end
  end.

(** [voice_auth] *)
Definition voice_auth (w : world) (u : user_id) : response :=
  if has_voiceprint w u then Page "voice_auth.html"
  else Redirect "enroll_voice".

(** The route [authenticate_voice]. *)
Definition authenticate_voice (w : world) (u : user_id) (req : request)
    (features : option vec) : world * response :=
  match audio req with
  | None => (w, Failure "No audio file provided")
  | Some filename =>
      if String.eqb filename EmptyString
      then (w, Failure "No file selected")
      else
        match features with
        | None => (w, Failure "Failed to extract features from audio")
        | Some feat =>
            let '(is_match, confidence) :=
              Ensemble.authenticate_voice (files w) u feat in
            let attempt :=
              AuthAttempt u is_match confidence (remote_addr req) in
            (World (files w) (is_voice_enrolled w)
                   (auth_attempts w ++ [attempt])
                   (if is_match then true else voice_authenticated w),
             Authenticated is_match confidence)
        end
  end.

(** [re_enroll] *)
Definition re_enroll (w : world) (u : user_id) : world * response :=
  (World (fst (clear_user_voiceprint (files w) u))
         (<[u := false]> (is_voice_enrolled w))
         (auth_attempts w) (voice_authenticated w), Redirect "enroll_voice").

(** One call of [upload_voice_sample] with what it is given. *)
Record upload := Upload {
  upload_request : request;
  upload_features : option vec;
  upload_t_save : Z;
  upload_t_create : Z
}.

(** A series of uploads by one user, with the responses in order. *)
Fixpoint upload_each (w : world) (u : user_id) (calls : list upload)
    : world * list response :=
  match calls with
  | [] => (w, [])
  | c :: calls' =>
      let '(w1, r) :=
        upload_voice_sample w u (upload_request c) (upload_features c)
                            (upload_t_save c) (upload_t_create c) in
      let '(w2, rs) := upload_each w1 u calls' in
      (w2, r :: rs)
  end.

(** The flag [is_voice_enrolled] is only set for users whose voiceprint file
    exists. *)
Definition flag_backed (w : world) : Prop :=
  forall u : user_id,
    is_voice_enrolled w !! u = Some true ->
    is_Some (voiceprint_files (files w) !! u).

End Routes.

(** ** audio_processor.py and audio_processor-o.py: the numeric helpers *)

(** The helpers take the decoded signal or the feature matrix as arrays;
    librosa's decoding and feature extraction are outside the model.  A
    two-dimensional array is the list of its rows. *)

(** [np.min] and [np.max] of a one-dimensional array; a zero-size array
    raises [ValueError]. *)
Definition np_min (v : vec) : option R :=
  match v with
  | [] => None
  | x :: l => Some (fold_right Rmin x l)
  end.

Definition np_max (v : vec) : option R :=
  match v with
  | [] => None
  | x :: l => Some (fold_right Rmax x l)
  end.

(** A fallible reduction [f(..., axis=1)]: [f] applied to every row. *)
Fixpoint axis1 (f : vec -> option R) (rows : list vec) : option vec :=
  match rows with
  | [] => Some []
  | r :: rows' => x ← f r; xs ← axis1 f rows'; Some (x :: xs)
  end.

(** [(v - m) / (s + 1e-8)], element by element. *)
Definition standardize (m s : R) (v : vec) : vec :=
  map (fun x => (x - m) / (s + 1e-8)) v.

Module AudioProcessor.

(** [_pre_emphasis]: [np.append(audio[0], audio[1:] - alpha * audio[:-1])];
    [audio[0]] raises [IndexError] on an empty signal.  The callers use the
    default [alpha = 0.97]. *)
Definition _pre_emphasis (audio : vec) (alpha : R) : option vec :=
  match audio with
  | [] => None
  | a0 :: rest =>
      Some (a0 :: zip_with Rminus rest
                    (map (Rmult alpha) (removelast audio)))
  end.

Definition default_alpha : R := 0.97.

(** [_normalize_features] and [_normalize_mfcc] of audio_processor.py: the
    mean and the standard deviation are taken over all entries. *)
Definition _normalize_mfcc (mfcc : list vec) : list vec :=
  let entries := concat mfcc in
  map (standardize (np_mean entries) (np_std entries)) mfcc.

Definition _normalize_features (features : list vec) : list vec :=
  let entries := concat features in
  map (standardize (np_mean entries) (np_std entries)) features.

(** [_calculate_statistical_features]: mean, std, min and max of every row,
    concatenated in this order. *)
Definition _calculate_statistical_features (features : list vec)
    : option vec :=
  let mean_features := map np_mean features in
  let std_features := map np_std features in
  min_features ← axis1 np_min features;
  max_features ← axis1 np_max features;
  Some (mean_features ++ std_features ++ min_features ++ max_features).

(** [validate_audio_quality] on the result [(audio, sr)] of
    [librosa.load]; the [except] branch is reached by the division
    [len(audio) / sr] when [sr] is 0. *)
Definition validate_audio_quality (audio : vec) (sr : Z) : bool * string :=
  if (sr =? 0)%Z
  then (false, "Error validating audio: division by zero")
  else
    let duration := INR (length audio) / IZR sr in
    if Rlt_dec duration 1
    then (false, "Audio too short (minimum 1 second required)")
    else if Rlt_dec 10 duration
    then (false, "Audio too long (maximum 10 seconds allowed)")
    else
      let rms := sqrt (np_mean (map (fun x => x * x) audio)) in
      if Rlt_dec rms 0.01
      then (false, "Audio signal too weak")
      else
        match np_max (map Rabs audio) with
        | None =>
            (false,
             "Error validating audio: zero-size array to reduction operation maximum which has no identity")
        | Some peak =>
            if Rlt_dec 0.99 peak
            then (false, "Audio signal is clipped")
            else if (sr <? 8000)%Z
            then (false, "Sample rate too low (minimum 8kHz)")
            else (true, "Audio quality is acceptable")
        end.

End AudioProcessor.

Module AudioProcessorO.

(** [_normalize_features] of audio_processor-o.py: every row by its own
    mean and standard deviation ([axis=1, keepdims=True]). *)
Definition _normalize_features (features : list vec) : list vec :=
  map (fun row => standardize (np_mean row) (np_std row) row) features.

End AudioProcessorO.

(** The pre-emphasis filter as a recurrence: every sample minus [alpha]
    times its predecessor [prev]. *)
Fixpoint emphasize (alpha prev : R) (l : vec) : vec :=
  match l with
  | [] => []
  | x :: l' => (x - alpha * prev) :: emphasize alpha x l'
  end.

(** ** The same arithmetic in binary64 *)

(** [float] is IEEE 754 binary64 with rounding to nearest even, the
    arithmetic of numpy's [float64].  The definitions below repeat the
    numeric steps of the code on such numbers, for short arrays; they serve
    to evaluate the code where it departs from real arithmetic. *)

Module Binary64.

(** [len(v)] as a float. *)
Definition of_nat (n : nat) : float :=
  Nat.iter n (fun x => PrimFloat.add x 1%float) 0%float.

(** Adding up an array of fewer than 8 elements, and the reduction of a
    matrix along axis 0: the terms are added one after the other, in the
    order of the array. *)
Definition np_sum (v : list float) : float :=
  fold_left PrimFloat.add v 0%float.

Definition np_mean (v : list float) : float :=
  PrimFloat.div (np_sum v) (of_nat (length v)).

Definition column (j : nat) (rows : list (list float)) : list float :=
  map (fun r => nth j r 0%float) rows.

(** [mean_features = np.mean(samples_array, axis=0)] of
    [create_voiceprint]. *)
Definition mean_features (samples : list (list float)) : list float :=
  map (fun j => np_mean (column j samples))
      (seq 0 (length (hd [] samples))).

Fixpoint zip_with (f : float -> float -> float) (x y : list float)
    : list float :=
  match x, y with
  | a :: x', b :: y' => f a b :: zip_with f x' y'
  | _, _ => []
  end.

Definition dot (x y : list float) : float :=
  np_sum (zip_with PrimFloat.mul x y).

Definition l2_norm (x : list float) : float := PrimFloat.sqrt (dot x x).

(** [10 * np.finfo(np.float64).eps] *)
Definition norm_floor : float := PrimFloat.mul 10%float 0x1p-52%float.

Definition normalize (x : list float) : list float :=
  let n := l2_norm x in
  let n' := if PrimFloat.ltb n norm_floor then 1%float else n in
  map (fun a => PrimFloat.div a n') x.

(** [cosine_similarity] on two rows. *)
Definition cosine (x y : list float) : float :=
  dot (normalize x) (normalize y).

(** [_pre_emphasis] on a [float64] signal. *)
Definition _pre_emphasis (audio : list float) (alpha : float)
    : option (list float) :=
  match audio with
  | [] => None
  | a0 :: rest =>
      Some (a0 :: zip_with PrimFloat.sub rest
                    (map (PrimFloat.mul alpha) (removelast audio)))
  end.

End Binary64.

(** * Properties *)

(** ** Storage *)

Section StorageFacts.
Context {S V : Type}.
Implicit Types (d : dir S) (fs : disk S V) (u : user_id).

Lemma pkl_contents_length d :
  length (pkl_contents d) = length (List.filter is_pkl (listdir d)).
Proof.
  unfold pkl_contents, listdir. rewrite length_map.
  induction d as [|[n c] d IH]; simpl; [reflexivity|].
  destruct (is_pkl n); simpl; congruence.
Qed.

Lemma pkl_contents_perm d1 d2 :
  Permutation d1 d2 -> Permutation (pkl_contents d1) (pkl_contents d2).
Proof.
  intros H. unfold pkl_contents. apply Permutation_map.
  induction H; simpl.
  - constructor.
  - destruct (is_pkl (fst x)); [constructor|]; assumption.
  - destruct (is_pkl (fst x)), (is_pkl (fst y));
      first [apply perm_swap | apply Permutation_refl].
  - etransitivity; eassumption.
Qed.

Lemma remove_each_listdir d : remove_each (listdir d) d = ([], true).
Proof.
  induction d as [|[n c] d IH]; simpl; [reflexivity|].
  rewrite String.eqb_refl. exact IH.
Qed.

Lemma get_sample_count_no_dir fs u :
  sample_dirs fs !! u = None -> get_sample_count fs u = 0%nat.
Proof. unfold get_sample_count. intros ->. reflexivity. Qed.
End StorageFacts.

(** C1. Authenticating a user who has no voiceprint file returns
    [(False, 0.0)] in the ensemble, the alignment and the embedding design,
    whatever the probe; the functions are total, so nothing is raised. *)
Theorem authenticate_without_voiceprint :
  (forall (fs : Ensemble.state) (u : user_id) (probe : vec),
      voiceprint_files fs !! u = None ->
      Ensemble.authenticate_voice fs u probe = (false, 0)) /\
  (forall dtw (fs : Alignment.state) (u : user_id) (probe : Alignment.matrix),
      voiceprint_files fs !! u = None ->
      Alignment.authenticate_voice dtw fs u probe = (false, Fin 0)) /\
  (forall (fs : Embedding.state) (u : user_id) (probe : vec),
      voiceprint_files fs !! u = None ->
      Embedding.authenticate_voice fs u probe = (false, 0)).
Proof.
  repeat split; intros;
    [unfold Ensemble.authenticate_voice
    |unfold Alignment.authenticate_voice
    |unfold Embedding.authenticate_voice];
    match goal with H : _ !! _ = None |- _ => rewrite H end; reflexivity.
Qed.

Lemma authenticate_without_voiceprint_witness :
  Ensemble.authenticate_voice (Disk ∅ ∅) 7%Z [1; 0; 0] = (false, 0).
Proof.
  apply (proj1 authenticate_without_voiceprint). reflexivity.
Defined.

(** C2. With fewer than [min_samples] (3) staged samples, [create_voiceprint]
    returns [False] and leaves the whole disk, hence the user's voiceprint
    record, as it was; in the ensemble and in the embedding design. *)
Theorem create_voiceprint_insufficient_samples :
  (forall (fs : Ensemble.state) (u : user_id) (now : Z),
      (get_sample_count fs u < Ensemble.min_samples)%nat ->
      Ensemble.create_voiceprint fs u now = (fs, false)) /\
  (forall (fs : Embedding.state) (u : user_id),
      (get_sample_count fs u < 3)%nat ->
      Embedding.create_voiceprint fs u = (fs, false)).
Proof.
  split; intros fs u; [intros now|]; unfold get_sample_count;
    [unfold Ensemble.create_voiceprint|unfold Embedding.create_voiceprint];
    destruct (sample_dirs fs !! u) as [d|]; try reflexivity;
    rewrite <- pkl_contents_length; intros H;
    rewrite length_map; apply Nat.ltb_lt in H; rewrite H; reflexivity.
Qed.

Lemma create_voiceprint_insufficient_samples_witness :
  let fs0 : Ensemble.state := Disk ∅ ∅ in
  let fs1 := fst (Ensemble.save_voice_sample fs0 7%Z 1%Z [1; 0; 0] 0%Z) in
  let fs2 := fst (Ensemble.save_voice_sample fs1 7%Z 2%Z [1; 0; 0] 0%Z) in
  get_sample_count fs2 7%Z = 2%nat /\
  Ensemble.create_voiceprint fs2 7%Z 0%Z = (fs2, false).
Proof.
  split; [reflexivity|].
  apply (proj1 create_voiceprint_insufficient_samples).
  vm_compute. lia.
Defined.

(** C8. [clear_user_voiceprint] always returns [True]; afterwards the user
    has neither a samples directory (so no staged sample) nor a voiceprint
    file, and a second call returns [True] again and changes nothing.  This
    covers a user for whom nothing was stored. *)
Theorem clear_user_voiceprint_idempotent :
  forall (S V : Type) (fs : disk S V) (u : user_id),
    let fs' := fst (clear_user_voiceprint fs u) in
    snd (clear_user_voiceprint fs u) = true /\
    sample_dirs fs' !! u = None /\
    get_sample_count fs' u = 0%nat /\
    voiceprint_files fs' !! u = None /\
    clear_user_voiceprint fs' u = (fs', true).
Proof.
  intros S V fs u.
  assert (Hclear : clear_user_voiceprint fs u =
            (Disk (delete u (sample_dirs fs)) (delete u (voiceprint_files fs)),
             true)).
  { unfold clear_user_voiceprint.
    assert (Hvp : (if decide (is_Some (voiceprint_files fs !! u))
                   then delete u (voiceprint_files fs)
                   else voiceprint_files fs) = delete u (voiceprint_files fs)).
    { case_decide as Hs; [reflexivity|].
      symmetry. apply delete_id.
      destruct (voiceprint_files fs !! u) eqn:E; [|reflexivity].
      exfalso. apply Hs. eauto. }
    rewrite Hvp.
    destruct (sample_dirs fs !! u) as [d|] eqn:Ed.
    - rewrite remove_each_listdir. reflexivity.
    - rewrite (delete_id (sample_dirs fs) u Ed). reflexivity. }
  cbv zeta. rewrite Hclear. simpl.
  assert (Hs : delete u (sample_dirs fs) !! u = None) by apply lookup_delete_eq.
  assert (Hv : delete u (voiceprint_files fs) !! u = None)
    by apply lookup_delete_eq.
  repeat split; try assumption.
  - apply get_sample_count_no_dir. exact Hs.
  - unfold clear_user_voiceprint. simpl. rewrite Hs, Hv.
    case_decide as Hd; [destruct Hd as [? Hd]; discriminate|reflexivity].
Qed.

(** ** Order-independence of the numpy reductions *)

Lemma np_sum_perm (l1 l2 : vec) : Permutation l1 l2 -> np_sum l1 = np_sum l2.
Proof.
  unfold np_sum. induction 1; simpl; lra.
Qed.

Lemma np_mean_perm (l1 l2 : vec) :
  Permutation l1 l2 -> np_mean l1 = np_mean l2.
Proof.
  intros H. unfold np_mean.
  rewrite (np_sum_perm _ _ H), (Permutation_length H). reflexivity.
Qed.









(** ** Matrices of equally long rows *)

Lemma hd_length_uniform (rows : list vec) (D : nat) :
  rows <> [] -> Forall (fun r => length r = D) rows ->
  length (hd [] rows) = D.
Proof.
  intros Hne H. destruct rows as [|r rows]; [contradiction|].
  inversion H; assumption.
Qed.

Lemma np_array_uniform (rows : list vec) (D : nat) :
  Forall (fun r => length r = D) rows -> np_array rows = Some rows.
Proof.
  intros H. unfold np_array.
  destruct rows as [|r0 rows]; [reflexivity|].
  rewrite (hd_length_uniform (r0 :: rows) D) by (congruence || assumption).
  replace (forallb _ _) with true; [reflexivity|].
  symmetry. apply forallb_forall. rewrite List.Forall_forall in H.
  intros r Hr. apply Nat.eqb_eq, H, Hr.
Qed.

Lemma axis0_length (f : vec -> R) (rows : list vec) :
  length (axis0 f rows) = length (hd [] rows).
Proof. unfold axis0. rewrite length_map, length_seq. reflexivity. Qed.

Lemma axis0_perm (f : vec -> R) (rows1 rows2 : list vec) (D : nat) :
  (forall l1 l2, Permutation l1 l2 -> f l1 = f l2) ->
  Permutation rows1 rows2 ->
  Forall (fun r => length r = D) rows1 ->
  axis0 f rows1 = axis0 f rows2.
Proof.
  intros Hf Hp H1.
  assert (H2 : Forall (fun r => length r = D) rows2)
    by (apply (Permutation_Forall Hp), H1).
  destruct rows1 as [|r1 rows1].
  { apply Permutation_nil in Hp. subst. reflexivity. }
  assert (Hne2 : rows2 <> []).
  { intros ->. apply Permutation_sym, Permutation_nil in Hp. discriminate. }
  unfold axis0.
  rewrite (hd_length_uniform _ D) by (congruence || assumption).
  rewrite (hd_length_uniform rows2 D) by assumption.
  apply map_ext. intros j. apply Hf. unfold column.
  apply Permutation_map, Hp.
Qed.



(** ** Cosine similarity *)

Lemma norm_floor_pos : 0 < norm_floor.
Proof. unfold norm_floor. lra. Qed.

Lemma norm_floor_lt_1 : norm_floor < 1.
Proof. unfold norm_floor. lra. Qed.

Lemma dot_self_nonneg (x : vec) : 0 <= dot x x.
Proof.
  unfold dot, np_sum. induction x as [|a x IH]; simpl; [lra|]. nra.
Qed.

Lemma l2_norm_sqr (x : vec) : l2_norm x * l2_norm x = dot x x.
Proof. unfold l2_norm. apply sqrt_sqrt, dot_self_nonneg. Qed.

Lemma normalize_regular (x : vec) :
  norm_floor <= l2_norm x ->
  normalize x = map (fun a => a / l2_norm x) x.
Proof.
  intros H. unfold normalize.
  destruct (Rlt_dec (l2_norm x) norm_floor); [lra | reflexivity].
Qed.

Lemma dot_scaled (c e : R) (x y : vec) :
  c <> 0 -> e <> 0 ->
  dot (map (fun a => a / c) x) (map (fun b => b / e) y) = dot x y / (c * e).
Proof.
  intros Hc He. unfold dot, np_sum. revert y.
  induction x as [|a x IH]; intros [|b y]; simpl;
    try (unfold Rdiv; rewrite Rmult_0_l; reflexivity).
  rewrite IH. field. split; assumption.
Qed.

Lemma cosine_regular (x y : vec) :
  norm_floor <= l2_norm x -> norm_floor <= l2_norm y ->
  cosine x y = dot x y / (l2_norm x * l2_norm y).
Proof.
  intros Hx Hy. unfold cosine.
  rewrite (normalize_regular x Hx), (normalize_regular y Hy).
  pose proof norm_floor_pos. apply dot_scaled; lra.
Qed.

Lemma cosine_self (x : vec) : norm_floor <= l2_norm x -> cosine x x = 1.
Proof.
  intros Hx. rewrite (cosine_regular x x Hx Hx), <- l2_norm_sqr.
  pose proof norm_floor_pos. field. lra.
Qed.

Lemma cosine_similarity_shaped (x y : vec) :
  (0 < length x)%nat -> length y = length x ->
  cosine_similarity x y = Some (cosine x y).
Proof.
  intros Hpos Hlen. unfold cosine_similarity.
  rewrite Hlen, Nat.eqb_refl.
  destruct (Nat.ltb_spec 0 (length x)); [reflexivity | lia].
Qed.

(** ** The best-sample loop *)

Lemma list_max_Rmax (b c : R) (l : list R) :
  list_max (Rmax b c) l = Rmax b (list_max c l).
Proof.
  destruct l as [|y l]; simpl; [reflexivity|]. symmetry. apply Rmax_assoc.
Qed.

Lemma list_max_ge (x : R) (l : list R) : x <= list_max x l.
Proof. destruct l; simpl; [lra | apply Rmax_l]. Qed.

Lemma list_max_le (x b : R) (l : list R) :
  x <= b -> Forall (fun c => c <= b) l -> list_max x l <= b.
Proof.
  intros Hx Hl. revert x Hx.
  induction Hl as [|c l Hc Hl IH]; intros x Hx; simpl; [exact Hx|].
  apply Rmax_lub; [exact Hx | apply IH, Hc].
Qed.

Lemma list_max_floor (x : R) (l : list R) :
  Forall (fun c => c <= x) l -> list_max x l = x.
Proof.
  intros H. apply Rle_antisym; [|apply list_max_ge].
  apply list_max_le; [lra | exact H].
Qed.

Lemma best_sample_loop_shaped (probe : vec) (raw : list vec) (best : R) :
  (0 < length probe)%nat ->
  Forall (fun s => length s = length probe) raw ->
  Ensemble.best_sample_loop probe raw best =
    Some (list_max best (map (cosine probe) raw)).
Proof.
  intros Hpos H. revert best.
  induction H as [|s raw Hs Hraw IH]; intros best; simpl; [reflexivity|].
  rewrite (cosine_similarity_shaped probe s Hpos Hs). simpl.
  rewrite IH. f_equal. apply list_max_Rmax.
Qed.

Lemma best_sample_loop_ge (probe : vec) (raw : list vec) (best b : R) :
  Ensemble.best_sample_loop probe raw best = Some b -> best <= b.
Proof.
  revert best. induction raw as [|s raw IH]; intros best; simpl.
  - intros [= <-]. lra.
  - destruct (cosine_similarity probe s) as [c|]; simpl; [|discriminate].
    intros H. apply IH in H. pose proof (Rmax_l best c). lra.
Qed.

(** ** The fused score of a well-shaped voiceprint *)

Lemma np_broadcast_same (f : R -> R -> R) (x y : vec) :
  length x = length y -> np_broadcast f x y = Some (zip_with f x y).
Proof.
  intros H. unfold np_broadcast. rewrite H, Nat.eqb_refl. reflexivity.
Qed.

Lemma zip_with_length (f : R -> R -> R) (x y : vec) :
  length x = length y -> length (zip_with f x y) = length x.
Proof.
  revert y. induction x as [|a x IH]; intros [|b y] H; simpl in *;
    try discriminate; [reflexivity|].
  f_equal. apply IH. congruence.
Qed.

Lemma normalized_diff_nth (p m s : vec) :
  length m = length p -> length s = length p ->
  zip_with Rdiv (map Rabs (zip_with Rminus p m)) (map (fun x => x + 1e-8) s)
  = map (fun j => Rabs (nth j p 0 - nth j m 0) / (nth j s 0 + 1e-8))
        (seq 0 (length p)).
Proof.
  revert m s. induction p as [|a p IH]; intros [|b m] [|c s] Hm Hs;
    simpl in *; try discriminate; [reflexivity|].
  f_equal. rewrite <- seq_shift, map_map. apply IH; congruence.
Qed.

Lemma np_average_weights (a b c d : R) :
  np_average [a; b; c; d] Ensemble.weights = fused_score a b c d.
Proof.
  unfold np_average, Ensemble.weights, fused_score, np_sum. simpl.
  replace (0.3 + (0.2 + (0.3 + (0.2 + 0)))) with 1 by lra. lra.
Qed.

Lemma score_shaped (vp : Ensemble.voiceprint) (probe : vec) :
  well_shaped vp probe ->
  let s := fused_score
             (cosine probe (Ensemble.mean_features vp))
             (cosine probe (Ensemble.median_features vp))
             (best_sample_signal probe (Ensemble.raw_samples vp))
             (stat_similarity probe (Ensemble.mean_features vp)
                (Ensemble.std_features vp)) in
  Ensemble.score vp probe = Some (Rgeb s Ensemble.threshold, s).
Proof.
  intros (Hpos & Hmean & Hmed & Hstd & Hraw). unfold Ensemble.score.
  rewrite (cosine_similarity_shaped _ _ Hpos Hmean).
  rewrite (cosine_similarity_shaped _ _ Hpos Hmed). simpl.
  rewrite (best_sample_loop_shaped _ _ 0 Hpos Hraw). simpl.
  rewrite (np_broadcast_same Rminus) by congruence. simpl.
  rewrite (np_broadcast_same Rdiv)
    by (rewrite !length_map, zip_with_length; congruence).
  simpl. rewrite np_average_weights.
  rewrite (normalized_diff_nth _ _ _ Hmean Hstd). reflexivity.
Qed.

(** ** The three-upload scenario *)

Lemma store_sample_dir {S V : Type} (fs : disk S V) (u : user_id) (n : Z)
    (data : S) :
  sample_dirs (store_sample fs u n data) !! u =
    Some (write_file ("sample_" +:+ pretty n +:+ ".pkl")%string data
            (default [] (sample_dirs fs !! u))).
Proof. unfold store_sample. simpl. apply lookup_insert_eq. Qed.

Lemma stage3_dir (fs : Ensemble.state) (u : user_id) (x1 x2 x3 : vec) :
  sample_dirs fs !! u = None ->
  sample_dirs (stage3 fs u x1 x2 x3) !! u =
    Some [("sample_1.pkl"%string, Ensemble.SampleData x1 0 1);
          ("sample_2.pkl"%string, Ensemble.SampleData x2 0 2);
          ("sample_3.pkl"%string, Ensemble.SampleData x3 0 3)].
Proof.
  intros Hnone.
  unfold stage3, Ensemble.save_voice_sample. cbn [fst].
  rewrite !store_sample_dir, Hnone. reflexivity.
Qed.

Lemma pkl_contents3 {S : Type} (a b c : S) :
  pkl_contents [("sample_1.pkl"%string, a); ("sample_2.pkl"%string, b);
                ("sample_3.pkl"%string, c)] = [a; b; c].
Proof. reflexivity. Qed.

Lemma enrol3_result (fs : Ensemble.state) (u : user_id) (x1 x2 x3 : vec) :
  sample_dirs fs !! u = None ->
  length x2 = length x1 -> length x3 = length x1 ->
  let rows := [x1; x2; x3] in
  enrol3 fs u x1 x2 x3 =
    (Disk (sample_dirs (stage3 fs u x1 x2 x3))
          (<[u := Ensemble.Voiceprint (axis0 np_mean rows) (axis0 np_std rows)
                    (axis0 np_median rows) 3 0 rows]> (voiceprint_files fs)),
     true).
Proof.
  intros Hnone H2 H3 rows. unfold enrol3, Ensemble.create_voiceprint.
  rewrite (stage3_dir fs u x1 x2 x3 Hnone), pkl_contents3.
  cbn [map Ensemble.features length Nat.ltb Nat.leb Ensemble.min_samples].
  unfold Ensemble.build_voiceprint.
  rewrite (np_array_uniform _ (length x1)) by (repeat constructor; assumption).
  reflexivity.
Qed.

(** ** Columns of identical samples *)

Lemma column_repeat (j n : nat) (s : vec) :
  column j (repeat s n) = repeat (nth j s 0) n.
Proof.
  unfold column. induction n as [|n IH]; simpl; [reflexivity|]. f_equal. exact IH.
Qed.

Lemma np_sum_repeat (x : R) (n : nat) : np_sum (repeat x n) = INR n * x.
Proof.
  unfold np_sum. induction n as [|n IH]; [simpl; lra|].
  rewrite S_INR. simpl. rewrite IH. lra.
Qed.

Lemma np_mean_repeat (x : R) (n : nat) :
  (0 < n)%nat -> np_mean (repeat x n) = x.
Proof.
  intros Hn. unfold np_mean. rewrite np_sum_repeat, repeat_length.
  field. apply not_0_INR. lia.
Qed.

Lemma np_std_repeat (x : R) (n : nat) :
  (0 < n)%nat -> np_std (repeat x n) = 0.
Proof.
  intros Hn. unfold np_std. rewrite (np_mean_repeat x n Hn).
  replace (map (fun y => (y - x) * (y - x)) (repeat x n)) with (repeat 0 n).
  - rewrite (np_mean_repeat 0 n Hn). apply sqrt_0.
  - clear Hn. induction n as [|n IH]; simpl; [reflexivity|].
    f_equal; [lra | exact IH].
Qed.

Lemma sort_repeat (x : R) (n : nat) : sort (repeat x n) = repeat x n.
Proof.
  induction n as [|n IH]; [reflexivity|].
  change (insert_sorted x (sort (repeat x n)) = x :: repeat x n).
  rewrite IH. destruct n; simpl; [reflexivity|].
  destruct (Rle_dec x x); [reflexivity | lra].
Qed.

Lemma np_median_repeat (x : R) (n : nat) :
  (0 < n)%nat -> np_median (repeat x n) = x.
Proof.
  intros Hn. unfold np_median. rewrite sort_repeat, repeat_length.
  assert (Hmid : forall k, (k < n)%nat -> nth k (repeat x n) 0 = x).
  { intros k Hk. apply nth_repeat_lt. exact Hk. }
  assert (H2 : (n / 2 < n)%nat) by (apply Nat.div_lt; lia).
  destruct (Nat.even n).
  - rewrite !Hmid by lia. lra.
  - apply Hmid, H2.
Qed.

Lemma map_nth_seq (s : vec) :
  map (fun j => nth j s 0) (seq 0 (length s)) = s.
Proof.
  induction s as [|a s IH]; simpl; [reflexivity|].
  f_equal. rewrite <- seq_shift, map_map. exact IH.
Qed.

Lemma axis0_repeat (f : vec -> R) (s : vec) (n : nat) :
  (0 < n)%nat ->
  axis0 f (repeat s n) =
    map (fun j => f (repeat (nth j s 0) n)) (seq 0 (length s)).
Proof.
  intros Hn. unfold axis0.
  destruct n as [|n]; [lia|]. simpl hd.
  apply map_ext. intros j. rewrite column_repeat. reflexivity.
Qed.

Lemma axis0_mean_repeat (s : vec) (n : nat) :
  (0 < n)%nat -> axis0 np_mean (repeat s n) = s.
Proof.
  intros Hn. rewrite (axis0_repeat _ _ _ Hn).
  rewrite <- (map_nth_seq s) at 2. apply map_ext.
  intros j. apply np_mean_repeat, Hn.
Qed.

Lemma axis0_median_repeat (s : vec) (n : nat) :
  (0 < n)%nat -> axis0 np_median (repeat s n) = s.
Proof.
  intros Hn. rewrite (axis0_repeat _ _ _ Hn).
  rewrite <- (map_nth_seq s) at 2. apply map_ext.
  intros j. apply np_median_repeat, Hn.
Qed.

Lemma axis0_std_repeat (s : vec) (n : nat) :
  (0 < n)%nat -> axis0 np_std (repeat s n) = repeat 0 (length s).
Proof.
  intros Hn. rewrite (axis0_repeat _ _ _ Hn).
  rewrite (map_ext _ (fun _ => 0)) by (intros j; apply np_std_repeat, Hn).
  generalize 0%nat as a. induction (length s) as [|k IH]; intros a; simpl;
    [reflexivity|]. f_equal. apply IH.
Qed.

(** ** Bounds on the signals *)

Lemma Rdiv_le_1 (a b : R) : 0 < b -> a <= b -> a / b <= 1.
Proof.
  intros Hb Hab. unfold Rdiv. replace 1 with (b * / b) by (field; lra).
  apply Rmult_le_compat_r; [left; apply Rinv_0_lt_compat; lra | exact Hab].
Qed.

Lemma Rdiv_nonneg (a b : R) : 0 <= a -> 0 < b -> 0 <= a / b.
Proof.
  intros Ha Hb. unfold Rdiv.
  apply Rmult_le_pos; [exact Ha | left; apply Rinv_0_lt_compat, Hb].
Qed.

Lemma cauchy_schwarz (x y : vec) :
  dot x y * dot x y <= dot x x * dot y y.
Proof.
  revert y. induction x as [|a x IH]; intros [|b y].
  - unfold dot, np_sum; simpl; lra.
  - unfold dot, np_sum; simpl; lra.
  - pose proof (dot_self_nonneg (a :: x)).
    unfold dot, np_sum in *; simpl in *; lra.
  - pose proof (IH y) as Hxy.
    pose proof (dot_self_nonneg x) as Hx.
    pose proof (dot_self_nonneg y) as Hy.
    change (dot (a :: x) (b :: y)) with (a * b + dot x y).
    change (dot (a :: x) (a :: x)) with (a * a + dot x x).
    change (dot (b :: y) (b :: y)) with (b * b + dot y y).
    set (X := dot x y) in *. set (A := dot x x) in *. set (B := dot y y) in *.
    assert (Hmix : 2 * (a * b) * X <= a * a * B + b * b * A).
    { destruct (Rle_dec (2 * (a * b) * X) 0) as [Hn|Hp]; [nra|].
      apply Rnot_le_lt in Hp.
      apply Rnot_lt_le. intros Hlt.
      assert (Hu : 0 <= a * a * B + b * b * A).
      { pose proof (Rle_0_sqr a) as Ha. pose proof (Rle_0_sqr b) as Hb.
        unfold Rsqr in Ha, Hb.
        apply Rplus_le_le_0_compat; apply Rmult_le_pos; assumption. }
      assert (Hsq : (a * a * B + b * b * A) * (a * a * B + b * b * A)
                    < (2 * (a * b) * X) * (2 * (a * b) * X))
        by (apply Rmult_le_0_lt_compat; assumption).
      assert (H4 : (2 * (a * b) * X) * (2 * (a * b) * X)
                   <= 4 * (a * a) * (b * b) * (A * B)).
      { replace ((2 * (a * b) * X) * (2 * (a * b) * X))
          with (4 * (a * a) * (b * b) * (X * X)) by ring.
        apply Rmult_le_compat_l; [nra | exact Hxy]. }
      assert (H5 : 4 * (a * a) * (b * b) * (A * B)
                   <= (a * a * B + b * b * A) * (a * a * B + b * b * A)).
      { pose proof (Rle_0_sqr (a * a * B - b * b * A)) as Hs.
        unfold Rsqr in Hs. nra. }
      lra. }
    nra.
Qed.

Lemma dot_le_norms (x y : vec) : dot x y <= l2_norm x * l2_norm y.
Proof.
  pose proof (cauchy_schwarz x y) as Hcs.
  rewrite <- (l2_norm_sqr x), <- (l2_norm_sqr y) in Hcs.
  assert (Hx : 0 <= l2_norm x) by apply sqrt_pos.
  assert (Hy : 0 <= l2_norm y) by apply sqrt_pos.
  destruct (Rle_dec (dot x y) (l2_norm x * l2_norm y)) as [H|H];
    [exact H|].
  apply Rnot_le_lt in H.
  assert (Hp : 0 <= l2_norm x * l2_norm y) by (apply Rmult_le_pos; assumption).
  pose proof (Rmult_le_0_lt_compat _ _ _ _ Hp Hp H H) as Hsq.
  replace (l2_norm x * l2_norm y * (l2_norm x * l2_norm y))
    with (l2_norm x * l2_norm x * (l2_norm y * l2_norm y)) in Hsq by ring.
  lra.
Qed.

Lemma cosine_le_1 (x y : vec) : norm_floor <= l2_norm x -> cosine x y <= 1.
Proof.
  intros Hx. pose proof norm_floor_pos as Hf. pose proof norm_floor_lt_1 as H1.
  unfold cosine. rewrite (normalize_regular x Hx). unfold normalize.
  set (ny := if Rlt_dec (l2_norm y) norm_floor then 1 else l2_norm y).
  assert (Hny : 0 < ny /\ l2_norm y <= ny).
  { unfold ny. destruct (Rlt_dec (l2_norm y) norm_floor); lra. }
  rewrite dot_scaled by lra.
  pose proof (dot_le_norms x y) as Hd.
  apply Rdiv_le_1; [apply Rmult_lt_0_compat; lra|].
  etransitivity; [exact Hd|].
  apply Rmult_le_compat_l; [apply sqrt_pos | apply Hny].
Qed.

Lemma list_max_attained (x b : R) (l : list R) :
  x <= b -> In b l -> Forall (fun c => c <= b) l -> list_max x l = b.
Proof.
  intros Hx Hin Hall. apply Rle_antisym; [apply list_max_le; assumption|].
  clear Hx Hall. revert x.
  induction l as [|c l IH]; intros x; [destruct Hin|].
  simpl. destruct Hin as [->|Hin].
  - etransitivity; [apply list_max_ge | apply Rmax_r].
  - etransitivity; [apply (IH Hin c) | apply Rmax_r].
Qed.

Lemma best_sample_signal_self (probe : vec) (raw : list vec) :
  norm_floor <= l2_norm probe -> In probe raw ->
  best_sample_signal probe raw = 1.
Proof.
  intros Hn Hin. unfold best_sample_signal.
  apply list_max_attained; [lra | |].
  - rewrite <- (cosine_self probe Hn). apply in_map, Hin.
  - apply List.Forall_map, List.Forall_forall. intros y _.
    apply cosine_le_1, Hn.
Qed.

Lemma np_sum_nonneg (v : vec) : Forall (fun a => 0 <= a) v -> 0 <= np_sum v.
Proof.
  unfold np_sum. induction 1 as [|a v Ha Hv IH]; simpl; lra.
Qed.

Lemma np_mean_nonneg (v : vec) : Forall (fun a => 0 <= a) v -> 0 <= np_mean v.
Proof.
  intros H. unfold np_mean, Rdiv.
  apply Rmult_le_pos; [apply np_sum_nonneg, H|].
  destruct v as [|a v]; [simpl; rewrite Rinv_0; lra|].
  left. apply Rinv_0_lt_compat, lt_0_INR. simpl. lia.
Qed.

(** With non-negative deviations [std], signal 4 lies in (0, 1]. *)
Lemma stat_similarity_bounds (probe mean std : vec) :
  (forall j, 0 <= nth j std 0) ->
  0 < stat_similarity probe mean std <= 1.
Proof.
  intros Hstd. unfold stat_similarity.
  set (m := np_mean _).
  assert (Hm : 0 <= m).
  { apply np_mean_nonneg, List.Forall_map, List.Forall_forall. intros j _.
    apply Rdiv_nonneg; [apply Rabs_pos|]. specialize (Hstd j). lra. }
  split.
  - apply Rdiv_lt_0_compat; lra.
  - apply Rdiv_le_1; lra.
Qed.

Lemma stat_similarity_self (probe std : vec) :
  stat_similarity probe probe std = 1.
Proof.
  unfold stat_similarity.
  rewrite (map_ext _ (fun _ => 0)).
  - replace (np_mean _) with 0; [field|].
    unfold np_mean. rewrite length_map.
    replace (np_sum _) with 0; [unfold Rdiv; ring|].
    unfold np_sum. generalize 0%nat as a.
    induction (length probe) as [|k IH]; intros a; simpl; [reflexivity|].
    rewrite <- IH. lra.
  - intros j. rewrite Rminus_diag, Rabs_R0. unfold Rdiv. ring.
Qed.

Lemma nth_nonneg (l : vec) (j : nat) :
  Forall (fun a => 0 <= a) l -> 0 <= nth j l 0.
Proof.
  intros H. revert j.
  induction H as [|a l Ha Hl IH]; intros j; destruct j; simpl;
    try lra; auto.
Qed.

Lemma axis0_std_nonneg (rows : list vec) (j : nat) :
  0 <= nth j (axis0 np_std rows) 0.
Proof.
  apply nth_nonneg. unfold axis0. apply List.Forall_map, List.Forall_forall.
  intros k _. apply sqrt_pos.
Qed.

(** ** Concrete vectors *)

Lemma l2_norm_of_square (x : vec) (n : R) :
  0 <= n -> dot x x = n * n -> l2_norm x = n.
Proof.
  intros Hn Hd. unfold l2_norm. rewrite Hd. apply sqrt_square, Hn.
Qed.

Lemma cosine_of_norms (x y : vec) (nx ny : R) :
  norm_floor <= nx -> norm_floor <= ny ->
  dot x x = nx * nx -> dot y y = ny * ny ->
  cosine x y = dot x y / (nx * ny).
Proof.
  intros Hx Hy Dx Dy. pose proof norm_floor_pos.
  assert (Nx : l2_norm x = nx) by (apply l2_norm_of_square; lra).
  assert (Ny : l2_norm y = ny) by (apply l2_norm_of_square; lra).
  rewrite cosine_regular by lra. rewrite Nx, Ny. reflexivity.
Qed.

Ltac dot_simpl := unfold dot, np_sum; simpl; try lra.

Lemma l2_norm_100 : l2_norm [1; 0; 0] = 1.
Proof. apply l2_norm_of_square; [lra | dot_simpl]. Qed.

Lemma cosine_opposite_100 : cosine [-1; 0; 0] [1; 0; 0] = -1.
Proof.
  pose proof norm_floor_lt_1.
  rewrite (cosine_of_norms _ _ 1 1); try lra; dot_simpl.
Qed.









(** ** The ensemble scorer *)

Lemma authenticate_shaped (fs : Ensemble.state) (u : user_id)
    (vp : Ensemble.voiceprint) (probe : vec) :
  voiceprint_files fs !! u = Some vp -> well_shaped vp probe ->
  let s := fused_score
             (cosine probe (Ensemble.mean_features vp))
             (cosine probe (Ensemble.median_features vp))
             (best_sample_signal probe (Ensemble.raw_samples vp))
             (stat_similarity probe (Ensemble.mean_features vp)
                (Ensemble.std_features vp)) in
  Ensemble.authenticate_voice fs u probe = (Rgeb s Ensemble.threshold, s).
Proof.
  intros Hvp Hws. unfold Ensemble.authenticate_voice.
  rewrite Hvp, (score_shaped vp probe Hws). reflexivity.
Qed.

Lemma Rgeb_true (x y : R) : Rgeb x y = true <-> y <= x.
Proof.
  unfold Rgeb. destruct (Rle_dec y x); split; intros; try easy.
Qed.

Lemma Rgeb_false (x y : R) : Rgeb x y = false <-> x < y.
Proof.
  unfold Rgeb. destruct (Rle_dec y x); split; intros; try easy; lra.
Qed.

(** The voiceprint stored by [enrol3]. *)
Lemma enrol3_voiceprint (fs : Ensemble.state) (u : user_id) (x1 x2 x3 : vec) :
  sample_dirs fs !! u = None ->
  length x2 = length x1 -> length x3 = length x1 ->
  let rows := [x1; x2; x3] in
  snd (enrol3 fs u x1 x2 x3) = true /\
  voiceprint_files (fst (enrol3 fs u x1 x2 x3)) !! u =
    Some (Ensemble.Voiceprint (axis0 np_mean rows) (axis0 np_std rows)
            (axis0 np_median rows) 3 0 rows).
Proof.
  intros Hnone H2 H3 rows.
  rewrite (enrol3_result fs u x1 x2 x3 Hnone H2 H3). simpl.
  split; [reflexivity | apply lookup_insert_eq].
Qed.

Lemma enrol3_well_shaped (x1 x2 x3 probe : vec) :
  (0 < length probe)%nat ->
  length x1 = length probe -> length x2 = length probe ->
  length x3 = length probe ->
  let rows := [x1; x2; x3] in
  well_shaped (Ensemble.Voiceprint (axis0 np_mean rows) (axis0 np_std rows)
                 (axis0 np_median rows) 3 0 rows) probe.
Proof.
  intros Hpos H1 H2 H3 rows. unfold well_shaped. simpl.
  rewrite !axis0_length. simpl. repeat split; try assumption.
  repeat constructor; assumption.
Qed.

(** C3 (amended). For a stored voiceprint whose vectors have the dimension
    of the probe, the returned confidence is the weighted average, with
    weights 0.3, 0.2, 0.3 and 0.2, of: the cosine similarity to the mean
    vector, the cosine similarity to the median vector, the maximum of 0.0
    and the per-raw-sample cosine similarities, and the statistical-distance
    similarity; [is_match] holds exactly when it is at least 0.75. *)
Theorem ensemble_score_formula :
  forall (fs : Ensemble.state) (u : user_id) (vp : Ensemble.voiceprint)
         (probe : vec),
    voiceprint_files fs !! u = Some vp ->
    well_shaped vp probe ->
    let s := fused_score
               (cosine probe (Ensemble.mean_features vp))
               (cosine probe (Ensemble.median_features vp))
               (best_sample_signal probe (Ensemble.raw_samples vp))
               (stat_similarity probe (Ensemble.mean_features vp)
                  (Ensemble.std_features vp)) in
    snd (Ensemble.authenticate_voice fs u probe) = s /\
    (fst (Ensemble.authenticate_voice fs u probe) = true <-> 0.75 <= s).
Proof.
  intros fs u vp probe Hvp Hws s.
  rewrite (authenticate_shaped fs u vp probe Hvp Hws). fold s. simpl.
  split; [reflexivity | apply Rgeb_true].
Qed.

Lemma ensemble_score_formula_witness :
  let fs := fst (enrol3 (Disk ∅ ∅) 7%Z [1; 0; 0] [1; 0; 0] [1; 0; 0]) in
  let rows : list vec := [[1; 0; 0]; [1; 0; 0]; [1; 0; 0]] in
  let vp := Ensemble.Voiceprint (axis0 np_mean rows) (axis0 np_std rows)
              (axis0 np_median rows) 3 0 rows in
  let probe : vec := [-1; 0; 0] in
  let s := fused_score
             (cosine probe (Ensemble.mean_features vp))
             (cosine probe (Ensemble.median_features vp))
             (best_sample_signal probe (Ensemble.raw_samples vp))
             (stat_similarity probe (Ensemble.mean_features vp)
                (Ensemble.std_features vp)) in
  snd (Ensemble.authenticate_voice fs 7%Z probe) = s /\
  (fst (Ensemble.authenticate_voice fs 7%Z probe) = true <-> 0.75 <= s).
Proof.
  intros fs rows vp probe.
  apply (ensemble_score_formula fs 7%Z vp probe).
  - apply (enrol3_voiceprint (Disk ∅ ∅) 7%Z); reflexivity.
  - apply enrol3_well_shaped; simpl; solve [lia | reflexivity].
Defined.

(** C3 as stated fails: with the largest per-raw-sample cosine similarity
    itself as third signal, the weighted average is not the returned
    confidence for the probe [-1,0,0] against three samples [1,0,0]. *)
Lemma ensemble_score_not_best_raw_cosine :
  let fs := fst (enrol3 (Disk ∅ ∅) 7%Z [1; 0; 0] [1; 0; 0] [1; 0; 0]) in
  let probe : vec := [-1; 0; 0] in
  exists vp : Ensemble.voiceprint,
    voiceprint_files fs !! 7%Z = Some vp /\
    well_shaped vp probe /\
    snd (Ensemble.authenticate_voice fs 7%Z probe) <>
      fused_score
        (cosine probe (Ensemble.mean_features vp))
        (cosine probe (Ensemble.median_features vp))
        (best_raw_cosine probe (Ensemble.raw_samples vp))
        (stat_similarity probe (Ensemble.mean_features vp)
           (Ensemble.std_features vp)).
Proof.
  intros fs probe.
  set (rows := [[1; 0; 0]; [1; 0; 0]; [1; 0; 0]] : list vec).
  set (vp := Ensemble.Voiceprint (axis0 np_mean rows) (axis0 np_std rows)
               (axis0 np_median rows) 3 0 rows).
  assert (Hvp : voiceprint_files fs !! 7%Z = Some vp)
    by (apply (enrol3_voiceprint (Disk ∅ ∅) 7%Z); reflexivity).
  assert (Hws : well_shaped vp probe)
    by (apply enrol3_well_shaped; simpl; solve [lia | reflexivity]).
  exists vp. repeat split; try assumption; try apply Hws.
  rewrite (authenticate_shaped fs 7%Z vp probe Hvp Hws). simpl snd.
  unfold fused_score, best_sample_signal, best_raw_cosine.
  unfold vp, rows, probe.
  cbn [Ensemble.raw_samples Ensemble.mean_features Ensemble.median_features
       Ensemble.std_features map list_max].
  rewrite cosine_opposite_100.
  rewrite (Rmax_left (-1) (-1)) by lra.
  rewrite (Rmax_left (-1) (-1)) by lra.
  rewrite (Rmax_left 0 (-1)) by lra.
  lra.
Qed.

(** C10. The best-single-sample signal of the ensemble scorer is the maximum
    of 0.0 and the per-raw-sample cosine similarities: it is never negative,
    it enters the fused score with weight 0.3, and when the probe has
    negative cosine similarity to every enrolled raw sample it is 0.0. *)
Theorem best_sample_score_nonneg :
  forall (fs : Ensemble.state) (u : user_id) (vp : Ensemble.voiceprint)
         (probe : vec),
    voiceprint_files fs !! u = Some vp ->
    well_shaped vp probe ->
    (forall (raw : list vec) (b : R),
        Ensemble.best_sample_loop probe raw 0 = Some b -> 0 <= b) /\
    exists best : R,
      Ensemble.best_sample_loop probe (Ensemble.raw_samples vp) 0 = Some best /\
      best = best_sample_signal probe (Ensemble.raw_samples vp) /\
      0 <= best /\
      snd (Ensemble.authenticate_voice fs u probe) =
        fused_score (cosine probe (Ensemble.mean_features vp))
                    (cosine probe (Ensemble.median_features vp))
                    best
                    (stat_similarity probe (Ensemble.mean_features vp)
                       (Ensemble.std_features vp)) /\
      (Forall (fun s => cosine probe s < 0) (Ensemble.raw_samples vp) ->
       best = 0).
Proof.
  intros fs u vp probe Hvp Hws.
  split; [intros raw b; apply best_sample_loop_ge|].
  exists (best_sample_signal probe (Ensemble.raw_samples vp)).
  pose proof Hws as (Hpos & _ & _ & _ & Hraw).
  repeat split.
  - apply best_sample_loop_shaped; assumption.
  - apply list_max_ge.
  - rewrite (authenticate_shaped fs u vp probe Hvp Hws). reflexivity.
  - intros Hneg. apply list_max_floor, List.Forall_map.
    eapply List.Forall_impl; [|exact Hneg]. simpl. intros; lra.
Qed.

Lemma best_sample_score_nonneg_witness :
  let fs := fst (enrol3 (Disk ∅ ∅) 7%Z [1; 0; 0] [1; 0; 0] [1; 0; 0]) in
  let rows : list vec := [[1; 0; 0]; [1; 0; 0]; [1; 0; 0]] in
  let vp := Ensemble.Voiceprint (axis0 np_mean rows) (axis0 np_std rows)
              (axis0 np_median rows) 3 0 rows in
  let probe : vec := [-1; 0; 0] in
  (forall (raw : list vec) (b : R),
      Ensemble.best_sample_loop probe raw 0 = Some b -> 0 <= b) /\
  exists best : R,
    Ensemble.best_sample_loop probe (Ensemble.raw_samples vp) 0 = Some best /\
    best = best_sample_signal probe (Ensemble.raw_samples vp) /\
    0 <= best /\
    snd (Ensemble.authenticate_voice fs 7%Z probe) =
      fused_score (cosine probe (Ensemble.mean_features vp))
                  (cosine probe (Ensemble.median_features vp))
                  best
                  (stat_similarity probe (Ensemble.mean_features vp)
                     (Ensemble.std_features vp)) /\
    (Forall (fun s => cosine probe s < 0) (Ensemble.raw_samples vp) ->
     best = 0).
Proof.
  intros fs rows vp probe.
  apply (best_sample_score_nonneg fs 7%Z vp probe).
  - apply (enrol3_voiceprint (Disk ∅ ∅) 7%Z); reflexivity.
  - apply enrol3_well_shaped; simpl; solve [lia | reflexivity].
Defined.

(** ** Enrolment from identical samples *)

Lemma map_const_repeat {A : Type} (f : A -> vec) (s : vec) (l : list A) :
  Forall (fun x => f x = s) l -> map f l = repeat s (length l).
Proof.
  induction 1 as [|x l Hx Hl IH]; simpl; [reflexivity|]. congruence.
Qed.

Lemma regular_nonempty (s : vec) : norm_floor <= l2_norm s -> (0 < length s)%nat.
Proof.
  intros H. destruct s; [|simpl; lia].
  pose proof norm_floor_pos. unfold l2_norm, dot, np_sum in H. simpl in H.
  rewrite sqrt_0 in H. lra.
Qed.

Lemma identical_voiceprint_match (fs : Ensemble.state) (u : user_id) (s : vec)
    (n cnt : nat) (now : Z) :
  (0 < n)%nat -> norm_floor <= l2_norm s ->
  voiceprint_files fs !! u =
    Some (Ensemble.Voiceprint (axis0 np_mean (repeat s n))
            (axis0 np_std (repeat s n)) (axis0 np_median (repeat s n))
            cnt now (repeat s n)) ->
  Ensemble.authenticate_voice fs u s = (true, 1).
Proof.
  intros Hn Hs Hvp.
  rewrite (axis0_mean_repeat s n Hn), (axis0_median_repeat s n Hn),
    (axis0_std_repeat s n Hn) in Hvp.
  pose proof (regular_nonempty s Hs) as Hpos.
  erewrite authenticate_shaped; [|exact Hvp|].
  - cbn [Ensemble.mean_features Ensemble.median_features
         Ensemble.std_features Ensemble.raw_samples].
    rewrite (cosine_self s Hs), stat_similarity_self.
    rewrite best_sample_signal_self;
      [|exact Hs | destruct n; [lia | left; reflexivity]].
    replace (fused_score 1 1 1 1) with 1 by (unfold fused_score; lra).
    f_equal. apply Rgeb_true. unfold Ensemble.threshold. lra.
  - unfold well_shaped. simpl. rewrite repeat_length.
    repeat split; try assumption; try reflexivity.
    apply List.Forall_forall. intros y Hy. apply repeat_spec in Hy.
    subst y. reflexivity.
Qed.





(** C5. Staging three samples [1,0,0] for a user without staged samples and
    creating the voiceprint succeeds; authenticating with [1,0,0] gives
    cosine similarity 1 to the stored mean vector, confidence 1 and
    [is_match = True]; authenticating with [-1,0,0] gives cosine similarity
    -1 and [is_match = False]. *)
Theorem end_to_end_unit_vector :
  forall (fs : Ensemble.state) (u : user_id),
    sample_dirs fs !! u = None ->
    let e : vec := [1; 0; 0] in
    let r := enrol3 fs u e e e in
    get_sample_count (stage3 fs u e e e) u = 3%nat /\
    snd r = true /\
    (exists vp : Ensemble.voiceprint,
        voiceprint_files (fst r) !! u = Some vp /\
        cosine e (Ensemble.mean_features vp) = 1 /\
        cosine [-1; 0; 0] (Ensemble.mean_features vp) = -1) /\
    Ensemble.authenticate_voice (fst r) u e = (true, 1) /\
    fst (Ensemble.authenticate_voice (fst r) u [-1; 0; 0]) = false.
Proof.
  intros fs u Hnone e r.
  set (rows := [e; e; e]).
  set (vp := Ensemble.Voiceprint (axis0 np_mean rows) (axis0 np_std rows)
               (axis0 np_median rows) 3 0 rows).
  destruct (enrol3_voiceprint fs u e e e Hnone) as [Hok Hvp];
    try reflexivity.
  fold rows vp r in Hok, Hvp.
  assert (He : norm_floor <= l2_norm e)
    by (unfold e; rewrite l2_norm_100; pose proof norm_floor_lt_1; lra).
  assert (Hmean : axis0 np_mean rows = e)
    by (apply (axis0_mean_repeat e 3); lia).
  assert (Hmedian : axis0 np_median rows = e)
    by (apply (axis0_median_repeat e 3); lia).
  repeat split.
  - unfold get_sample_count. rewrite (stage3_dir fs u e e e Hnone).
    reflexivity.
  - exact Hok.
  - exists vp. split; [exact Hvp|]. unfold vp.
    cbn [Ensemble.mean_features]. rewrite Hmean.
    split; [apply cosine_self, He | apply cosine_opposite_100].
  - apply (identical_voiceprint_match (fst r) u e 3 3 0); [lia | exact He|].
    exact Hvp.
  - assert (Hws : well_shaped vp [-1; 0; 0])
      by (apply enrol3_well_shaped; simpl; solve [lia | reflexivity]).
    rewrite (authenticate_shaped (fst r) u vp _ Hvp Hws). simpl fst.
    apply Rgeb_false. unfold vp.
    cbn [Ensemble.raw_samples Ensemble.mean_features Ensemble.median_features
         Ensemble.std_features].
    rewrite Hmean, Hmedian. unfold e at 1 2. rewrite cosine_opposite_100.
    pose proof (stat_similarity_bounds [-1; 0; 0] e (axis0 np_std rows)
                  (axis0_std_nonneg _)) as Hst.
    assert (Hbest : best_sample_signal [-1; 0; 0] rows = 0).
    { apply list_max_floor. unfold rows, e. cbn [map].
      rewrite cosine_opposite_100. repeat constructor; lra. }
    rewrite Hbest. unfold fused_score, Ensemble.threshold. lra.
Qed.

Lemma end_to_end_unit_vector_witness :
  let fs : Ensemble.state := Disk ∅ ∅ in
  let e : vec := [1; 0; 0] in
  let r := enrol3 fs 7%Z e e e in
  get_sample_count (stage3 fs 7%Z e e e) 7%Z = 3%nat /\
  snd r = true /\
  (exists vp : Ensemble.voiceprint,
      voiceprint_files (fst r) !! 7%Z = Some vp /\
      cosine e (Ensemble.mean_features vp) = 1 /\
      cosine [-1; 0; 0] (Ensemble.mean_features vp) = -1) /\
  Ensemble.authenticate_voice (fst r) 7%Z e = (true, 1) /\
  fst (Ensemble.authenticate_voice (fst r) 7%Z [-1; 0; 0]) = false.
Proof.
  intros fs. apply (end_to_end_unit_vector fs 7%Z). reflexivity.
Defined.

(** ** The alignment scorer *)

Lemma xsum_finite (ds : list R) : xsum (map Fin ds) = Fin (np_sum ds).
Proof.
  unfold xsum, np_sum. induction ds as [|d ds IH]; simpl; [reflexivity|].
  rewrite IH. reflexivity.
Qed.

Lemma xmean_finite (ds : list R) :
  ds <> [] -> xmean (map Fin ds) = Fin (np_mean ds).
Proof.
  intros Hne. destruct ds as [|d ds]; [contradiction|].
  unfold xmean. cbn [map]. change (Fin d :: map Fin ds) with (map Fin (d :: ds)).
  rewrite xsum_finite, length_map. reflexivity.
Qed.

Lemma exp_le_iff (a b : R) : exp a <= exp b <-> a <= b.
Proof.
  split.
  - intros H. destruct (Rle_dec a b) as [Hab|Hab]; [exact Hab|].
    apply Rnot_le_lt in Hab. apply exp_increasing in Hab. lra.
  - intros [H| ->]; [left; apply exp_increasing, H | right; reflexivity].
Qed.

Lemma threshold_as_exp : Alignment.threshold = exp (- ln 10).
Proof.
  unfold Alignment.threshold. rewrite exp_Ropp, exp_ln by lra. lra.
Qed.

Lemma pow2_exp (n : nat) : 2 ^ n = exp (INR n * ln 2).
Proof.
  induction n as [|n IH].
  - simpl. rewrite Rmult_0_l, exp_0. reflexivity.
  - rewrite S_INR, Rmult_plus_distr_r, Rmult_1_l, exp_plus, <- IH.
    rewrite exp_ln by lra. simpl. ring.
Qed.

Lemma ln_2_lt_1 : ln 2 < 1.
Proof.
  rewrite <- (ln_exp 1). apply ln_increasing; [lra|].
  pose proof (exp_ineq1 1 ltac:(lra)). lra.
Qed.

Lemma exp_underflow_eq : exp_underflow = exp (- (1075 * ln 2)).
Proof.
  unfold exp_underflow. rewrite pow2_exp, <- exp_Ropp.
  replace (INR 1075) with 1075; [reflexivity|].
  rewrite INR_IZR_INZ. f_equal.
Qed.

Lemma exp_underflow_pos : 0 < exp_underflow.
Proof. rewrite exp_underflow_eq. apply exp_pos. Qed.

Lemma exp_underflow_lt_threshold : exp_underflow < Alignment.threshold.
Proof.
  apply Rle_lt_trans with (/ 2 ^ 4).
  - unfold exp_underflow. apply Rinv_le_contravar; [apply pow_lt; lra|].
    apply Rle_pow; [lra | lia].
  - unfold Alignment.threshold. simpl. lra.
Qed.

Lemma exp_overflow_gt_1 : 1 < exp_overflow.
Proof. unfold exp_overflow. apply Rlt_pow_R1; [lra | lia]. Qed.

(** The comparison with the threshold does not see the underflow or the
    overflow of [np.exp]. *)
Lemma xgeb_np_exp (x : R) :
  xgeb (np_exp x) Alignment.threshold = Rgeb (exp x) Alignment.threshold.
Proof.
  pose proof exp_underflow_lt_threshold as Hu.
  pose proof exp_overflow_gt_1 as Ho.
  unfold np_exp.
  destruct (Rle_dec (exp x) exp_underflow) as [H|H].
  - simpl. unfold Rgeb.
    destruct (Rle_dec Alignment.threshold 0) as [H0|H0];
      [unfold Alignment.threshold in H0; lra|].
    destruct (Rle_dec Alignment.threshold (exp x)); [lra | reflexivity].
  - destruct (Rle_dec exp_overflow (exp x)) as [H'|H']; [|reflexivity].
    simpl. symmetry. apply Rgeb_true. unfold Alignment.threshold in *. lra.
Qed.

Lemma similarity_of_finite (ds : list R) :
  ds <> [] ->
  Alignment.similarity_of (map Fin ds) =
    np_exp (- np_mean ds / Alignment.alpha).
Proof.
  intros Hne. unfold Alignment.similarity_of. rewrite (xmean_finite ds Hne).
  reflexivity.
Qed.

Lemma decay_bounds (d : R) : 0 <= d -> 0 < decay d <= 1.
Proof.
  intros Hd. unfold decay, Alignment.alpha. split; [apply exp_pos|].
  rewrite <- exp_0.
  destruct (Req_dec d 0) as [->|Hne].
  - right. f_equal. lra.
  - left. apply exp_increasing. lra.
Qed.

Lemma decay_decreasing (d1 d2 : R) : d1 < d2 -> decay d2 < decay d1.
Proof.
  intros H. unfold decay, Alignment.alpha. apply exp_increasing. lra.
Qed.

Lemma decay_antitone (d1 d2 : R) : d1 <= d2 -> decay d2 <= decay d1.
Proof.
  intros [H| ->]; [left; apply decay_decreasing, H | right; reflexivity].
Qed.

(** The decay underflows exactly from the mean distance [40 * 1075 * ln 2]
    on, which lies between 21500 and 43000. *)
Lemma decay_underflow_iff (d : R) :
  decay d <= exp_underflow <-> Alignment.alpha * (1075 * ln 2) <= d.
Proof.
  unfold decay. rewrite exp_underflow_eq, exp_le_iff.
  unfold Alignment.alpha. split; intros H; lra.
Qed.

Lemma np_exp_decay (d : R) :
  0 <= d -> np_exp (- d / Alignment.alpha) = Fin (reported_decay d).
Proof.
  intros Hd. pose proof (decay_bounds d Hd) as [_ H1].
  pose proof exp_overflow_gt_1 as Ho.
  unfold np_exp, reported_decay. fold (decay d).
  destruct (Rle_dec (decay d) exp_underflow); [reflexivity|].
  destruct (Rle_dec exp_overflow (decay d)); [lra | reflexivity].
Qed.

Lemma reported_decay_bounds (d : R) : 0 <= d -> 0 <= reported_decay d <= 1.
Proof.
  intros Hd. pose proof (decay_bounds d Hd) as [H0 H1].
  unfold reported_decay. destruct (Rle_dec (decay d) exp_underflow); lra.
Qed.

Lemma reported_decay_antitone (d1 d2 : R) :
  d1 <= d2 -> reported_decay d2 <= reported_decay d1.
Proof.
  intros H. pose proof (decay_antitone d1 d2 H) as Hd.
  pose proof exp_underflow_pos as Hu.
  unfold reported_decay.
  destruct (Rle_dec (decay d2) exp_underflow),
           (Rle_dec (decay d1) exp_underflow); lra.
Qed.

Lemma reported_decay_small (d : R) :
  0 <= d <= 21500 -> reported_decay d = decay d /\ 0 < reported_decay d.
Proof.
  intros [Hd Hle]. pose proof (decay_bounds d Hd) as [H0 _].
  pose proof ln_lt_2 as Hln.
  unfold reported_decay.
  destruct (Rle_dec (decay d) exp_underflow) as [H|H]; [|split; lra].
  apply decay_underflow_iff in H. unfold Alignment.alpha in H. lra.
Qed.

Lemma reported_decay_large (d : R) : 43000 <= d -> reported_decay d = 0.
Proof.
  intros Hd. pose proof ln_2_lt_1 as Hln.
  unfold reported_decay.
  destruct (Rle_dec (decay d) exp_underflow) as [H|H]; [reflexivity|].
  exfalso. apply H, decay_underflow_iff. unfold Alignment.alpha. lra.
Qed.

Lemma np_sum_le (ds ds' : list R) :
  Forall2 Rle ds ds' -> np_sum ds <= np_sum ds'.
Proof.
  unfold np_sum. induction 1 as [|d d' ds ds' Hd Hds IH]; simpl; lra.
Qed.

Lemma np_mean_le (ds ds' : list R) :
  Forall2 Rle ds ds' -> np_mean ds <= np_mean ds'.
Proof.
  intros H. unfold np_mean. rewrite <- (Forall2_length _ _ _ H).
  destruct ds as [|d ds].
  - inversion H; subst. lra.
  - unfold Rdiv. apply Rmult_le_compat_r; [|apply np_sum_le, H].
    left. apply Rinv_0_lt_compat, lt_0_INR. simpl. lia.
Qed.

Lemma map_Fin_nonempty (A : Type) (f : A -> xfloat) (l : list A) (ds : list R) :
  l <> [] -> map f l = map Fin ds -> ds <> [].
Proof.
  intros Hne Hmap ->. destruct l; [contradiction | discriminate].
Qed.

(** The result of [authenticate_voice] when every distance is a finite
    non-negative number. *)
Lemma alignment_authenticate_finite
    (dtw : list (list R) -> list (list R) -> option (list (list xfloat)))
    (fs : Alignment.state) (u : user_id) (enrolled : list (list (list R)))
    (test : list (list R)) (ds : list R) :
  voiceprint_files fs !! u = Some enrolled ->
  enrolled <> [] ->
  map (Alignment.dtw_distance dtw test) enrolled = map Fin ds ->
  Forall (fun d => 0 <= d) ds ->
  Alignment.authenticate_voice dtw fs u test =
    (Rgeb (reported_decay (np_mean ds)) Alignment.threshold,
     Fin (reported_decay (np_mean ds))).
Proof.
  intros Hvp Hne Hds Hpos. unfold Alignment.authenticate_voice.
  rewrite Hvp, Hds.
  rewrite (similarity_of_finite ds (map_Fin_nonempty _ _ _ _ Hne Hds)).
  rewrite (np_exp_decay _ (np_mean_nonneg ds Hpos)). reflexivity.
Qed.

(** C6 (amended). In the alignment design the reported similarity is
    [exp(-avg_distance / 40)] of the mean of the per-sample DTW distances,
    computed by [np.exp] in binary64.  For non-negative distances it lies in
    [0, 1] and it never grows when the distances grow.  Up to a mean
    distance of 21500 it is the exponential and positive; from a mean
    distance of 43000 on [np.exp] has underflowed and it is exactly 0.0 (the
    underflow sets in at [40 * 1075 * ln 2], about 29806).  Rounding of the
    exponential is not modelled. *)
Theorem alignment_similarity_decay :
  forall (dtw : list (list R) -> list (list R) -> option (list (list xfloat)))
         (fs : Alignment.state) (u : user_id)
         (enrolled : list (list (list R))) (test : list (list R))
         (ds : list R),
    voiceprint_files fs !! u = Some enrolled ->
    enrolled <> [] ->
    map (Alignment.dtw_distance dtw test) enrolled = map Fin ds ->
    Forall (fun d => 0 <= d) ds ->
    let s := reported_decay (np_mean ds) in
    Alignment.alpha = 40 /\
    Alignment.authenticate_voice dtw fs u test =
      (Rgeb s Alignment.threshold, Fin s) /\
    0 <= s <= 1 /\
    (np_mean ds <= 21500 -> s = exp (- np_mean ds / 40) /\ 0 < s) /\
    (43000 <= np_mean ds -> s = 0) /\
    (forall (test' : list (list R)) (ds' : list R),
        map (Alignment.dtw_distance dtw test') enrolled = map Fin ds' ->
        Forall2 Rle ds ds' ->
        snd (Alignment.authenticate_voice dtw fs u test') =
          Fin (reported_decay (np_mean ds')) /\
        reported_decay (np_mean ds') <= s).
Proof.
  intros dtw fs u enrolled test ds Hvp Hne Hds Hpos s. unfold s. clear s.
  pose proof (np_mean_nonneg ds Hpos) as Hmean.
  split; [reflexivity|].
  split; [apply (alignment_authenticate_finite dtw fs u enrolled test ds);
          assumption|].
  split; [apply reported_decay_bounds, Hmean|].
  split; [intros Hle; apply (reported_decay_small (np_mean ds)); lra|].
  split; [apply reported_decay_large|].
  intros test' ds' Hds' Hle.
  assert (Hpos' : Forall (fun d => 0 <= d) ds').
  { clear Hds Hds' Hmean. induction Hle as [|d d' l l' Hd Hl IH];
      [constructor|].
    inversion Hpos; subst. constructor; [lra | apply IH; assumption]. }
  rewrite (alignment_authenticate_finite dtw fs u enrolled test' ds'
             Hvp Hne Hds' Hpos').
  split; [reflexivity | apply reported_decay_antitone, np_mean_le, Hle].
Qed.

Lemma np_mean_3 (d : R) : np_mean [d; d; d] = d.
Proof. unfold np_mean, np_sum. simpl. field. Qed.

Lemma dtw_single_distance (x y : R) :
  Alignment.dtw_distance dtw_single [[x]] [[y]] = Fin (Rabs (x - y)).
Proof. reflexivity. Qed.

Lemma alignment_similarity_decay_witness :
  let m : list (list R) := [[1]] in
  let e : list (list R) := [[3]] in
  let fs : Alignment.state := Disk ∅ {[ 7%Z := [e; e; e] ]} in
  let s := reported_decay (np_mean [2; 2; 2]) in
  Alignment.authenticate_voice dtw_single fs 7%Z m =
    (Rgeb s Alignment.threshold, Fin s) /\
  0 <= s <= 1 /\
  s = exp (- np_mean [2; 2; 2] / 40) /\ 0 < s.
Proof.
  intros m e fs s.
  assert (H2 : Rabs (1 - 3) = 2)
    by (unfold Rabs; destruct (Rcase_abs (1 - 3)); lra).
  destruct (alignment_similarity_decay dtw_single fs 7%Z [e; e; e] m
              [2; 2; 2])
    as (_ & Hauth & Hbounds & Hsmall & _).
  - reflexivity.
  - discriminate.
  - unfold m, e. cbn [map]. rewrite !dtw_single_distance, H2. reflexivity.
  - repeat constructor; lra.
  - split; [exact Hauth|]. split; [exact Hbounds|].
    apply Hsmall. rewrite np_mean_3. lra.
Defined.

Lemma Rgeb_0_threshold : Rgeb 0 Alignment.threshold = false.
Proof. apply Rgeb_false. unfold Alignment.threshold. lra. Qed.

(** C6 as stated fails for large distances: against enrolled samples at
    the DTW distances [10^6] and [2 * 10^6] from the probe, both finite and
    non-negative, the reported similarity is 0.0 — not in (0, 1], and not
    smaller at the larger distance. *)
Lemma alignment_similarity_underflows :
  let m : list (list R) := [[0]] in
  let e1 : list (list R) := [[1000000]] in
  let e2 : list (list R) := [[2000000]] in
  let fs : Alignment.state :=
    Disk ∅ {[ 7%Z := [e1; e1; e1] ]} in
  let fs' : Alignment.state :=
    Disk ∅ {[ 7%Z := [e2; e2; e2] ]} in
  Alignment.dtw_distance dtw_single m e1 = Fin 1000000 /\
  Alignment.dtw_distance dtw_single m e2 = Fin 2000000 /\
  Alignment.authenticate_voice dtw_single fs 7%Z m = (false, Fin 0) /\
  Alignment.authenticate_voice dtw_single fs' 7%Z m = (false, Fin 0).
Proof.
  intros m e1 e2 fs fs'.
  assert (Hd : forall d : R, 0 <= d ->
            Alignment.dtw_distance dtw_single m [[d]] = Fin d).
  { intros d Hd. unfold m. rewrite dtw_single_distance. f_equal.
    unfold Rabs. destruct (Rcase_abs (0 - d)); lra. }
  assert (H : forall (d : R) (st : Alignment.state),
            st = Disk ∅ {[ 7%Z := [[[d]]; [[d]]; [[d]]] ]} ->
            43000 <= d ->
            Alignment.authenticate_voice dtw_single st 7%Z m
              = (false, Fin 0)).
  { intros d st -> Hge.
    rewrite (alignment_authenticate_finite dtw_single _ 7%Z
               [[[d]]; [[d]]; [[d]]] m [d; d; d]);
      [| reflexivity | discriminate
       | cbn [map]; rewrite (Hd d) by lra; reflexivity
       | repeat constructor; lra].
    rewrite np_mean_3, (reported_decay_large d Hge).
    rewrite Rgeb_0_threshold. reflexivity. }
  split; [apply Hd; lra|]. split; [apply Hd; lra|].
  split; [apply (H 1000000) | apply (H 2000000)]; try reflexivity; lra.
Qed.

Lemma xsum_cost (l : list xfloat) :
  Forall is_cost l -> is_cost (xsum l) /\ (In PInf l -> xsum l = PInf).
Proof.
  unfold xsum. induction 1 as [|d l Hd Hl [IH1 IH2]]; simpl.
  - split; [exact I | intros []].
  - destruct d; simpl in Hd; try contradiction.
    + destruct (fold_right xadd (Fin 0) l) eqn:E; simpl in *;
        try contradiction; split; try exact I.
      * intros [Hin|Hin]; [discriminate | discriminate (IH2 Hin)].
      * intros _. reflexivity.
    + destruct (fold_right xadd (Fin 0) l) eqn:E; simpl in *;
        try contradiction; split; try exact I; intros _; reflexivity.
Qed.

Lemma last_In {A : Type} (l : list A) (x : A) : last l = Some x -> In x l.
Proof.
  induction l as [|y l IH]; [discriminate|].
  destruct l as [|z l]; simpl in *.
  - intros [= ->]. left. reflexivity.
  - intros H. right. apply IH, H.
Qed.

(** Under librosa's contract a distance is a number or [+inf], never NaN,
    whether the alignment succeeded or was folded into [+inf]. *)
Lemma dtw_distance_cost
    (dtw : list (list R) -> list (list R) -> option (list (list xfloat)))
    (A B : list (list R)) :
  librosa_dtw dtw -> is_cost (Alignment.dtw_distance dtw A B).
Proof.
  intros Hdtw. unfold Alignment.dtw_distance.
  destruct (dtw _ _) as [D|] eqn:ED; [|exact I]. simpl.
  unfold Alignment.last_cell.
  destruct (last D) as [row|] eqn:Erow; [|exact I]. simpl.
  destruct (last row) as [dist|] eqn:Edist; [|exact I].
  pose proof (Hdtw _ _ _ ED) as HD.
  rewrite List.Forall_forall in HD.
  specialize (HD row (last_In _ _ Erow)).
  rewrite List.Forall_forall in HD. apply HD, last_In, Edist.
Qed.

(** C7. In the alignment design an alignment that fails is folded in as the
    distance [+inf]: [dtw_distance] returns [inf] when librosa's [dtw]
    raises (as it does for a cost matrix with NaN) and when the cost matrix
    has no last cell, so a distance is never NaN.  As soon as the distance
    to some enrolled sample is not finite, the similarity is 0.0 and
    [is_match] is false.  The functions are total: nothing is raised. *)
Theorem failed_alignment_rejected :
  forall (dtw : list (list R) -> list (list R) -> option (list (list xfloat)))
         (fs : Alignment.state) (u : user_id)
         (enrolled : list (list (list R))) (test : list (list R)),
    librosa_dtw dtw ->
    voiceprint_files fs !! u = Some enrolled ->
    let distances := map (Alignment.dtw_distance dtw test) enrolled in
    (forall e : list (list R),
        dtw (Alignment.transpose (Alignment.orient test))
            (Alignment.transpose (Alignment.orient e)) = None ->
        Alignment.dtw_distance dtw test e = PInf) /\
    (forall (e : list (list R)) (D : list (list xfloat)),
        dtw (Alignment.transpose (Alignment.orient test))
            (Alignment.transpose (Alignment.orient e)) = Some D ->
        Alignment.last_cell D = None ->
        Alignment.dtw_distance dtw test e = PInf) /\
    Forall is_cost distances /\
    (Exists nonfinite distances ->
     Alignment.authenticate_voice dtw fs u test = (false, Fin 0)).
Proof.
  intros dtw fs u enrolled test Hdtw Hvp distances.
  assert (Hcost : Forall is_cost distances).
  { unfold distances. apply List.Forall_map, List.Forall_forall.
    intros e _. apply dtw_distance_cost, Hdtw. }
  split; [|split; [|split; [exact Hcost|]]].
  - intros e He. unfold Alignment.dtw_distance. rewrite He. reflexivity.
  - intros e D He HD. unfold Alignment.dtw_distance. rewrite He. simpl.
    rewrite HD. reflexivity.
  - intros Hex.
    assert (Hin : In PInf distances).
    { apply List.Exists_exists in Hex as (d & Hd & Hnf).
      rewrite List.Forall_forall in Hcost. specialize (Hcost d Hd).
      destruct d; simpl in Hnf, Hcost; try contradiction. exact Hd. }
    unfold Alignment.authenticate_voice. rewrite Hvp.
    fold distances. unfold Alignment.similarity_of, xmean.
    destruct distances as [|d l] eqn:E; [destruct Hin|].
    rewrite (proj2 (xsum_cost _ Hcost) Hin). simpl.
    rewrite Rgeb_0_threshold. reflexivity.
Qed.

Lemma dtw_single_contract : librosa_dtw dtw_single.
Proof.
  intros X Y D H. unfold dtw_single in H.
  repeat case_match; try discriminate.
  injection H as <-. repeat constructor.
Qed.

Lemma failed_alignment_rejected_witness :
  let m : list (list R) := [[1]] in
  let fs : Alignment.state := Disk ∅ {[ 7%Z := [m; []; m] ]} in
  Alignment.dtw_distance dtw_single m [] = PInf /\
  Alignment.authenticate_voice dtw_single fs 7%Z m = (false, Fin 0).
Proof.
  intros m fs.
  destruct (failed_alignment_rejected dtw_single fs 7%Z [m; []; m] m
              dtw_single_contract)
    as (Hfold & _ & _ & Hreject); [reflexivity|].
  split; [apply Hfold; reflexivity|].
  apply Hreject. apply Exists_cons_tl, Exists_cons_hd. exact I.
Defined.

(** * Further properties of the staging area *)

Lemma string_length_append (s t : string) :
  String.length (s +:+ t) = (String.length s + String.length t)%nat.
Proof. induction s as [|c s IH]; simpl; [reflexivity | rewrite IH; reflexivity]. Qed.

Lemma string_append_inj_r (s1 s2 t : string) :
  s1 +:+ t = s2 +:+ t -> s1 = s2.
Proof.
  revert s2. induction s1 as [|c s1 IH]; intros [|c' s2] H.
  - reflexivity.
  - apply (f_equal String.length) in H.
    rewrite !string_length_append in H. simpl in H. lia.
  - apply (f_equal String.length) in H.
    rewrite !string_length_append in H. simpl in H. lia.
  - simpl in H. injection H as -> H. f_equal. apply IH, H.
Qed.

Lemma sample_path_inj (n m : Z) : sample_path n = sample_path m -> n = m.
Proof.
  unfold sample_path. intros H.
  apply String.app_inj in H. apply string_append_inj_r in H.
  apply pretty_Z_inj in H. exact H.
Qed.

Lemma substring_full (s : string) : String.substring 0 (String.length s) s = s.
Proof. induction s as [|c s IH]; simpl; [reflexivity | rewrite IH; reflexivity]. Qed.

Lemma endswith_self (suffix : string) : endswith suffix suffix = true.
Proof.
  unfold endswith. rewrite Nat.leb_refl, Nat.sub_diag, substring_full.
  apply String.eqb_refl.
Qed.

Lemma endswith_cons (suffix : string) (c : Ascii.ascii) (s : string) :
  endswith suffix s = true -> endswith suffix (String c s) = true.
Proof.
  unfold endswith. intros H. apply andb_true_iff in H as [Hle Heq].
  apply Nat.leb_le in Hle. apply andb_true_iff. split.
  - apply Nat.leb_le. simpl. lia.
  - simpl String.length.
    replace (S (String.length s) - String.length suffix)%nat
      with (S (String.length s - String.length suffix)) by lia.
    simpl. exact Heq.
Qed.

Lemma endswith_append (suffix s t : string) :
  endswith suffix t = true -> endswith suffix (s +:+ t) = true.
Proof.
  intros H. induction s as [|c s IH]; simpl; [exact H|].
  apply endswith_cons, IH.
Qed.

Lemma is_pkl_sample_path (n : Z) : is_pkl (sample_path n) = true.
Proof.
  unfold is_pkl, sample_path. do 2 apply endswith_append. apply endswith_self.
Qed.

Section DirectoryFacts.
Context {A : Type}.
Implicit Types (d : list (string * A)) (name : string).

Lemma read_write_same name (c : A) d :
  read_file name (write_file name c d) = Some c.
Proof.
  induction d as [|[n c'] d IH]; simpl.
  - rewrite String.eqb_refl. reflexivity.
  - destruct (String.eqb n name) eqn:E; simpl.
    + rewrite String.eqb_refl. reflexivity.
    + rewrite E. exact IH.
Qed.

Lemma read_write_other name name' (c : A) d :
  name' <> name -> read_file name' (write_file name c d) = read_file name' d.
Proof.
  intros Hne. induction d as [|[n c'] d IH]; simpl.
  - destruct (String.eqb_spec name name'); [congruence | reflexivity].
  - destruct (String.eqb_spec n name) as [->|Hn]; simpl.
    + destruct (String.eqb_spec name name'); [congruence | reflexivity].
    + rewrite IH. reflexivity.
Qed.

Lemma pkl_count_write name (c : A) d :
  is_pkl name = true ->
  length (List.filter is_pkl (listdir (write_file name c d))) =
    match read_file name d with
    | Some _ => length (List.filter is_pkl (listdir d))
    | None => S (length (List.filter is_pkl (listdir d)))
    end.
Proof.
  intros Hpkl. unfold listdir. induction d as [|[n c'] d IH]; simpl.
  - rewrite Hpkl. reflexivity.
  - destruct (String.eqb_spec n name) as [->|Hn]; simpl.
    + reflexivity.
    + destruct (is_pkl n); simpl; rewrite IH;
        destruct (read_file name d); reflexivity.
Qed.

Lemma pkl_contents_write name (c : A) d :
  is_pkl name = true -> In c (pkl_contents (write_file name c d)).
Proof.
  intros Hpkl. unfold pkl_contents. induction d as [|[n c'] d IH]; simpl.
  - rewrite Hpkl. left. reflexivity.
  - destruct (String.eqb_spec n name) as [->|Hn]; simpl.
    + rewrite Hpkl. left. reflexivity.
    + destruct (is_pkl n); simpl; [right|]; exact IH.
Qed.
End DirectoryFacts.

(** X1. [save_voice_sample] (its body [store_sample], shared by the three
    classes) writes a [.pkl] file: [get_sample_count] grows by one when the
    index was not staged before and stays the same when the index is staged
    again; the counts of the other users do not change. *)
Theorem store_sample_count :
  forall (S V : Type) (fs : disk S V) (u : user_id) (n : Z) (data : S),
    get_sample_count (store_sample fs u n data) u =
      match read_sample fs u n with
      | Some _ => get_sample_count fs u
      | None => Datatypes.S (get_sample_count fs u)
      end /\
    (1 <= get_sample_count (store_sample fs u n data) u)%nat /\
    (forall u' : user_id, u' <> u ->
        get_sample_count (store_sample fs u n data) u' =
          get_sample_count fs u').
Proof.
  intros S V fs u n data.
  assert (Hcount : get_sample_count (store_sample fs u n data) u =
            match read_sample fs u n with
            | Some _ => get_sample_count fs u
            | None => Datatypes.S (get_sample_count fs u)
            end).
  { unfold get_sample_count at 1. rewrite store_sample_dir.
    fold (sample_path n).
    rewrite (pkl_count_write _ _ _ (is_pkl_sample_path n)).
    unfold read_sample, get_sample_count.
    destruct (sample_dirs fs !! u) as [d|]; reflexivity. }
  split; [exact Hcount|]. split.
  - rewrite Hcount. destruct (read_sample fs u n) as [x|] eqn:E; [|lia].
    unfold read_sample in E. unfold get_sample_count.
    destruct (sample_dirs fs !! u) as [d|]; [|discriminate]. simpl in E.
    clear Hcount. induction d as [|[m c] d IH]; simpl in *; [discriminate|].
    destruct (String.eqb_spec m (sample_path n)) as [->|Hm].
    + rewrite is_pkl_sample_path. simpl. lia.
    + specialize (IH E). destruct (is_pkl m); simpl; lia.
  - intros u' Hne. unfold get_sample_count, store_sample. simpl.
    rewrite lookup_insert_ne by congruence. reflexivity.
Qed.

(** X2. After [save_voice_sample] the file of that index holds the new
    sample (the last write for an index wins) and the loop of
    [create_voiceprint] loads it; the files of the other indices, the
    directories of the other users and every voiceprint file are
    untouched. *)
Theorem store_sample_read :
  forall (S V : Type) (fs : disk S V) (u : user_id) (n : Z) (data : S),
    let fs' := store_sample fs u n data in
    read_sample fs' u n = Some data /\
    (exists d', sample_dirs fs' !! u = Some d' /\ In data (pkl_contents d')) /\
    (forall m : Z, m <> n -> read_sample fs' u m = read_sample fs u m) /\
    (forall u' : user_id, u' <> u ->
        sample_dirs fs' !! u' = sample_dirs fs !! u') /\
    voiceprint_files fs' = voiceprint_files fs.
Proof.
  intros S V fs u n data fs'. unfold fs'.
  split; [|split; [|split; [|split]]].
  - unfold read_sample. rewrite store_sample_dir. simpl.
    apply read_write_same.
  - eexists. split; [apply store_sample_dir|].
    apply pkl_contents_write, (is_pkl_sample_path n).
  - intros m Hm. unfold read_sample. rewrite store_sample_dir. simpl.
    fold (sample_path n). rewrite read_write_other.
    + destruct (sample_dirs fs !! u); reflexivity.
    + intros E. apply Hm, sample_path_inj, E.
  - intros u' Hne. unfold store_sample. simpl.
    apply lookup_insert_ne. congruence.
  - reflexivity.
Qed.

(** * Further properties of the ensemble design *)

Lemma np_array_spec (rows : list (list R)) :
  np_array rows = Some rows <->
  exists D : nat, Forall (fun r => length r = D) rows.
Proof.
  split.
  - unfold np_array. intros H.
    destruct (forallb _ rows) eqn:E; [|discriminate].
    exists (length (hd [] rows)). apply List.Forall_forall. intros r Hr.
    rewrite forallb_forall in E. apply Nat.eqb_eq, E, Hr.
  - intros [D HD]. apply (np_array_uniform rows D HD).
Qed.

Lemma np_array_some (rows rows' : list (list R)) :
  np_array rows = Some rows' -> rows' = rows.
Proof.
  unfold np_array. destruct (forallb _ rows); [|discriminate]. congruence.
Qed.

(** What a call of [create_voiceprint] that returns [True] has done. *)
Lemma create_voiceprint_true (fs : Ensemble.state) (u : user_id) (now : Z) :
  snd (Ensemble.create_voiceprint fs u now) = true ->
  exists (d : list (string * Ensemble.sample_data)) (D : nat),
    let rows := map Ensemble.features (pkl_contents d) in
    sample_dirs fs !! u = Some d /\
    (3 <= length rows)%nat /\
    Forall (fun r => length r = D) rows /\
    Ensemble.create_voiceprint fs u now =
      (Disk (sample_dirs fs)
            (<[u := Ensemble.Voiceprint (axis0 np_mean rows)
                      (axis0 np_std rows) (axis0 np_median rows)
                      (length rows) now rows]> (voiceprint_files fs)),
       true).
Proof.
  unfold Ensemble.create_voiceprint.
  destruct (sample_dirs fs !! u) as [d|]; [|discriminate].
  set (rows := map Ensemble.features (pkl_contents d)).
  destruct (Nat.ltb_spec (length rows) Ensemble.min_samples) as [Hlt|Hge];
    [discriminate|].
  unfold Ensemble.build_voiceprint.
  destruct (np_array rows) as [rows'|] eqn:E; [|discriminate].
  pose proof (np_array_some _ _ E) as ->.
  apply np_array_spec in E as [D HD]. intros _.
  exists d, D. simpl. repeat split; assumption.
Qed.

Lemma create_voiceprint_false (fs : Ensemble.state) (u : user_id) (now : Z) :
  snd (Ensemble.create_voiceprint fs u now) = false ->
  Ensemble.create_voiceprint fs u now = (fs, false).
Proof.
  unfold Ensemble.create_voiceprint.
  destruct (sample_dirs fs !! u) as [d|]; [|reflexivity].
  destruct (_ <? _)%nat; [reflexivity|].
  destruct (Ensemble.build_voiceprint _ now); [discriminate | reflexivity].
Qed.

(** X3. [create_voiceprint] never writes partially: a call that returns
    [False] leaves the disk as it was; a call that returns [True] changes
    only the caller's voiceprint file, leaves every staged sample in place,
    and stores a record whose [sample_count] is the number of staged samples
    (at least 3), whose mean, std and median vectors and raw samples share
    one dimension, and whose std entries are non-negative. *)
Theorem create_voiceprint_effects :
  forall (fs : Ensemble.state) (u : user_id) (now : Z),
    let r := Ensemble.create_voiceprint fs u now in
    sample_dirs (fst r) = sample_dirs fs /\
    (forall u' : user_id, u' <> u ->
        voiceprint_files (fst r) !! u' = voiceprint_files fs !! u') /\
    (snd r = false -> fst r = fs) /\
    (snd r = true ->
     exists (vp : Ensemble.voiceprint) (D : nat),
       voiceprint_files (fst r) !! u = Some vp /\
       Ensemble.sample_count vp = get_sample_count fs u /\
       (3 <= Ensemble.sample_count vp)%nat /\
       length (Ensemble.raw_samples vp) = Ensemble.sample_count vp /\
       Ensemble.created_at vp = now /\
       length (Ensemble.mean_features vp) = D /\
       length (Ensemble.std_features vp) = D /\
       length (Ensemble.median_features vp) = D /\
       Forall (fun s => length s = D) (Ensemble.raw_samples vp) /\
       forall j : nat, 0 <= nth j (Ensemble.std_features vp) 0).
Proof.
  intros fs u now r. unfold r. clear r.
  destruct (snd (Ensemble.create_voiceprint fs u now)) eqn:E.
  - destruct (create_voiceprint_true fs u now E)
      as (d & D & Hd & Hlen & HD & Hr).
    cbv zeta in Hd, Hlen, HD, Hr.
    set (rows := map Ensemble.features (pkl_contents d)) in *.
    rewrite Hr. simpl.
    split; [reflexivity|]. split.
    { intros u' Hne. apply lookup_insert_ne. congruence. }
    split; [discriminate|]. intros _.
    assert (Hhd : length (hd [] rows) = D).
    { apply hd_length_uniform; [|exact HD].
      intros E0. rewrite E0 in Hlen. simpl in Hlen. lia. }
    eexists _, D. split; [apply lookup_insert_eq|]. simpl.
    rewrite !axis0_length.
    repeat split; try assumption; try reflexivity.
    + unfold get_sample_count. rewrite Hd, <- pkl_contents_length.
      unfold rows. apply length_map.
    + apply axis0_std_nonneg.
  - rewrite (create_voiceprint_false fs u now E). simpl.
    repeat split; try reflexivity. discriminate.
Qed.

(** X4. [create_voiceprint] succeeds exactly when the user's samples
    directory exists, holds at least [min_samples] sample files, and the
    staged feature vectors all have one length. *)
Theorem create_voiceprint_succeeds_iff :
  forall (fs : Ensemble.state) (u : user_id) (now : Z),
    snd (Ensemble.create_voiceprint fs u now) = true <->
    exists d : list (string * Ensemble.sample_data),
      sample_dirs fs !! u = Some d /\
      (Ensemble.min_samples <= get_sample_count fs u)%nat /\
      exists D : nat,
        Forall (fun s => length (Ensemble.features s) = D) (pkl_contents d).
Proof.
  intros fs u now. split.
  - intros E. destruct (create_voiceprint_true fs u now E)
      as (d & D & Hd & Hlen & HD & _). cbv zeta in *.
    exists d. split; [exact Hd|]. split.
    + unfold get_sample_count. rewrite Hd, <- pkl_contents_length.
      rewrite length_map in Hlen. exact Hlen.
    + exists D. apply List.Forall_map in HD. exact HD.
  - intros (d & Hd & Hcount & D & HD).
    unfold Ensemble.create_voiceprint. rewrite Hd.
    unfold get_sample_count in Hcount.
    rewrite Hd, <- pkl_contents_length in Hcount.
    replace (_ <? _)%nat with false
      by (symmetry; apply Nat.ltb_ge; rewrite length_map; exact Hcount).
    unfold Ensemble.build_voiceprint.
    rewrite (np_array_uniform _ D) by (apply List.Forall_map; exact HD).
    reflexivity.
Qed.

(** X5. [create_voiceprint] overwrites: an earlier run for the same user has
    no influence on a later one, so running it twice in a row gives the
    result of the second run alone (and, with equal timestamps, the same
    disk as one run). *)
Theorem create_voiceprint_overwrites :
  forall (fs : Ensemble.state) (u : user_id) (now now' : Z),
    Ensemble.create_voiceprint
      (fst (Ensemble.create_voiceprint fs u now)) u now' =
    Ensemble.create_voiceprint fs u now'.
Proof.
  intros fs u now now'. unfold Ensemble.create_voiceprint.
  destruct (sample_dirs fs !! u) as [d|] eqn:Hd; cbn [fst sample_dirs];
    [|rewrite Hd; reflexivity].
  destruct (_ <? _)%nat eqn:Hlt; cbn [fst sample_dirs];
    [rewrite Hd, Hlt; reflexivity|].
  unfold Ensemble.build_voiceprint.
  destruct (np_array _) as [rows|] eqn:Harr; cbn [mbind option_bind fst sample_dirs voiceprint_files];
    rewrite Hd, Hlt, Harr; [|reflexivity].
  cbn [mbind option_bind]. rewrite insert_insert_eq. reflexivity.
Qed.

Lemma dot_ge_neg_norms (x y : list R) : - (l2_norm x * l2_norm y) <= dot x y.
Proof.
  pose proof (cauchy_schwarz x y) as Hcs.
  rewrite <- (l2_norm_sqr x), <- (l2_norm_sqr y) in Hcs.
  assert (Hx : 0 <= l2_norm x) by apply sqrt_pos.
  assert (Hy : 0 <= l2_norm y) by apply sqrt_pos.
  assert (Hp : 0 <= l2_norm x * l2_norm y) by (apply Rmult_le_pos; assumption).
  destruct (Rle_dec (- (l2_norm x * l2_norm y)) (dot x y)) as [H|H];
    [exact H|].
  apply Rnot_le_lt in H.
  assert (H' : l2_norm x * l2_norm y < - dot x y) by lra.
  pose proof (Rmult_le_0_lt_compat _ _ _ _ Hp Hp H' H') as Hsq.
  replace (l2_norm x * l2_norm y * (l2_norm x * l2_norm y))
    with (l2_norm x * l2_norm x * (l2_norm y * l2_norm y)) in Hsq by ring.
  replace (- dot x y * - dot x y) with (dot x y * dot x y) in Hsq by ring.
  lra.
Qed.

Lemma Rdiv_ge_m1 (a b : R) : 0 < b -> - b <= a -> -1 <= a / b.
Proof.
  intros Hb Hab. unfold Rdiv. replace (-1) with (- b * / b) by (field; lra).
  apply Rmult_le_compat_r; [left; apply Rinv_0_lt_compat; lra | exact Hab].
Qed.

Lemma cosine_bounds (x y : list R) : -1 <= cosine x y <= 1.
Proof.
  pose proof norm_floor_pos as Hf. pose proof norm_floor_lt_1 as H1.
  unfold cosine, normalize.
  set (nx := if Rlt_dec (l2_norm x) norm_floor then 1 else l2_norm x).
  set (ny := if Rlt_dec (l2_norm y) norm_floor then 1 else l2_norm y).
  assert (Hnx : 0 < nx /\ l2_norm x <= nx)
    by (unfold nx; destruct (Rlt_dec (l2_norm x) norm_floor); lra).
  assert (Hny : 0 < ny /\ l2_norm y <= ny)
    by (unfold ny; destruct (Rlt_dec (l2_norm y) norm_floor); lra).
  rewrite dot_scaled by lra.
  assert (Hx : 0 <= l2_norm x) by apply sqrt_pos.
  assert (Hy : 0 <= l2_norm y) by apply sqrt_pos.
  assert (Hprod : l2_norm x * l2_norm y <= nx * ny)
    by (apply Rmult_le_compat; lra).
  pose proof (dot_le_norms x y). pose proof (dot_ge_neg_norms x y).
  assert (0 < nx * ny) by (apply Rmult_lt_0_compat; lra).
  split; [apply Rdiv_ge_m1 | apply Rdiv_le_1]; lra.
Qed.


Lemma score_mismatch (vp : Ensemble.voiceprint) (probe : list R) :
  length probe <> length (Ensemble.mean_features vp) \/ probe = [] ->
  Ensemble.score vp probe = None.
Proof.
  intros H. unfold Ensemble.score, cosine_similarity.
  destruct probe as [|a probe]; [reflexivity|].
  destruct H as [H|H]; [|discriminate].
  replace (length (a :: probe) =? length (Ensemble.mean_features vp))%nat
    with false by (symmetry; apply Nat.eqb_neq, H).
  rewrite andb_false_r. reflexivity.
Qed.

Lemma authenticate_mismatch (fs : Ensemble.state) (u : user_id)
    (vp : Ensemble.voiceprint) (probe : list R) :
  voiceprint_files fs !! u = Some vp ->
  length probe <> length (Ensemble.mean_features vp) \/ probe = [] ->
  Ensemble.authenticate_voice fs u probe = (false, 0).
Proof.
  intros Hvp H. unfold Ensemble.authenticate_voice.
  rewrite Hvp, (score_mismatch vp probe H). reflexivity.
Qed.

(** X6. A probe whose dimension differs from that of the stored vector, and
    an empty probe, make [cosine_similarity] raise; the exception is caught
    and authentication fails closed with [(False, 0.0)], in the ensemble and
    in the embedding design. *)
Theorem shape_mismatch_fails_closed :
  (forall (fs : Ensemble.state) (u : user_id) (vp : Ensemble.voiceprint)
          (probe : list R),
      voiceprint_files fs !! u = Some vp ->
      length probe <> length (Ensemble.mean_features vp) \/ probe = [] ->
      Ensemble.authenticate_voice fs u probe = (false, 0)) /\
  (forall (fs : Embedding.state) (u : user_id) (vp : Embedding.voiceprint)
          (probe : list R),
      voiceprint_files fs !! u = Some vp ->
      length probe <> length (Embedding.vp_embedding vp)
      \/ Embedding.vp_embedding vp = [] ->
      Embedding.authenticate_voice fs u probe = (false, 0)).
Proof.
  split.
  - apply authenticate_mismatch.
  - intros fs u [emb] probe Hvp H. unfold Embedding.authenticate_voice.
    rewrite Hvp. simpl in *. unfold cosine_similarity.
    destruct emb as [|a emb]; [reflexivity|].
    destruct H as [H|H]; [|discriminate].
    replace (length (a :: emb) =? length probe)%nat with false
      by (symmetry; apply Nat.eqb_neq; congruence).
    rewrite andb_false_r. reflexivity.
Qed.

Lemma shape_mismatch_fails_closed_witness :
  let fs := fst (enrol3 (Disk ∅ ∅) 7%Z [1; 0; 0] [1; 0; 0] [1; 0; 0]) in
  Ensemble.authenticate_voice fs 7%Z [1; 0] = (false, 0).
Proof.
  intros fs.
  set (rows := [[1; 0; 0]; [1; 0; 0]; [1; 0; 0]] : list (list R)).
  apply (proj1 shape_mismatch_fails_closed fs 7%Z
           (Ensemble.Voiceprint (axis0 np_mean rows) (axis0 np_std rows)
              (axis0 np_median rows) 3 0 rows)).
  - apply (enrol3_voiceprint (Disk ∅ ∅) 7%Z); reflexivity.
  - left. cbn [Ensemble.mean_features]. rewrite axis0_length. simpl. lia.
Defined.



(** X8. [get_voiceprint_info] returns [None] for a user without voiceprint
    file; after a successful [create_voiceprint] it reports the number of
    staged samples, the creation time of that call and the common dimension
    of the staged feature vectors. *)
Theorem get_voiceprint_info_after_create :
  (forall (fs : Ensemble.state) (u : user_id),
      voiceprint_files fs !! u = None ->
      Ensemble.get_voiceprint_info fs u = None) /\
  (forall (fs : Ensemble.state) (u : user_id) (now : Z),
      snd (Ensemble.create_voiceprint fs u now) = true ->
      exists (d : list (string * Ensemble.sample_data)) (D : nat),
        sample_dirs fs !! u = Some d /\
        Forall (fun s => length (Ensemble.features s) = D) (pkl_contents d) /\
        Ensemble.get_voiceprint_info
          (fst (Ensemble.create_voiceprint fs u now)) u =
          Some (Ensemble.VoiceprintInfo (get_sample_count fs u) now D)).
Proof.
  split.
  - intros fs u H. unfold Ensemble.get_voiceprint_info. rewrite H. reflexivity.
  - intros fs u now E.
    destruct (create_voiceprint_true fs u now E)
      as (d & D & Hd & Hlen & HD & Hr). cbv zeta in *.
    set (rows := map Ensemble.features (pkl_contents d)) in *.
    exists d, D. split; [exact Hd|].
    split; [apply List.Forall_map in HD; exact HD|].
    rewrite Hr. unfold Ensemble.get_voiceprint_info. simpl.
    rewrite lookup_insert_eq. simpl. rewrite axis0_length.
    rewrite (hd_length_uniform rows D)
      by (try assumption; intros E0; rewrite E0 in Hlen; simpl in Hlen; lia).
    unfold get_sample_count. rewrite Hd, <- pkl_contents_length.
    unfold rows. rewrite length_map. reflexivity.
Qed.

Lemma get_voiceprint_info_after_create_witness :
  let fs := stage3 (Disk ∅ ∅) 7%Z [1; 0; 0] [1; 0; 0] [1; 0; 0] in
  exists (d : list (string * Ensemble.sample_data)) (D : nat),
    sample_dirs fs !! 7%Z = Some d /\
    Forall (fun s => length (Ensemble.features s) = D) (pkl_contents d) /\
    Ensemble.get_voiceprint_info
      (fst (Ensemble.create_voiceprint fs 7%Z 5)) 7%Z =
      Some (Ensemble.VoiceprintInfo (get_sample_count fs 7%Z) 5 D).
Proof.
  intros fs.
  apply (proj2 get_voiceprint_info_after_create fs 7%Z 5%Z).
  reflexivity.
Defined.

(** ** Clearing *)

Lemma clear_user_voiceprint_result {S V : Type} (fs : disk S V) (u : user_id) :
  clear_user_voiceprint fs u =
    (Disk (delete u (sample_dirs fs)) (delete u (voiceprint_files fs)), true).
Proof.
  unfold clear_user_voiceprint.
  assert (Hvp : (if decide (is_Some (voiceprint_files fs !! u))
                 then delete u (voiceprint_files fs)
                 else voiceprint_files fs) = delete u (voiceprint_files fs)).
  { case_decide as Hs; [reflexivity|].
    symmetry. apply delete_id.
    destruct (voiceprint_files fs !! u) eqn:E; [|reflexivity].
    exfalso. apply Hs. eauto. }
  rewrite Hvp.
  destruct (sample_dirs fs !! u) as [d|] eqn:Ed.
  - rewrite remove_each_listdir. reflexivity.
  - rewrite (delete_id (sample_dirs fs) u Ed). reflexivity.
Qed.

(** X9. [clear_user_voiceprint] touches only the given user: the samples
    directories and voiceprint files of all other users are as before.  For
    the cleared user a following [authenticate_voice] returns [(False, 0.0)]
    and a following [create_voiceprint] returns [False], in the ensemble, the
    alignment and the embedding design. *)
Theorem clear_user_voiceprint_frame :
  (forall (S V : Type) (fs : disk S V) (u u' : user_id),
      u' <> u ->
      sample_dirs (fst (clear_user_voiceprint fs u)) !! u' =
        sample_dirs fs !! u' /\
      voiceprint_files (fst (clear_user_voiceprint fs u)) !! u' =
        voiceprint_files fs !! u') /\
  (forall (fs : Ensemble.state) (u : user_id) (probe : list R) (now : Z),
      let fs' := fst (clear_user_voiceprint fs u) in
      Ensemble.authenticate_voice fs' u probe = (false, 0) /\
      Ensemble.create_voiceprint fs' u now = (fs', false)) /\
  (forall dtw (fs : Alignment.state) (u : user_id) (probe : list (list R)),
      let fs' := fst (clear_user_voiceprint fs u) in
      Alignment.authenticate_voice dtw fs' u probe = (false, Fin 0) /\
      Alignment.create_voiceprint fs' u = (fs', false)) /\
  (forall (fs : Embedding.state) (u : user_id) (probe : list R),
      let fs' := fst (clear_user_voiceprint fs u) in
      Embedding.authenticate_voice fs' u probe = (false, 0) /\
      Embedding.create_voiceprint fs' u = (fs', false)).
Proof.
  split; [|split; [|split]].
  - intros S V fs u u' Hne. rewrite clear_user_voiceprint_result. simpl.
    split; apply lookup_delete_ne; congruence.
  - intros fs u probe now fs'. unfold fs'.
    rewrite clear_user_voiceprint_result. simpl.
    unfold Ensemble.authenticate_voice, Ensemble.create_voiceprint. simpl.
    rewrite !lookup_delete_eq. split; reflexivity.
  - intros dtw fs u probe fs'. unfold fs'.
    rewrite clear_user_voiceprint_result. simpl.
    unfold Alignment.authenticate_voice, Alignment.create_voiceprint. simpl.
    rewrite !lookup_delete_eq. split; reflexivity.
  - intros fs u probe fs'. unfold fs'.
    rewrite clear_user_voiceprint_result. simpl.
    unfold Embedding.authenticate_voice, Embedding.create_voiceprint. simpl.
    rewrite !lookup_delete_eq. split; reflexivity.
Qed.

Lemma clear_user_voiceprint_frame_witness :
  let fs := fst (enrol3 (Disk ∅ ∅) 7%Z [1; 0; 0] [1; 0; 0] [1; 0; 0]) in
  sample_dirs (fst (clear_user_voiceprint fs 8%Z)) !! 7%Z =
    sample_dirs fs !! 7%Z /\
  voiceprint_files (fst (clear_user_voiceprint fs 8%Z)) !! 7%Z =
    voiceprint_files fs !! 7%Z.
Proof.
  intros fs.
  apply (proj1 clear_user_voiceprint_frame _ _ fs 8%Z 7%Z). lia.
Defined.

(** * Further properties of the alignment design *)

(** X10. With the threshold 0.1 and the decay constant 40, the alignment
    scorer accepts exactly when the mean DTW distance to the enrolled samples
    is at most [40 ln 10] (about 92.1), whenever all distances are finite. *)
Theorem alignment_accepts_iff :
  forall (dtw : list (list R) -> list (list R) -> option (list (list xfloat)))
         (fs : Alignment.state) (u : user_id)
         (enrolled : list (list (list R))) (test : list (list R))
         (ds : list R),
    voiceprint_files fs !! u = Some enrolled ->
    enrolled <> [] ->
    map (Alignment.dtw_distance dtw test) enrolled = map Fin ds ->
    (fst (Alignment.authenticate_voice dtw fs u test) = true <->
     np_mean ds <= 40 * ln 10).
Proof.
  intros dtw fs u enrolled test ds Hvp Hne Hds.
  unfold Alignment.authenticate_voice. rewrite Hvp, Hds.
  rewrite (similarity_of_finite ds (map_Fin_nonempty _ _ _ _ Hne Hds)).
  cbn [fst]. rewrite xgeb_np_exp, Rgeb_true, threshold_as_exp.
  unfold Alignment.alpha. rewrite exp_le_iff. split; intros; lra.
Qed.

Lemma alignment_accepts_iff_witness :
  let dtw := fun _ _ : list (list R) => Some [[Fin 2]] in
  let m : list (list R) := [[1]] in
  let fs : Alignment.state := Disk ∅ {[ 7%Z := [m; m; m] ]} in
  fst (Alignment.authenticate_voice dtw fs 7%Z m) = true <->
  np_mean [2; 2; 2] <= 40 * ln 10.
Proof.
  intros dtw m fs.
  apply (alignment_accepts_iff dtw fs 7%Z [m; m; m] m [2; 2; 2]).
  - reflexivity.
  - discriminate.
  - reflexivity.
Defined.

(** X11. In the alignment design [create_voiceprint] succeeds exactly when
    the samples directory exists and holds at least 3 sample files, whatever
    the shapes of the matrices; on failure the disk is unchanged; on success
    the staged matrices are stored in listing order, the staging area is
    untouched, and [authenticate_voice] then averages the DTW distance of the
    probe to exactly those matrices. *)
Theorem alignment_create_voiceprint_effects :
  forall (dtw : list (list R) -> list (list R) -> option (list (list xfloat)))
         (fs : Alignment.state) (u : user_id),
    let r := Alignment.create_voiceprint fs u in
    (snd r = true <->
     exists d, sample_dirs fs !! u = Some d /\ (3 <= get_sample_count fs u)%nat) /\
    (snd r = false -> fst r = fs) /\
    sample_dirs (fst r) = sample_dirs fs /\
    (forall d, snd r = true -> sample_dirs fs !! u = Some d ->
       voiceprint_files (fst r) !! u =
         Some (map Alignment.features (pkl_contents d)) /\
       forall test : list (list R),
         snd (Alignment.authenticate_voice dtw (fst r) u test) =
           Alignment.similarity_of
             (map (fun s => Alignment.dtw_distance dtw test
                              (Alignment.features s))
                  (pkl_contents d))).
Proof.
  intros dtw fs u r. unfold r. clear r.
  unfold Alignment.create_voiceprint, get_sample_count.
  destruct (sample_dirs fs !! u) as [d|] eqn:Hd.
  - rewrite <- pkl_contents_length, length_map.
    destruct (Nat.ltb_spec (length (pkl_contents d)) 3) as [Hlt|Hge];
      cbn [fst snd sample_dirs voiceprint_files].
    + split; [|split; [|split]]; try reflexivity; try discriminate.
      split; [discriminate|]. intros (d' & _ & H). lia.
    + split; [|split; [|split]]; try reflexivity; try discriminate.
      * split; [|reflexivity]. intros _. exists d. split; [reflexivity|exact Hge].
      * intros d' _ [= <-]. split; [apply lookup_insert_eq|].
        intros test. unfold Alignment.authenticate_voice.
        cbn [voiceprint_files]. rewrite lookup_insert_eq.
        cbn [snd]. rewrite map_map. reflexivity.
  - cbn [fst snd sample_dirs voiceprint_files].
    split; [|split; [|split]]; try reflexivity; try discriminate.
    split; [discriminate|]. intros (d' & Hd' & _). discriminate.
Qed.

Lemma column_length (j : nat) (m : list (list R)) :
  length (column j m) = length m.
Proof. unfold column. apply length_map. Qed.

Lemma transpose_shape (m : list (list R)) (r c : nat) :
  (0 < r)%nat -> (0 < c)%nat ->
  length m = r -> Forall (fun row => length row = c) m ->
  Alignment.shape0 (Alignment.transpose m) = c /\
  Alignment.shape1 (Alignment.transpose m) = r /\
  Forall (fun row => length row = r) (Alignment.transpose m).
Proof.
  intros Hr Hc Hlen Hrows.
  assert (Hs1 : Alignment.shape1 m = c).
  { unfold Alignment.shape1. apply hd_length_uniform; [|exact Hrows].
    intros E. rewrite E in Hlen. simpl in Hlen. lia. }
  unfold Alignment.shape0, Alignment.shape1 at 1, Alignment.transpose.
  rewrite Hs1. rewrite length_map, length_seq.
  split; [reflexivity|]. split.
  - destruct c as [|c]; [lia|]. simpl. rewrite column_length. exact Hlen.
  - apply List.Forall_map, List.Forall_forall. intros j _.
    rewrite column_length. exact Hlen.
Qed.

Lemma nth_column (i j : nat) (m : list (list R)) :
  nth i (column j m) 0 = nth j (nth i m []) 0.
Proof.
  unfold column.
  rewrite <- (map_nth (fun r => nth j r 0) m [] i).
  destruct j; reflexivity.
Qed.

Lemma rows_nth_seq (m : list (list R)) :
  map (fun i => nth i m []) (seq 0 (length m)) = m.
Proof.
  induction m as [|row m IH]; simpl; [reflexivity|].
  f_equal. rewrite <- seq_shift, map_map. exact IH.
Qed.

Lemma transpose_involutive (m : list (list R)) (r c : nat) :
  (0 < r)%nat -> (0 < c)%nat ->
  length m = r -> Forall (fun row => length row = c) m ->
  Alignment.transpose (Alignment.transpose m) = m.
Proof.
  intros Hr Hc Hlen Hrows.
  destruct (transpose_shape m r c Hr Hc Hlen Hrows) as (_ & Hs1 & _).
  assert (Hc' : Alignment.shape1 m = c).
  { unfold Alignment.shape1. apply hd_length_uniform; [|exact Hrows].
    intros E. rewrite E in Hlen. simpl in Hlen. lia. }
  unfold Alignment.transpose at 1. rewrite Hs1, <- Hlen.
  transitivity (map (fun i => nth i m []) (seq 0 (length m)));
    [|apply rows_nth_seq].
  apply map_ext_in. intros i Hi. apply in_seq in Hi.
  unfold column at 1, Alignment.transpose. rewrite map_map, Hc'.
  assert (Hrow : length (nth i m []) = c).
  { rewrite List.Forall_forall in Hrows. apply Hrows, nth_In. lia. }
  transitivity (map (fun j => nth j (nth i m []) 0) (seq 0 c)).
  - apply map_ext. intros j. apply nth_column.
  - rewrite <- Hrow. apply map_nth_seq.
Qed.

(** X12. [dtw_distance] hands to librosa's [dtw] the matrix with its shorter
    axis first: for a matrix of [r] rows and [c] columns the argument
    [orient(M).T] has [min r c] rows and [max r c] columns; it is [M] itself
    when [M] has fewer rows than columns and the transpose of [M] otherwise.
    Orienting twice changes nothing. *)
Theorem dtw_argument_orientation :
  forall (m : list (list R)) (r c : nat),
    (0 < r)%nat -> (0 < c)%nat ->
    length m = r -> Forall (fun row => length row = c) m ->
    let arg := Alignment.transpose (Alignment.orient m) in
    Alignment.shape0 arg = Nat.min r c /\
    Alignment.shape1 arg = Nat.max r c /\
    ((r < c)%nat -> arg = m) /\
    ((c <= r)%nat -> arg = Alignment.transpose m) /\
    Alignment.orient (Alignment.orient m) = Alignment.orient m.
Proof.
  intros m r c Hr Hc Hlen Hrows arg. unfold arg. clear arg.
  assert (Hs1 : Alignment.shape1 m = c).
  { unfold Alignment.shape1. apply hd_length_uniform; [|exact Hrows].
    intros E. rewrite E in Hlen. simpl in Hlen. lia. }
  assert (Hs0 : Alignment.shape0 m = r) by exact Hlen.
  destruct (transpose_shape m r c Hr Hc Hlen Hrows) as (Ht0 & Ht1 & Htrows).
  destruct (Nat.ltb_spec r c) as [Hlt|Hge].
  - assert (Ho : Alignment.orient m = Alignment.transpose m).
    { unfold Alignment.orient. rewrite Hs0, Hs1.
      destruct (Nat.ltb_spec r c); [reflexivity | lia]. }
    rewrite Ho, (transpose_involutive m r c Hr Hc Hlen Hrows), Hs0, Hs1.
    repeat split; try lia.
    unfold Alignment.orient. rewrite Ht0, Ht1.
    destruct (Nat.ltb_spec c r); [lia | reflexivity].
  - assert (Ho : Alignment.orient m = m).
    { unfold Alignment.orient. rewrite Hs0, Hs1.
      destruct (Nat.ltb_spec r c); [lia | reflexivity]. }
    rewrite !Ho, Ht0, Ht1. repeat split; try lia.
Qed.

Lemma dtw_argument_orientation_witness :
  let m : list (list R) := [[1; 2; 3]; [4; 5; 6]] in
  let arg := Alignment.transpose (Alignment.orient m) in
  Alignment.shape0 arg = Nat.min 2 3 /\
  Alignment.shape1 arg = Nat.max 2 3 /\
  ((2 < 3)%nat -> arg = m) /\
  ((3 <= 2)%nat -> arg = Alignment.transpose m) /\
  Alignment.orient (Alignment.orient m) = Alignment.orient m.
Proof.
  intros m.
  apply (dtw_argument_orientation m 2 3); try lia; try reflexivity.
  repeat constructor.
Defined.

(** X13. In the alignment design [get_voiceprint_info] never returns
    information: without voiceprint file it returns [None], and with one
    (the pickled list written by [create_voiceprint]) the string subscript
    raises, which the method turns into [None] as well. *)
Theorem alignment_get_voiceprint_info_none :
  forall (fs : Alignment.state) (u : user_id),
    Alignment.get_voiceprint_info fs u = None /\
    (snd (Alignment.create_voiceprint fs u) = true ->
     is_Some (voiceprint_files (fst (Alignment.create_voiceprint fs u)) !! u) /\
     Alignment.get_voiceprint_info (fst (Alignment.create_voiceprint fs u)) u
       = None).
Proof.
  assert (Hnone : forall fs u, Alignment.get_voiceprint_info fs u = None).
  { intros fs u. unfold Alignment.get_voiceprint_info.
    destruct (voiceprint_files fs !! u); reflexivity. }
  intros fs u. split; [apply Hnone|]. intros E. split; [|apply Hnone].
  unfold Alignment.create_voiceprint in *.
  destruct (sample_dirs fs !! u) as [d|]; [|discriminate].
  destruct (_ <? _)%nat; [discriminate|]. simpl.
  rewrite lookup_insert_eq. eauto.
Qed.

(** * Further properties of the embedding design *)

Lemma dot_scale_both (k : R) (x y : list R) :
  dot (map (Rmult k) x) (map (Rmult k) y) = k * k * dot x y.
Proof.
  unfold dot, np_sum. revert y.
  induction x as [|a x IH]; intros [|b y]; simpl; try lra.
  rewrite IH. lra.
Qed.

Lemma l2_norm_scale (k : R) (x : list R) :
  0 <= k -> l2_norm (map (Rmult k) x) = k * l2_norm x.
Proof.
  intros Hk. apply l2_norm_of_square.
  - apply Rmult_le_pos; [exact Hk | apply sqrt_pos].
  - rewrite dot_scale_both, <- l2_norm_sqr. ring.
Qed.

Lemma normalize_scale (k : R) (x : list R) :
  0 < k -> norm_floor <= l2_norm x ->
  norm_floor <= l2_norm (map (Rmult k) x) ->
  normalize (map (Rmult k) x) = normalize x.
Proof.
  intros Hk Hx Hkx. pose proof norm_floor_pos.
  rewrite (normalize_regular _ Hkx), (normalize_regular _ Hx).
  rewrite l2_norm_scale by lra. rewrite map_map.
  apply map_ext. intros a. field. lra.
Qed.

Lemma embedding_authenticate_shaped (fs : Embedding.state) (u : user_id)
    (vp : Embedding.voiceprint) (probe : list R) :
  voiceprint_files fs !! u = Some vp ->
  (0 < length probe)%nat ->
  length (Embedding.vp_embedding vp) = length probe ->
  Embedding.authenticate_voice fs u probe =
    (Rgeb (cosine (Embedding.vp_embedding vp) probe) Embedding.threshold,
     cosine (Embedding.vp_embedding vp) probe).
Proof.
  intros Hvp Hpos Hlen. unfold Embedding.authenticate_voice. rewrite Hvp.
  rewrite cosine_similarity_shaped by congruence. reflexivity.
Qed.

(** X14. Numbers are modelled as reals.  In the embedding design
    [authenticate_voice] reports the cosine similarity between the stored
    embedding and the probe; in exact real arithmetic the confidence lies in
    [-1, 1], the probe is accepted exactly when it is at least 0.75, and
    multiplying the probe by a positive factor changes neither (for probes
    of non-negligible norm).  In binary64 this holds up to rounding, and not
    for a factor that makes the squared norm overflow. *)
Theorem embedding_authenticate_cosine :
  forall (fs : Embedding.state) (u : user_id) (vp : Embedding.voiceprint)
         (probe : list R),
    voiceprint_files fs !! u = Some vp ->
    (0 < length probe)%nat ->
    length (Embedding.vp_embedding vp) = length probe ->
    let r := Embedding.authenticate_voice fs u probe in
    snd r = cosine (Embedding.vp_embedding vp) probe /\
    -1 <= snd r <= 1 /\
    (fst r = true <-> 0.75 <= snd r) /\
    (forall k : R,
        0 < k -> norm_floor <= l2_norm probe ->
        norm_floor <= l2_norm (map (Rmult k) probe) ->
        Embedding.authenticate_voice fs u (map (Rmult k) probe) = r).
Proof.
  intros fs u vp probe Hvp Hpos Hlen r. unfold r. clear r.
  rewrite (embedding_authenticate_shaped fs u vp probe Hvp Hpos Hlen).
  simpl. split; [reflexivity|]. split; [apply cosine_bounds|].
  split; [apply Rgeb_true|].
  intros k Hk Hx Hkx.
  rewrite (embedding_authenticate_shaped fs u vp _ Hvp)
    by (rewrite length_map; assumption).
  unfold cosine. rewrite (normalize_scale k probe Hk Hx Hkx). reflexivity.
Qed.

Lemma embedding_authenticate_cosine_witness :
  let fs : Embedding.state :=
    Disk ∅ {[ 7%Z := Embedding.Voiceprint [1; 0; 0] ]} in
  let r := Embedding.authenticate_voice fs 7%Z [0; 1; 0] in
  snd r = cosine [1; 0; 0] [0; 1; 0] /\
  -1 <= snd r <= 1 /\
  (fst r = true <-> 0.75 <= snd r) /\
  (forall k : R,
      0 < k -> norm_floor <= l2_norm [0; 1; 0] ->
      norm_floor <= l2_norm (map (Rmult k) [0; 1; 0]) ->
      Embedding.authenticate_voice fs 7%Z (map (Rmult k) [0; 1; 0]) = r).
Proof.
  intros fs.
  apply (embedding_authenticate_cosine fs 7%Z
           (Embedding.Voiceprint [1; 0; 0]) [0; 1; 0]).
  - reflexivity.
  - simpl. lia.
  - reflexivity.
Defined.

Lemma nth_axis0 (f : list R -> R) (rows : list (list R)) (j : nat) :
  (j < length (hd [] rows))%nat ->
  nth j (axis0 f rows) 0 = f (column j rows).
Proof.
  intros Hj. unfold axis0.
  rewrite (nth_indep _ 0 (f (column 0%nat rows)))
    by (rewrite length_map, length_seq; exact Hj).
  rewrite (map_nth (fun i => f (column i rows))).
  rewrite seq_nth by exact Hj. reflexivity.
Qed.

(** X15. Numbers are modelled as reals.  In the embedding design
    [create_voiceprint], given at least 3 staged embeddings of one dimension
    [D], stores their per-dimension arithmetic mean, a vector of dimension
    [D], and leaves the staging area as it is; in exact real arithmetic the
    stored vector does not depend on the order in which the directory lists
    the files (in binary64 it does, the rows being added in that order). *)
Theorem embedding_create_voiceprint_mean :
  forall (fs1 fs2 : Embedding.state) (u : user_id)
         (d1 d2 : list (string * Embedding.sample_data)) (D : nat),
    sample_dirs fs1 !! u = Some d1 ->
    sample_dirs fs2 !! u = Some d2 ->
    Permutation d1 d2 ->
    (3 <= get_sample_count fs1 u)%nat ->
    Forall (fun s => length (Embedding.embedding s) = D) (pkl_contents d1) ->
    exists e : list R,
      Embedding.create_voiceprint fs1 u =
        (Disk (sample_dirs fs1)
              (<[u := Embedding.Voiceprint e]> (voiceprint_files fs1)), true) /\
      Embedding.create_voiceprint fs2 u =
        (Disk (sample_dirs fs2)
              (<[u := Embedding.Voiceprint e]> (voiceprint_files fs2)), true) /\
      length e = D /\
      forall j : nat, (j < D)%nat ->
        nth j e 0 =
          np_mean (map (fun s => nth j (Embedding.embedding s) 0)
                       (pkl_contents d1)).
Proof.
  intros fs1 fs2 u d1 d2 D E1 E2 Hp Hcount Hdim.
  set (rows1 := map Embedding.embedding (pkl_contents d1)).
  set (rows2 := map Embedding.embedding (pkl_contents d2)).
  assert (Hrows : Permutation rows1 rows2)
    by (apply Permutation_map, pkl_contents_perm, Hp).
  assert (U1 : Forall (fun r => length r = D) rows1)
    by (apply List.Forall_map; exact Hdim).
  assert (U2 : Forall (fun r => length r = D) rows2)
    by (apply (Permutation_Forall Hrows), U1).
  assert (L1 : (3 <= length rows1)%nat).
  { unfold rows1. rewrite length_map, pkl_contents_length.
    unfold get_sample_count in Hcount. rewrite E1 in Hcount. exact Hcount. }
  assert (L2 : (3 <= length rows2)%nat)
    by (rewrite <- (Permutation_length Hrows); exact L1).
  assert (Hhd : length (hd [] rows1) = D).
  { apply hd_length_uniform; [|exact U1].
    intros E. rewrite E in L1. simpl in L1. lia. }
  exists (axis0 np_mean rows1). split; [|split; [|split]].
  - unfold Embedding.create_voiceprint. rewrite E1. fold rows1.
    replace (length rows1 <? 3)%nat with false
      by (symmetry; apply Nat.ltb_ge; exact L1).
    rewrite (np_array_uniform rows1 D U1). reflexivity.
  - unfold Embedding.create_voiceprint. rewrite E2. fold rows2.
    replace (length rows2 <? 3)%nat with false
      by (symmetry; apply Nat.ltb_ge; exact L2).
    rewrite (np_array_uniform rows2 D U2).
    rewrite (axis0_perm np_mean rows1 rows2 D np_mean_perm Hrows U1).
    reflexivity.
  - rewrite axis0_length. exact Hhd.
  - intros j Hj. rewrite nth_axis0 by (rewrite Hhd; exact Hj).
    unfold column, rows1. rewrite map_map. reflexivity.
Qed.

Lemma embedding_create_voiceprint_mean_witness :
  let a := ("sample_1.pkl"%string, Embedding.SampleData [1; 2] 0) in
  let b := ("sample_2.pkl"%string, Embedding.SampleData [3; 4] 0) in
  let c := ("sample_3.pkl"%string, Embedding.SampleData [5; 6] 0) in
  let fs1 : Embedding.state := Disk {[ 7%Z := [a; b; c] ]} ∅ in
  let fs2 : Embedding.state := Disk {[ 7%Z := [b; a; c] ]} ∅ in
  exists e : list R,
    Embedding.create_voiceprint fs1 7%Z =
      (Disk (sample_dirs fs1)
            (<[7%Z := Embedding.Voiceprint e]> (voiceprint_files fs1)), true) /\
    Embedding.create_voiceprint fs2 7%Z =
      (Disk (sample_dirs fs2)
            (<[7%Z := Embedding.Voiceprint e]> (voiceprint_files fs2)), true) /\
    length e = 2%nat /\
    forall j : nat, (j < 2)%nat ->
      nth j e 0 =
        np_mean (map (fun s => nth j (Embedding.embedding s) 0)
                     (pkl_contents [a; b; c])).
Proof.
  intros a b c fs1 fs2.
  apply (embedding_create_voiceprint_mean fs1 fs2 7%Z [a; b; c] [b; a; c]).
  - reflexivity.
  - reflexivity.
  - apply perm_swap.
  - vm_compute. lia.
  - repeat constructor.
Defined.

(** X16. Numbers are modelled as reals.  In the embedding design, enrolling
    at least 3 copies of one embedding of non-negligible norm and
    authenticating with that embedding gives, in exact real arithmetic,
    cosine similarity 1 and [is_match = True].  In binary64 the cosine is 1
    up to rounding, and 0 when the squared norm of the embedding
    overflows. *)
Theorem embedding_self_match :
  forall (fs : Embedding.state) (u : user_id)
         (d : list (string * Embedding.sample_data)) (s : list R),
    sample_dirs fs !! u = Some d ->
    (3 <= get_sample_count fs u)%nat ->
    Forall (fun x => Embedding.embedding x = s) (pkl_contents d) ->
    norm_floor <= l2_norm s ->
    snd (Embedding.create_voiceprint fs u) = true /\
    Embedding.authenticate_voice
      (fst (Embedding.create_voiceprint fs u)) u s = (true, 1).
Proof.
  intros fs u d s Hd Hcount Hall Hs.
  assert (Hlen : (3 <= length (pkl_contents d))%nat).
  { rewrite pkl_contents_length. unfold get_sample_count in Hcount.
    rewrite Hd in Hcount. exact Hcount. }
  unfold Embedding.create_voiceprint. rewrite Hd.
  rewrite (map_const_repeat _ s _ Hall), repeat_length.
  replace (_ <? _)%nat with false by (symmetry; apply Nat.ltb_ge; exact Hlen).
  rewrite (np_array_uniform _ (length s))
    by (apply List.Forall_forall; intros y Hy; apply repeat_spec in Hy;
        subst y; reflexivity).
  rewrite axis0_mean_repeat by lia. simpl. split; [reflexivity|].
  rewrite (embedding_authenticate_shaped _ u (Embedding.Voiceprint s) s);
    [| apply lookup_insert_eq | apply regular_nonempty, Hs | reflexivity].
  simpl. rewrite (cosine_self s Hs). f_equal.
  apply Rgeb_true. unfold Embedding.threshold. lra.
Qed.

Lemma embedding_self_match_witness :
  let a := ("sample_1.pkl"%string, Embedding.SampleData [1; 0; 0] 0) in
  let b := ("sample_2.pkl"%string, Embedding.SampleData [1; 0; 0] 0) in
  let c := ("sample_3.pkl"%string, Embedding.SampleData [1; 0; 0] 0) in
  let fs : Embedding.state := Disk {[ 7%Z := [a; b; c] ]} ∅ in
  snd (Embedding.create_voiceprint fs 7%Z) = true /\
  Embedding.authenticate_voice
    (fst (Embedding.create_voiceprint fs 7%Z)) 7%Z [1; 0; 0] = (true, 1).
Proof.
  intros a b c fs.
  apply (embedding_self_match fs 7%Z [a; b; c] [1; 0; 0]).
  - reflexivity.
  - vm_compute. lia.
  - repeat constructor.
  - rewrite l2_norm_100. pose proof norm_floor_lt_1. lra.
Defined.

(** * Properties of the handlers of routes.py *)

Lemma get_sample_count_store {S V : Type} (fs : disk S V) (u : user_id)
    (n : Z) (data : S) :
  get_sample_count (store_sample fs u n data) u =
    match read_sample fs u n with
    | Some _ => get_sample_count fs u
    | None => Datatypes.S (get_sample_count fs u)
    end.
Proof.
  unfold get_sample_count at 1. rewrite store_sample_dir.
  fold (sample_path n).
  rewrite (pkl_count_write _ _ _ (is_pkl_sample_path n)).
  unfold read_sample, get_sample_count.
  destruct (sample_dirs fs !! u) as [d|]; reflexivity.
Qed.

Lemma get_sample_count_store_pos {S V : Type} (fs : disk S V) (u : user_id)
    (n : Z) (data : S) :
  (1 <= get_sample_count (store_sample fs u n data) u)%nat.
Proof.
  unfold get_sample_count. rewrite store_sample_dir.
  rewrite <- pkl_contents_length.
  pose proof (pkl_contents_write (sample_path n) data
                (default [] (sample_dirs fs !! u)) (is_pkl_sample_path n)) as H.
  fold (sample_path n).
  destruct (pkl_contents _); [destruct H | simpl; lia].
Qed.

Lemma create_voiceprint_uniform (fs : Ensemble.state) (u : user_id) (now : Z)
    (d : list (string * Ensemble.sample_data)) (D : nat) :
  sample_dirs fs !! u = Some d ->
  (3 <= get_sample_count fs u)%nat ->
  Forall (fun s => length (Ensemble.features s) = D) (pkl_contents d) ->
  snd (Ensemble.create_voiceprint fs u now) = true.
Proof.
  intros Hd Hc HD. unfold Ensemble.create_voiceprint. rewrite Hd.
  unfold get_sample_count in Hc. rewrite Hd, <- pkl_contents_length in Hc.
  rewrite length_map.
  replace (_ <? _)%nat with false
    by (symmetry; apply Nat.ltb_ge; exact Hc).
  unfold Ensemble.build_voiceprint.
  rewrite (np_array_uniform _ D) by (apply List.Forall_map; exact HD).
  reflexivity.
Qed.

(** X17. What a call of [upload_voice_sample] can do.  It answers with a
    failure, with "enrolled" or with "recorded".  It never touches the
    [AuthAttempt] table, the session or another user.  A failure leaves
    everything as it was.  "Enrolled" means that [has_voiceprint] holds
    afterwards and at least 3 samples are staged.  "Recorded" means that the
    sample is staged but neither the flag nor any voiceprint file changed;
    [samples_needed] is [3 - sample_count], cut off at 0; and when it is
    answered with 3 or more staged samples, [create_voiceprint] has
    failed. *)
Theorem upload_voice_sample_outcomes :
  forall (w : Routes.world) (u : user_id) (req : Routes.request)
         (features : option (list R)) (t_save t_create : Z),
    let w' := fst (Routes.upload_voice_sample w u req features
                     t_save t_create) in
    let r := snd (Routes.upload_voice_sample w u req features
                    t_save t_create) in
    Routes.auth_attempts w' = Routes.auth_attempts w /\
    Routes.voice_authenticated w' = Routes.voice_authenticated w /\
    (forall u' : user_id, u' <> u ->
        Routes.is_voice_enrolled w' !! u' = Routes.is_voice_enrolled w !! u' /\
        sample_dirs (Routes.files w') !! u' =
          sample_dirs (Routes.files w) !! u' /\
        voiceprint_files (Routes.files w') !! u' =
          voiceprint_files (Routes.files w) !! u') /\
    (forall e, r = Routes.Failure e -> w' = w) /\
    (forall k, r = Routes.Enrolled k ->
        Routes.has_voiceprint w' u = true /\
        k = get_sample_count (Routes.files w') u /\ (3 <= k)%nat) /\
    (forall n k needed, r = Routes.Recorded n k needed ->
        Routes.sample_number req = Some n /\
        Routes.is_voice_enrolled w' = Routes.is_voice_enrolled w /\
        voiceprint_files (Routes.files w') = voiceprint_files (Routes.files w) /\
        k = get_sample_count (Routes.files w') u /\ (1 <= k)%nat /\
        needed = Z.of_nat (3 - k) /\
        ((3 <= k)%nat ->
         Ensemble.create_voiceprint (Routes.files w') u t_create =
           (Routes.files w', false))) /\
    match r with
    | Routes.Failure _ | Routes.Enrolled _ | Routes.Recorded _ _ _ => True
    | _ => False
    end.
Proof.
  intros w u req features t_save t_create.
  unfold Routes.upload_voice_sample.
  destruct (Routes.audio req) as [filename|];
    [|cbn; repeat split; try discriminate; intros; reflexivity].
  destruct (Routes.sample_number req) as [n|];
    [|cbn; repeat split; try discriminate; intros; reflexivity].
  destruct (String.eqb filename EmptyString);
    [cbn; repeat split; try discriminate; intros; reflexivity|].
  destruct features as [feat|];
    [|cbn; repeat split; try discriminate; intros; reflexivity].
  unfold Ensemble.save_voice_sample. cbn [fst].
  set (data := Ensemble.SampleData feat t_save n).
  set (fs1 := store_sample (Routes.files w) u n data).
  pose proof (get_sample_count_store_pos (Routes.files w) u n data) as Hpos.
  fold fs1 in Hpos.
  assert (Hother : forall u' : user_id, u' <> u ->
            sample_dirs fs1 !! u' = sample_dirs (Routes.files w) !! u').
  { intros u' Hne. unfold fs1, store_sample. cbn [sample_dirs].
    apply lookup_insert_ne. congruence. }
  assert (Hneeded : forall k : nat,
            Z.max 0 (3 - Z.of_nat k) = Z.of_nat (3 - k)) by (intros; lia).
  destruct (Nat.leb_spec 3 (get_sample_count fs1 u)) as [Hge|Hlt].
  - destruct (Ensemble.create_voiceprint fs1 u t_create) as [fs2 ok] eqn:Ec.
    destruct ok.
    + destruct (create_voiceprint_true fs1 u t_create) as (d & D & H).
      { rewrite Ec. reflexivity. }
      cbn zeta in H. destruct H as (Hd & Hlen & HD & Hres).
      rewrite Ec in Hres. apply (f_equal fst) in Hres.
      cbn [fst] in Hres. subst fs2.
      cbn [fst snd Routes.auth_attempts Routes.voice_authenticated
           Routes.is_voice_enrolled Routes.files sample_dirs voiceprint_files].
      split; [reflexivity|]. split; [reflexivity|]. split.
      { intros u' Hne. split; [apply lookup_insert_ne; congruence|].
        split; [apply Hother, Hne | apply lookup_insert_ne; congruence]. }
      split; [discriminate|]. split; [|split; [discriminate | exact I]].
      intros k [= <-]. split; [|split; [reflexivity | exact Hge]].
      unfold Routes.has_voiceprint.
      cbn [Routes.is_voice_enrolled Routes.files voiceprint_files].
      rewrite !lookup_insert_eq.
      rewrite bool_decide_eq_true_2 by eauto. reflexivity.
    + pose proof (create_voiceprint_false fs1 u t_create) as Hf.
      rewrite Ec in Hf. specialize (Hf eq_refl).
      apply (f_equal fst) in Hf. cbn [fst] in Hf. subst fs2.
      cbn [fst snd Routes.auth_attempts Routes.voice_authenticated
           Routes.is_voice_enrolled Routes.files].
      split; [reflexivity|]. split; [reflexivity|]. split.
      { intros u' Hne. split; [reflexivity|].
        split; [apply Hother, Hne | reflexivity]. }
      split; [discriminate|]. split; [discriminate|]. split; [|exact I].
      intros n' k needed [= <- <- <-].
      repeat (split; [first [reflexivity | exact Hpos | apply Hneeded]|]).
      intros _. exact Ec.
  - cbn [fst snd Routes.auth_attempts Routes.voice_authenticated
         Routes.is_voice_enrolled Routes.files].
    split; [reflexivity|]. split; [reflexivity|]. split.
    { intros u' Hne. split; [reflexivity|].
      split; [apply Hother, Hne | reflexivity]. }
    split; [discriminate|]. split; [discriminate|]. split; [|exact I].
    intros n' k needed [= <- <- <-].
    repeat (split; [first [reflexivity | exact Hpos | apply Hneeded]|]).
    intros Hk. lia.
Qed.


Section DirectoryAppend.
Context {A : Type}.
Implicit Types (d : list (string * A)) (name : string).


Lemma pkl_contents_snoc name (c : A) d :
  is_pkl name = true ->
  pkl_contents (d ++ [(name, c)]) = pkl_contents d ++ [c].
Proof.
  intros Hp. unfold pkl_contents.
  rewrite List.filter_app, map_app. simpl. rewrite Hp. reflexivity.
Qed.

Lemma read_file_app_none name name' (c : A) d :
  read_file name d = None -> name' <> name ->
  read_file name (d ++ [(name', c)]) = None.
Proof.
  intros Hd Hne. induction d as [|[m c'] d IH]; simpl in *.
  - destruct (String.eqb_spec name' name); [contradiction | reflexivity].
  - destruct (String.eqb m name); [discriminate | apply IH, Hd].
Qed.
End DirectoryAppend.



Lemma count_of_dir {S V : Type} (fs : disk S V) (u : user_id)
    (d : list (string * S)) :
  sample_dirs fs !! u = Some d ->
  get_sample_count fs u = length (pkl_contents d).
Proof.
  intros Hd. unfold get_sample_count. rewrite Hd.
  symmetry. apply pkl_contents_length.
Qed.

Lemma pkl_contents_sample_path {S : Type} (n : Z) (c : S)
    (d : list (string * S)) :
  pkl_contents ((sample_path n, c) :: d) = c :: pkl_contents d.
Proof.
  unfold pkl_contents. cbn [List.filter fst].
  rewrite is_pkl_sample_path. reflexivity.
Qed.



(** The staging area of a user who only ever uploaded sample number [n]. *)
Lemma upload_same_index_step (w : Routes.world) (u : user_id) (n : Z)
    (c : Routes.upload) :
  (sample_dirs (Routes.files w) !! u = None \/
   exists data, sample_dirs (Routes.files w) !! u =
                  Some [(sample_path n, data)]) ->
  Routes.sample_number (Routes.upload_request c) = Some n ->
  let w1 := fst (Routes.upload_voice_sample w u (Routes.upload_request c)
                   (Routes.upload_features c) (Routes.upload_t_save c)
                   (Routes.upload_t_create c)) in
  let r := snd (Routes.upload_voice_sample w u (Routes.upload_request c)
                  (Routes.upload_features c) (Routes.upload_t_save c)
                  (Routes.upload_t_create c)) in
  (sample_dirs (Routes.files w1) !! u = None \/
   exists data, sample_dirs (Routes.files w1) !! u =
                  Some [(sample_path n, data)]) /\
  ((exists e, r = Routes.Failure e) \/ r = Routes.Recorded n 1 2) /\
  Routes.is_voice_enrolled w1 = Routes.is_voice_enrolled w /\
  voiceprint_files (Routes.files w1) = voiceprint_files (Routes.files w).
Proof.
  intros Hinv Hn. destruct c as [req features t_save t_create].
  cbn [Routes.upload_request Routes.upload_features Routes.upload_t_save
       Routes.upload_t_create] in *.
  unfold Routes.upload_voice_sample. rewrite Hn.
  destruct (Routes.audio req) as [f|]; [|cbn; eauto 6].
  destruct (String.eqb f EmptyString); [cbn; eauto 6|].
  destruct features as [feat|]; [|cbn; eauto 6].
  unfold Ensemble.save_voice_sample. cbn [fst].
  set (data := Ensemble.SampleData feat t_save n).
  set (fs1 := store_sample (Routes.files w) u n data).
  assert (Hd : sample_dirs fs1 !! u = Some [(sample_path n, data)]).
  { unfold fs1. rewrite store_sample_dir. fold (sample_path n).
    destruct Hinv as [-> | [old ->]]; cbn [default from_option Datatypes.id].
    - reflexivity.
    - cbn [write_file]. rewrite String.eqb_refl. reflexivity. }
  assert (Hc : get_sample_count fs1 u = 1%nat).
  { rewrite (count_of_dir _ _ _ Hd), pkl_contents_sample_path. reflexivity. }
  rewrite Hc. cbn [Nat.leb fst snd Routes.files Routes.is_voice_enrolled].
  split; [right; eauto|]. split; [right; reflexivity|].
  split; reflexivity.
Qed.

(** X19. Uploads that all carry the same sample number never enrol: the
    file of that index is overwritten each time, so for a user without
    staged samples every upload is answered with a failure or with
    "recorded, 1 sample, 2 needed", however many uploads are made; the flag
    [is_voice_enrolled] and the voiceprint files stay as they were. *)
Theorem repeated_index_never_enrols :
  forall (calls : list Routes.upload) (w : Routes.world) (u : user_id)
         (n : Z),
    sample_dirs (Routes.files w) !! u = None ->
    Forall (fun c => Routes.sample_number (Routes.upload_request c) = Some n)
           calls ->
    let w' := fst (Routes.upload_each w u calls) in
    let rs := snd (Routes.upload_each w u calls) in
    length rs = length calls /\
    Forall (fun r => (exists e, r = Routes.Failure e) \/
                     r = Routes.Recorded n 1 2) rs /\
    (get_sample_count (Routes.files w') u <= 1)%nat /\
    Routes.is_voice_enrolled w' = Routes.is_voice_enrolled w /\
    voiceprint_files (Routes.files w') = voiceprint_files (Routes.files w).
Proof.
  intros calls w u n Hnone Hall.
  assert (Hinv : sample_dirs (Routes.files w) !! u = None \/
                 exists data, sample_dirs (Routes.files w) !! u =
                                Some [(sample_path n, data)])
    by (left; exact Hnone).
  clear Hnone. revert w Hinv.
  induction Hall as [|c calls Hc Hall IH]; intros w Hinv.
  - cbn. repeat split; [constructor|].
    destruct Hinv as [H | [data H]].
    + rewrite (get_sample_count_no_dir _ _ H). lia.
    + rewrite (count_of_dir _ _ _ H), pkl_contents_sample_path.
      cbn. lia.
  - destruct (upload_same_index_step w u n c Hinv Hc)
      as (Hinv1 & Hr & Hflag & Hvp).
    cbn zeta in Hinv1, Hr, Hflag, Hvp.
    cbn [Routes.upload_each].
    destruct (Routes.upload_voice_sample w u (Routes.upload_request c)
                (Routes.upload_features c) (Routes.upload_t_save c)
                (Routes.upload_t_create c)) as [w1 r].
    cbn [fst snd] in Hinv1, Hr, Hflag, Hvp.
    specialize (IH w1 Hinv1). cbn zeta in IH.
    destruct (Routes.upload_each w1 u calls) as [w2 rs].
    cbn [fst snd length] in *.
    destruct IH as (Hlen & Hrs & Hcount & Hflag2 & Hvp2).
    split; [congruence|]. split; [constructor; assumption|].
    split; [exact Hcount|]. split; congruence.
Qed.

Lemma repeated_index_never_enrols_witness :
  let w := Routes.World (Disk ∅ ∅) ∅ [] false in
  let c x := Routes.Upload (Routes.Request (Some "a.wav"%string) (Some 1%Z)
                              "10.0.0.1"%string) (Some x) 0 0 in
  let calls := [c [1; 0]; c [1; 0]; c [1; 0]; c [1; 0]] in
  let w' := fst (Routes.upload_each w 7%Z calls) in
  let rs := snd (Routes.upload_each w 7%Z calls) in
  length rs = length calls /\
  Forall (fun r => (exists e, r = Routes.Failure e) \/
                   r = Routes.Recorded 1 1 2) rs /\
  (get_sample_count (Routes.files w') 7%Z <= 1)%nat /\
  Routes.is_voice_enrolled w' = Routes.is_voice_enrolled w /\
  voiceprint_files (Routes.files w') = voiceprint_files (Routes.files w).
Proof.
  intros w c calls.
  apply (repeated_index_never_enrols calls w 7%Z 1%Z).
  - reflexivity.
  - repeat constructor.
Defined.

(** X20. [re_enroll] resets the enrolment of the user: afterwards
    [has_voiceprint] is false, no sample is staged, [voice_auth] redirects
    to the enrolment page and an authentication attempt is answered with
    "not authenticated, confidence 0.0".  The other users keep their flag
    and files, the [AuthAttempt] table is not touched, and the session key
    ['voice_authenticated'] keeps its value: a session that passed voice
    authentication before stays marked as authenticated. *)
Theorem re_enroll_resets :
  forall (w : Routes.world) (u : user_id),
    let w' := fst (Routes.re_enroll w u) in
    snd (Routes.re_enroll w u) = Routes.Redirect "enroll_voice" /\
    Routes.has_voiceprint w' u = false /\
    get_sample_count (Routes.files w') u = 0%nat /\
    Routes.voice_auth w' u = Routes.Redirect "enroll_voice" /\
    (forall (req : Routes.request) (f : string) (feat : list R),
        Routes.audio req = Some f -> f <> EmptyString ->
        snd (Routes.authenticate_voice w' u req (Some feat)) =
          Routes.Authenticated false 0) /\
    (forall u' : user_id, u' <> u ->
        Routes.is_voice_enrolled w' !! u' = Routes.is_voice_enrolled w !! u' /\
        sample_dirs (Routes.files w') !! u' =
          sample_dirs (Routes.files w) !! u' /\
        voiceprint_files (Routes.files w') !! u' =
          voiceprint_files (Routes.files w) !! u') /\
    Routes.auth_attempts w' = Routes.auth_attempts w /\
    Routes.voice_authenticated w' = Routes.voice_authenticated w.
Proof.
  intros w u. unfold Routes.re_enroll.
  rewrite clear_user_voiceprint_result.
  cbn [fst snd Routes.files Routes.is_voice_enrolled Routes.auth_attempts
       Routes.voice_authenticated].
  assert (Hhas : Routes.has_voiceprint
                   (Routes.World
                      (Disk (delete u (sample_dirs (Routes.files w)))
                            (delete u (voiceprint_files (Routes.files w))))
                      (<[u := false]> (Routes.is_voice_enrolled w))
                      (Routes.auth_attempts w)
                      (Routes.voice_authenticated w)) u = false).
  { unfold Routes.has_voiceprint. cbn [Routes.is_voice_enrolled].
    rewrite lookup_insert_eq. reflexivity. }
  split; [reflexivity|]. split; [exact Hhas|]. split; [|split; [|split]].
  - apply get_sample_count_no_dir. cbn [Routes.files sample_dirs].
    apply lookup_delete_eq.
  - unfold Routes.voice_auth. rewrite Hhas. reflexivity.
  - intros req f feat Ha Hf. unfold Routes.authenticate_voice. rewrite Ha.
    destruct (String.eqb_spec f EmptyString) as [E|_]; [contradiction|].
    unfold Ensemble.authenticate_voice.
    cbn [Routes.files voiceprint_files]. rewrite lookup_delete_eq.
    reflexivity.
  - split; [|split; reflexivity].
    intros u' Hne. split; [apply lookup_insert_ne; congruence|].
    split; apply lookup_delete_ne; congruence.
Qed.

(** X21. The route [authenticate_voice].  A failure response leaves
    everything as it was.  Any other response reports the verdict and the
    confidence of the matcher for the current user, and exactly one row with
    that user, verdict, confidence and the client address is appended to
    the [AuthAttempt] table; the files and the enrolment flags are not
    written.  The session key ['voice_authenticated'] is set by a match and
    never cleared: a failed attempt does not revoke an earlier success.
    The flag [is_voice_enrolled] is not consulted. *)
Theorem authenticate_route_effects :
  forall (w : Routes.world) (u : user_id) (req : Routes.request)
         (features : option (list R)),
    let w' := fst (Routes.authenticate_voice w u req features) in
    let r := snd (Routes.authenticate_voice w u req features) in
    Routes.files w' = Routes.files w /\
    Routes.is_voice_enrolled w' = Routes.is_voice_enrolled w /\
    (forall e, r = Routes.Failure e -> w' = w) /\
    (forall b c, r = Routes.Authenticated b c ->
        exists feat,
          features = Some feat /\
          Ensemble.authenticate_voice (Routes.files w) u feat = (b, c) /\
          Routes.auth_attempts w' =
            Routes.auth_attempts w ++
              [Routes.AuthAttempt u b c (Routes.remote_addr req)] /\
          Routes.voice_authenticated w' =
            (b || Routes.voice_authenticated w)%bool) /\
    ((exists e, r = Routes.Failure e) \/
     (exists b c, r = Routes.Authenticated b c)) /\
    (Routes.voice_authenticated w = true ->
     Routes.voice_authenticated w' = true) /\
    (forall flags : gmap Z bool,
        snd (Routes.authenticate_voice
               (Routes.World (Routes.files w) flags (Routes.auth_attempts w)
                             (Routes.voice_authenticated w)) u req features)
        = r).
Proof.
  intros w u req features. unfold Routes.authenticate_voice.
  destruct (Routes.audio req) as [f|];
    [|cbn; repeat split; try discriminate; eauto].
  destruct (String.eqb f EmptyString);
    [cbn; repeat split; try discriminate; eauto|].
  destruct features as [feat|];
    [|cbn; repeat split; try discriminate; eauto].
  cbn [Routes.files].
  destruct (Ensemble.authenticate_voice (Routes.files w) u feat)
    as [is_match confidence] eqn:E.
  cbn [fst snd Routes.files Routes.is_voice_enrolled Routes.auth_attempts
       Routes.voice_authenticated].
  split; [reflexivity|]. split; [reflexivity|]. split; [discriminate|].
  split; [|split; [|split]].
  - intros b c [= <- <-]. exists feat.
    split; [reflexivity|]. split; [exact E|]. split; [reflexivity|].
    destruct is_match; reflexivity.
  - right. eauto.
  - intros H. destruct is_match; [reflexivity | exact H].
  - intros flags. reflexivity.
Qed.

(** X22. The three handlers keep the enrolment flag backed by a file: if
    every user whose [is_voice_enrolled] flag is set has a voiceprint file,
    this still holds after [upload_voice_sample], after the route
    [authenticate_voice] and after [re_enroll]. *)
Theorem handlers_keep_flag_backed :
  forall (w : Routes.world) (u : user_id) (req : Routes.request)
         (features : option (list R)) (t_save t_create : Z),
    Routes.flag_backed w ->
    Routes.flag_backed
      (fst (Routes.upload_voice_sample w u req features t_save t_create)) /\
    Routes.flag_backed (fst (Routes.authenticate_voice w u req features)) /\
    Routes.flag_backed (fst (Routes.re_enroll w u)).
Proof.
  intros w u req features t_save t_create Hw. split; [|split].
  - unfold Routes.upload_voice_sample.
    destruct (Routes.audio req) as [f|]; [|exact Hw].
    destruct (Routes.sample_number req) as [n|]; [|exact Hw].
    destruct (String.eqb f EmptyString); [exact Hw|].
    destruct features as [feat|]; [|exact Hw].
    unfold Ensemble.save_voice_sample. cbn [fst].
    set (fs1 := store_sample (Routes.files w) u n _).
    assert (Hvp1 : voiceprint_files fs1 = voiceprint_files (Routes.files w))
      by reflexivity.
    destruct (3 <=? get_sample_count fs1 u)%nat.
    + destruct (Ensemble.create_voiceprint fs1 u t_create) as [fs2 ok] eqn:Ec.
      destruct ok.
      * destruct (create_voiceprint_true fs1 u t_create) as (d & D & H).
        { rewrite Ec. reflexivity. }
        cbn zeta in H. destruct H as (_ & _ & _ & Hres).
        rewrite Ec in Hres. apply (f_equal fst) in Hres.
        cbn [fst] in Hres. subst fs2.
        intros v Hv.
        cbn [fst Routes.files Routes.is_voice_enrolled voiceprint_files]
          in *.
        destruct (decide (v = u)) as [->|Hne].
        -- rewrite lookup_insert_eq. eauto.
        -- rewrite lookup_insert_ne in Hv by congruence.
           rewrite lookup_insert_ne by congruence.
           rewrite Hvp1. apply Hw, Hv.
      * pose proof (create_voiceprint_false fs1 u t_create) as Hf.
        rewrite Ec in Hf. specialize (Hf eq_refl).
        apply (f_equal fst) in Hf. cbn [fst] in Hf. subst fs2.
        intros v Hv. cbn [fst Routes.files Routes.is_voice_enrolled] in *.
        rewrite Hvp1. apply Hw, Hv.
    + intros v Hv. cbn [fst Routes.files Routes.is_voice_enrolled] in *.
      rewrite Hvp1. apply Hw, Hv.
  - unfold Routes.authenticate_voice.
    destruct (Routes.audio req) as [f|]; [|exact Hw].
    destruct (String.eqb f EmptyString); [exact Hw|].
    destruct features as [feat|]; [|exact Hw].
    destruct (Ensemble.authenticate_voice (Routes.files w) u feat)
      as [is_match confidence].
    intros v Hv. cbn [fst Routes.files Routes.is_voice_enrolled] in *.
    apply Hw, Hv.
  - unfold Routes.re_enroll. rewrite clear_user_voiceprint_result.
    intros v Hv.
    cbn [fst Routes.files Routes.is_voice_enrolled voiceprint_files] in *.
    destruct (decide (v = u)) as [->|Hne].
    + rewrite lookup_insert_eq in Hv. discriminate.
    + rewrite lookup_insert_ne in Hv by congruence.
      rewrite lookup_delete_ne by congruence. apply Hw, Hv.
Qed.

Lemma handlers_keep_flag_backed_witness :
  let vp8 := Ensemble.Voiceprint [1; 0] [0; 0] [1; 0] 3 0
               [[1; 0]; [1; 0]; [1; 0]] in
  let staged := [("sample_1.pkl"%string, Ensemble.SampleData [1; 0] 0 1);
                 ("sample_2.pkl"%string, Ensemble.SampleData [0; 1] 0 2)] in
  let w := Routes.World (Disk {[ 7%Z := staged ]} {[ 8%Z := vp8 ]})
                        {[ 8%Z := true ]} [] false in
  let req := Routes.Request (Some "c.wav"%string) (Some 3%Z)
               "10.0.0.1"%string in
  let w' := fst (Routes.upload_voice_sample w 7%Z req (Some [1; 1]) 0 0) in
  (Routes.is_voice_enrolled w !! 8%Z = Some true /\
   Routes.is_voice_enrolled w !! 7%Z = None /\
   snd (Routes.upload_voice_sample w 7%Z req (Some [1; 1]) 0 0) =
     Routes.Enrolled 3 /\
   Routes.is_voice_enrolled w' !! 7%Z = Some true) /\
  Routes.flag_backed w' /\
  Routes.flag_backed
    (fst (Routes.authenticate_voice w 7%Z req (Some [1; 1]))) /\
  Routes.flag_backed (fst (Routes.re_enroll w 7%Z)).
Proof.
  intros vp8 staged w req w'.
  split.
  - split; [reflexivity|]. split; [reflexivity|].
    split; vm_compute; reflexivity.
  - apply (handlers_keep_flag_backed w 7%Z req (Some [1; 1]) 0 0).
    intros v Hv. unfold w in Hv. cbn [Routes.is_voice_enrolled] in Hv.
    apply lookup_singleton_Some in Hv as [<- _].
    unfold w. cbn [Routes.files voiceprint_files].
    rewrite lookup_singleton_eq. eauto.
Defined.

(** * Properties of the numeric helpers of the audio processor *)

Lemma pre_emphasis_emphasize (alpha a0 : R) (rest : list R) :
  zip_with Rminus rest (map (Rmult alpha) (removelast (a0 :: rest))) =
    emphasize alpha a0 rest.
Proof.
  revert a0. induction rest as [|x rest IH]; intros a0; [reflexivity|].
  change (removelast (a0 :: x :: rest)) with (a0 :: removelast (x :: rest)).
  cbn [map zip_with emphasize]. rewrite IH. reflexivity.
Qed.

Lemma emphasize_length (alpha prev : R) (l : list R) :
  length (emphasize alpha prev l) = length l.
Proof.
  revert prev. induction l as [|x l IH]; intros prev; simpl;
    [reflexivity | rewrite IH; reflexivity].
Qed.

Lemma emphasize_nth (alpha prev : R) (l : list R) (i : nat) :
  (i < length l)%nat ->
  nth i (emphasize alpha prev l) 0 = nth i l 0 - alpha * nth i (prev :: l) 0.
Proof.
  revert prev i. induction l as [|x l IH]; intros prev i Hi; simpl in Hi;
    [lia|].
  destruct i as [|i]; [reflexivity|].
  cbn [emphasize nth]. rewrite IH by lia. reflexivity.
Qed.

(** X23. [_pre_emphasis] raises on an empty signal and otherwise returns a
    signal of the same length whose first sample is the first input sample
    and whose sample [i >= 1] is [audio[i] - alpha * audio[i-1]]. *)
Theorem pre_emphasis_filter :
  forall (audio : list R) (alpha : R),
    (audio = [] <-> AudioProcessor._pre_emphasis audio alpha = None) /\
    (forall out : list R,
        AudioProcessor._pre_emphasis audio alpha = Some out ->
        length out = length audio /\
        nth 0 out 0 = nth 0 audio 0 /\
        (forall i : nat, (0 < i < length audio)%nat ->
           nth i out 0 = nth i audio 0 - alpha * nth (i - 1) audio 0)).
Proof.
  intros audio alpha. unfold AudioProcessor._pre_emphasis.
  split.
  - destruct audio; split; intros H; try reflexivity; discriminate.
  - intros out H. destruct audio as [|a0 rest]; [discriminate|].
    rewrite pre_emphasis_emphasize in H. injection H as <-.
    split; [simpl; rewrite emphasize_length; reflexivity|].
    split; [reflexivity|].
    intros i [Hi Hlt]. destruct i as [|i]; [lia|]. simpl in Hlt.
    cbn [nth]. rewrite emphasize_nth by lia.
    replace (S i - 1)%nat with i by lia. reflexivity.
Qed.

Lemma np_sum_affine (m k : R) (v : list R) :
  np_sum (map (fun x => (x - m) / k) v) =
    (np_sum v - INR (length v) * m) / k.
Proof.
  unfold np_sum. induction v as [|x v IH].
  - simpl. lra.
  - change (length (x :: v)) with (S (length v)). rewrite S_INR.
    cbn [map fold_right]. rewrite IH. unfold Rdiv. ring.
Qed.

Lemma np_sum_div (q : R -> R) (c : R) (v : list R) :
  np_sum (map (fun x => q x / c) v) = np_sum (map q v) / c.
Proof.
  unfold np_sum. induction v as [|x v IH]; simpl; [lra|].
  rewrite IH. unfold Rdiv. ring.
Qed.

Lemma INR_length_pos {A : Type} (v : list A) : v <> [] -> 0 < INR (length v).
Proof.
  intros Hv. destruct v as [|x v]; [contradiction|].
  apply lt_0_INR. simpl. lia.
Qed.

Lemma np_std_nonneg (v : list R) : 0 <= np_std v.
Proof. unfold np_std. apply sqrt_pos. Qed.

Lemma standardize_length (m s : R) (v : list R) :
  length (standardize m s v) = length v.
Proof. unfold standardize. apply length_map. Qed.

Lemma standardize_mean (s : R) (v : list R) :
  v <> [] -> np_mean (standardize (np_mean v) s v) = 0.
Proof.
  intros Hv. pose proof (INR_length_pos v Hv) as Hn.
  unfold np_mean at 1. unfold standardize at 1.
  rewrite np_sum_affine. unfold np_mean.
  replace (np_sum v - INR (length v) * (np_sum v / INR (length v)))
    with 0 by (field; lra).
  unfold Rdiv. ring.
Qed.

Lemma standardize_std (v : list R) :
  v <> [] ->
  np_std (standardize (np_mean v) (np_std v) v) =
    np_std v / (np_std v + 1e-8).
Proof.
  intros Hv. pose proof (INR_length_pos v Hv) as Hn.
  pose proof (np_std_nonneg v) as Hs.
  set (k := np_std v + 1e-8). assert (Hk : 0 < k) by (unfold k; lra).
  unfold np_std at 1. fold k. rewrite (standardize_mean _ v Hv).
  unfold standardize. rewrite map_map.
  set (m := np_mean v).
  rewrite (map_ext _ (fun x => (x - m) * (x - m) / (k * k)))
    by (intros x; unfold k in *; field; lra).
  unfold np_mean at 1. rewrite np_sum_div, length_map.
  replace (np_sum (map (fun x => (x - m) * (x - m)) v) / (k * k)
           / INR (length v))
    with (np_mean (map (fun x => (x - m) * (x - m)) v) / (k * k))
    by (unfold np_mean; rewrite length_map; field; lra).
  rewrite sqrt_div_alt by (apply Rmult_lt_0_compat; exact Hk).
  rewrite sqrt_square by lra. reflexivity.
Qed.

Lemma ratio_below_1 (s : R) : 0 <= s -> 0 <= s / (s + 1e-8) < 1.
Proof.
  intros Hs. assert (Hk : 0 < s + 1e-8) by lra. split.
  - apply Rdiv_nonneg; lra.
  - apply (Rmult_lt_reg_r (s + 1e-8)); [exact Hk|].
    unfold Rdiv. rewrite Rmult_assoc, Rinv_l by lra. lra.
Qed.

(** X24. [_normalize_features] of audio_processor-o.py keeps the shape of
    the matrix and gives every non-empty row the mean 0.  The standard
    deviation of the row becomes [s / (s + 1e-8)] for the old standard
    deviation [s]: it is below 1 (not the unit variance of the docstring),
    and a constant row becomes a row of zeros. *)
Theorem normalize_features_rows :
  forall (features : list (list R)) (i : nat),
    let out := AudioProcessorO._normalize_features features in
    let row := nth i features [] in
    let row' := nth i out [] in
    length out = length features /\
    length row' = length row /\
    (row <> [] ->
     np_mean row' = 0 /\
     np_std row' = np_std row / (np_std row + 1e-8) /\
     0 <= np_std row' < 1 /\
     (Forall (fun x => x = np_mean row) row ->
      Forall (fun y => y = 0) row')).
Proof.
  intros features i out row row'.
  assert (Hrow' : row' = standardize (np_mean row) (np_std row) row).
  { unfold row', out, row, AudioProcessorO._normalize_features.
    destruct (Nat.lt_ge_cases i (length features)) as [Hi|Hi].
    - rewrite (nth_indep _ [] (standardize (np_mean []) (np_std []) []))
        by (rewrite length_map; exact Hi).
      rewrite (map_nth (fun r => standardize (np_mean r) (np_std r) r)).
      reflexivity.
    - rewrite !nth_overflow by (rewrite ?length_map; exact Hi).
      reflexivity. }
  split; [apply length_map|]. rewrite Hrow'.
  split; [apply standardize_length|].
  intros Hne. split; [apply standardize_mean, Hne|].
  split; [apply standardize_std, Hne|].
  split; [rewrite (standardize_std _ Hne); apply ratio_below_1,
          np_std_nonneg|].
  intros Hconst. unfold standardize. apply List.Forall_map.
  eapply List.Forall_impl; [|exact Hconst].
  intros x ->. unfold Rdiv. ring.
Qed.

(** X25. [_normalize_mfcc] and [_normalize_features] of audio_processor.py
    are the same function.  It keeps the shape of the matrix; taken over all
    entries of a non-empty matrix, the result has mean 0 and standard
    deviation [s / (s + 1e-8)] for the old standard deviation [s], which is
    below 1. *)
Theorem normalize_mfcc_global :
  forall mfcc : list (list R),
    let out := AudioProcessor._normalize_mfcc mfcc in
    AudioProcessor._normalize_features mfcc = out /\
    map (@length R) out = map (@length R) mfcc /\
    (concat mfcc <> [] ->
     np_mean (concat out) = 0 /\
     np_std (concat out) =
       np_std (concat mfcc) / (np_std (concat mfcc) + 1e-8) /\
     0 <= np_std (concat out) < 1).
Proof.
  intros mfcc out. unfold out, AudioProcessor._normalize_mfcc.
  split; [reflexivity|]. cbn zeta.
  set (m := np_mean (concat mfcc)). set (s := np_std (concat mfcc)).
  split.
  { rewrite map_map. apply map_ext. intros r. apply standardize_length. }
  intros Hne.
  assert (Hc : concat (map (standardize m s) mfcc) =
               standardize m s (concat mfcc)).
  { unfold standardize. symmetry. apply concat_map. }
  rewrite Hc. unfold m, s.
  split; [apply standardize_mean, Hne|].
  split; [apply standardize_std, Hne|].
  rewrite (standardize_std _ Hne). apply ratio_below_1, np_std_nonneg.
Qed.

Lemma fold_Rmin_le (x : R) (l : list R) :
  fold_right Rmin x l <= x /\ Forall (fun y => fold_right Rmin x l <= y) l.
Proof.
  induction l as [|y l [IHx IHl]]; simpl; [split; [lra | constructor]|].
  pose proof (Rmin_l y (fold_right Rmin x l)) as Hl.
  pose proof (Rmin_r y (fold_right Rmin x l)) as Hr.
  split; [lra|]. constructor; [exact Hl|].
  eapply List.Forall_impl; [|exact IHl]. intros z Hz. simpl in Hz. lra.
Qed.

Lemma fold_Rmax_ge (x : R) (l : list R) :
  x <= fold_right Rmax x l /\ Forall (fun y => y <= fold_right Rmax x l) l.
Proof.
  induction l as [|y l [IHx IHl]]; simpl; [split; [lra | constructor]|].
  pose proof (Rmax_l y (fold_right Rmax x l)) as Hl.
  pose proof (Rmax_r y (fold_right Rmax x l)) as Hr.
  split; [lra|]. constructor; [exact Hl|].
  eapply List.Forall_impl; [|exact IHl]. intros z Hz. simpl in Hz. lra.
Qed.

Lemma fold_Rmax_le (b x : R) (l : list R) :
  x <= b -> Forall (fun y => y <= b) l -> fold_right Rmax x l <= b.
Proof.
  intros Hx Hl. induction Hl as [|y l Hy Hl IH]; simpl; [exact Hx|].
  apply Rmax_lub; assumption.
Qed.

Lemma np_min_spec (v : list R) (mn : R) :
  np_min v = Some mn -> Forall (fun y => mn <= y) v.
Proof.
  destruct v as [|x l]; [discriminate|]. intros [= <-].
  destruct (fold_Rmin_le x l) as [Hx Hl]. constructor; assumption.
Qed.

Lemma np_max_spec (v : list R) (mx : R) :
  np_max v = Some mx -> Forall (fun y => y <= mx) v.
Proof.
  destruct v as [|x l]; [discriminate|]. intros [= <-].
  destruct (fold_Rmax_ge x l) as [Hx Hl]. constructor; assumption.
Qed.

Lemma np_sum_bounds (a b : R) (v : list R) :
  Forall (fun x => a <= x <= b) v ->
  INR (length v) * a <= np_sum v <= INR (length v) * b.
Proof.
  unfold np_sum. intros H. induction H as [|x v Hx Hv IH].
  - simpl. lra.
  - change (length (x :: v)) with (S (length v)). rewrite S_INR.
    cbn [fold_right]. lra.
Qed.

Lemma np_mean_bounds (a b : R) (v : list R) :
  v <> [] -> Forall (fun x => a <= x <= b) v -> a <= np_mean v <= b.
Proof.
  intros Hv H. pose proof (INR_length_pos v Hv) as Hn.
  pose proof (np_sum_bounds a b v H) as [Hlo Hhi].
  unfold np_mean. split.
  - apply (Rmult_le_reg_r (INR (length v))); [exact Hn|].
    unfold Rdiv. rewrite Rmult_assoc, Rinv_l by lra. lra.
  - apply (Rmult_le_reg_r (INR (length v))); [exact Hn|].
    unfold Rdiv. rewrite Rmult_assoc, Rinv_l by lra. lra.
Qed.

Lemma np_std_range (a b : R) (v : list R) :
  v <> [] -> Forall (fun x => a <= x <= b) v -> np_std v <= b - a.
Proof.
  intros Hv H. pose proof (np_mean_bounds a b v Hv H) as Hm.
  assert (Hab : 0 <= b - a) by lra.
  unfold np_std. set (m := np_mean v) in *.
  rewrite <- (sqrt_square (b - a)) by exact Hab.
  apply sqrt_le_1_alt.
  apply (np_mean_bounds 0 ((b - a) * (b - a))).
  - destruct v; [contradiction | discriminate].
  - apply List.Forall_map. eapply List.Forall_impl; [|exact H].
    intros x Hx. simpl in Hx. clearbody m. split.
    + pose proof (Rle_0_sqr (x - m)) as Hsq. unfold Rsqr in Hsq. exact Hsq.
    + assert (H1 : 0 <= (b - a - (x - m)) * (b - a + (x - m)))
        by (apply Rmult_le_pos; lra).
      replace ((b - a) * (b - a))
        with ((x - m) * (x - m) + (b - a - (x - m)) * (b - a + (x - m)))
        by ring.
      lra.
Qed.

Lemma axis1_length (f : list R -> option R) (rows : list (list R))
    (out : list R) :
  axis1 f rows = Some out -> length out = length rows.
Proof.
  revert out. induction rows as [|r rows IH]; intros out; simpl.
  - intros [= <-]. reflexivity.
  - destruct (f r) as [x|]; [|discriminate]. simpl.
    destruct (axis1 f rows) as [xs|]; [|discriminate]. simpl.
    intros [= <-]. simpl. rewrite (IH xs eq_refl). reflexivity.
Qed.

Lemma axis1_nth (f : list R -> option R) (rows : list (list R))
    (out : list R) (i : nat) :
  axis1 f rows = Some out -> (i < length rows)%nat ->
  f (nth i rows []) = Some (nth i out 0).
Proof.
  revert out i. induction rows as [|r rows IH]; intros out i; simpl.
  - intros _ Hi. lia.
  - destruct (f r) as [x|] eqn:Er; [|discriminate]. simpl.
    destruct (axis1 f rows) as [xs|]; [|discriminate]. simpl.
    intros [= <-] Hi. destruct i as [|i]; [exact Er|].
    simpl. apply IH; [reflexivity | lia].
Qed.

Lemma axis1_total (f : list R -> option R) (rows : list (list R)) :
  Forall (fun r => is_Some (f r)) rows -> is_Some (axis1 f rows).
Proof.
  intros H. induction H as [|r rows [x Hx] Hrows [xs IH]]; simpl; [eauto|].
  rewrite Hx, IH. simpl. eauto.
Qed.

Lemma axis1_none (f : list R -> option R) (rows : list (list R))
    (r : list R) :
  In r rows -> f r = None -> axis1 f rows = None.
Proof.
  intros Hin Hr. induction rows as [|r' rows IH]; [destruct Hin|].
  simpl. destruct Hin as [->|Hin].
  - rewrite Hr. reflexivity.
  - destruct (f r'); [|reflexivity]. simpl. rewrite (IH Hin). reflexivity.
Qed.

Lemma nth_map_default {A : Type} (f : A -> R) (l : list A) (d : A) (i : nat) :
  (i < length l)%nat -> nth i (map f l) 0 = f (nth i l d).
Proof.
  intros Hi. rewrite (nth_indep _ 0 (f d)) by (rewrite length_map; exact Hi).
  apply map_nth.
Qed.

(** X26. Numbers are modelled as reals.  [_calculate_statistical_features]
    on a matrix with [r] rows and [T > 0] columns returns a vector of length
    [4 r]: the row means, then the row standard deviations, the row minima
    and the row maxima.  For every row the minimum and the maximum bound all
    entries; in exact real arithmetic they also bound the mean, and the
    standard deviation lies between 0 and maximum - minimum (in binary64 up
    to rounding only: the computed mean of a constant row can exceed its
    maximum in the last place).  A matrix with an empty row makes [np.min]
    raise. *)
Theorem statistical_features_layout :
  forall (features : list (list R)) (T : nat),
    (0 < T)%nat ->
    Forall (fun row => length row = T) features ->
    let r := length features in
    (exists v : list R,
        AudioProcessor._calculate_statistical_features features = Some v /\
        length v = (4 * r)%nat /\
        forall i : nat, (i < r)%nat ->
          let row := nth i features [] in
          let mean := nth i v 0 in
          let std := nth (r + i) v 0 in
          let mn := nth (2 * r + i) v 0 in
          let mx := nth (3 * r + i) v 0 in
          mean = np_mean row /\ std = np_std row /\
          Forall (fun x => mn <= x <= mx) row /\
          mn <= mean <= mx /\
          0 <= std <= mx - mn) /\
    (forall m : list (list R),
        In [] m -> AudioProcessor._calculate_statistical_features m = None).
Proof.
  intros features T HT Hshape r. split.
  - assert (Hne : Forall (fun row : list R => row <> []) features).
    { eapply List.Forall_impl; [|exact Hshape].
      intros row Hrow E. simpl in Hrow. subst row. simpl in Hrow. lia. }
    destruct (axis1_total np_min features) as [mins Hmins].
    { eapply List.Forall_impl; [|exact Hne].
      intros [|x l] Hx; [contradiction | simpl; eauto]. }
    destruct (axis1_total np_max features) as [maxs Hmaxs].
    { eapply List.Forall_impl; [|exact Hne].
      intros [|x l] Hx; [contradiction | simpl; eauto]. }
    pose proof (axis1_length _ _ _ Hmins) as Lmins.
    pose proof (axis1_length _ _ _ Hmaxs) as Lmaxs.
    fold r in Lmins, Lmaxs.
    exists (map np_mean features ++ map np_std features ++ mins ++ maxs).
    split.
    { unfold AudioProcessor._calculate_statistical_features.
      rewrite Hmins, Hmaxs. reflexivity. }
    split.
    { rewrite !length_app, !length_map, Lmins, Lmaxs. fold r. lia. }
    intros i Hi row mean std mn mx.
    assert (Emean : mean = np_mean row).
    { unfold mean. rewrite app_nth1 by (rewrite length_map; exact Hi).
      apply nth_map_default, Hi. }
    assert (Estd : std = np_std row).
    { unfold std.
      rewrite app_nth2 by (rewrite length_map; fold r; lia).
      rewrite length_map. fold r. replace (r + i - r)%nat with i by lia.
      rewrite app_nth1 by (rewrite length_map; exact Hi).
      apply nth_map_default, Hi. }
    assert (Emn : np_min row = Some mn).
    { unfold mn.
      rewrite app_nth2 by (rewrite length_map; fold r; lia).
      rewrite length_map. fold r.
      rewrite app_nth2 by (rewrite length_map; fold r; lia).
      rewrite length_map. fold r.
      replace (2 * r + i - r - r)%nat with i by lia.
      rewrite app_nth1 by lia.
      apply (axis1_nth np_min features mins i Hmins Hi). }
    assert (Emx : np_max row = Some mx).
    { unfold mx.
      rewrite app_nth2 by (rewrite length_map; fold r; lia).
      rewrite length_map. fold r.
      rewrite app_nth2 by (rewrite length_map; fold r; lia).
      rewrite length_map. fold r.
      rewrite app_nth2 by lia. rewrite Lmins.
      replace (3 * r + i - r - r - r)%nat with i by lia.
      apply (axis1_nth np_max features maxs i Hmaxs Hi). }
    assert (Hrow : row <> []).
    { rewrite List.Forall_forall in Hne. apply Hne, nth_In, Hi. }
    assert (Hb : Forall (fun x => mn <= x <= mx) row).
    { pose proof (np_min_spec _ _ Emn) as Hlo.
      pose proof (np_max_spec _ _ Emx) as Hhi.
      rewrite List.Forall_forall in *. intros x Hx.
      split; [apply Hlo, Hx | apply Hhi, Hx]. }
    split; [exact Emean|]. split; [exact Estd|]. split; [exact Hb|].
    rewrite Emean, Estd.
    split; [apply np_mean_bounds; assumption|].
    split; [apply np_std_nonneg | apply np_std_range; assumption].
  - intros m Hin. unfold AudioProcessor._calculate_statistical_features.
    rewrite (axis1_none np_min m [] Hin eq_refl). reflexivity.
Qed.

Lemma statistical_features_layout_witness :
  let features := [[1; 3]; [2; 2]] in
  let r := length features in
  (exists v : list R,
      AudioProcessor._calculate_statistical_features features = Some v /\
      length v = (4 * r)%nat /\
      forall i : nat, (i < r)%nat ->
        let row := nth i features [] in
        let mean := nth i v 0 in
        let std := nth (r + i) v 0 in
        let mn := nth (2 * r + i) v 0 in
        let mx := nth (3 * r + i) v 0 in
        mean = np_mean row /\ std = np_std row /\
        Forall (fun x => mn <= x <= mx) row /\
        mn <= mean <= mx /\
        0 <= std <= mx - mn) /\
  (forall m : list (list R),
      In [] m -> AudioProcessor._calculate_statistical_features m = None).
Proof.
  intros features.
  apply (statistical_features_layout features 2).
  - lia.
  - repeat constructor.
Defined.

Lemma np_max_abs_le (b : R) (v : list R) (peak : R) :
  np_max (map Rabs v) = Some peak ->
  (peak <= b <-> Forall (fun x => Rabs x <= b) v).
Proof.
  intros Hp. split.
  - intros Hb. pose proof (np_max_spec _ _ Hp) as Hall.
    apply List.Forall_map in Hall.
    eapply List.Forall_impl; [|exact Hall]. intros x Hx. simpl in Hx. lra.
  - intros Hall. destruct v as [|x l]; [discriminate|].
    simpl in Hp. injection Hp as <-.
    inversion Hall as [|? ? Hx Hl]; subst.
    apply fold_Rmax_le; [exact Hx | apply List.Forall_map; exact Hl].
Qed.

Lemma rms_le (b : R) (v : list R) :
  0 <= b -> v <> [] -> Forall (fun x => Rabs x <= b) v ->
  sqrt (np_mean (map (fun x => x * x) v)) <= b.
Proof.
  intros Hb Hv Hall. rewrite <- (sqrt_square b) by exact Hb.
  apply sqrt_le_1_alt.
  apply (np_mean_bounds 0 (b * b)).
  - destruct v; [contradiction | discriminate].
  - apply List.Forall_map. eapply List.Forall_impl; [|exact Hall].
    intros x Hx. simpl in Hx.
    pose proof (Rle_0_sqr x) as Hsq. unfold Rsqr in Hsq.
    split; [exact Hsq|].
    pose proof (Rabs_pos x) as Hpos.
    replace (x * x) with (Rabs x * Rabs x)
      by (unfold Rabs; destruct (Rcase_abs x); ring).
    apply Rmult_le_compat; assumption.
Qed.

Lemma fold_Rmax_lt (c x : R) (l : list R) :
  x < c -> Forall (fun y => y < c) l -> fold_right Rmax x l < c.
Proof.
  intros Hx Hl. induction Hl as [|y l Hy Hl IH]; simpl; [exact Hx|].
  apply Rmax_lub_lt; assumption.
Qed.

Lemma rms_lt (c : R) (v : list R) :
  0 < c -> v <> [] -> Forall (fun x => Rabs x < c) v ->
  sqrt (np_mean (map (fun x => x * x) v)) < c.
Proof.
  intros Hc Hv Hall.
  destruct v as [|x0 l]; [contradiction|].
  set (v := x0 :: l) in *.
  assert (Hpk : exists peak, np_max (map Rabs v) = Some peak)
    by (unfold v; simpl; eauto).
  destruct Hpk as [peak Hpk].
  assert (Hlt : peak < c).
  { unfold v in Hpk. simpl in Hpk. injection Hpk as <-.
    inversion Hall as [|? ? Hx Hl]; subst.
    apply fold_Rmax_lt; [exact Hx | apply List.Forall_map; exact Hl]. }
  assert (H0 : 0 <= peak).
  { pose proof (np_max_spec _ _ Hpk) as Hall'.
    unfold v in Hall'. simpl in Hall'.
    inversion Hall' as [|? ? Hx _]; subst.
    pose proof (Rabs_pos x0). lra. }
  apply Rle_lt_trans with peak; [|exact Hlt].
  apply rms_le; [exact H0 | exact Hv|].
  apply (np_max_abs_le peak v peak Hpk). lra.
Qed.

Lemma Forall_or_Exists_abs (c : R) (v : list R) :
  Forall (fun x => Rabs x < c) v \/ Exists (fun x => c <= Rabs x) v.
Proof.
  induction v as [|x v [IH|IH]].
  - left. constructor.
  - destruct (Rlt_dec (Rabs x) c) as [Hx|Hx].
    + left. constructor; assumption.
    + right. apply Exists_cons_hd. lra.
  - right. apply Exists_cons_tl, IH.
Qed.

(** X27. [validate_audio_quality] accepts a signal exactly when the sample
    rate is at least 8000, the number of samples is between 1 and 10 times
    the sample rate, the root mean square is at least 0.01 and no sample
    exceeds 0.99 in absolute value.  An accepted signal therefore has at
    least 8000 samples, a root mean square of at most 0.99, and at least one
    sample of absolute value 0.01 or more. *)
Theorem validate_audio_quality_accepts :
  forall (audio : list R) (sr : Z),
    let rms := sqrt (np_mean (map (fun x => x * x) audio)) in
    (fst (AudioProcessor.validate_audio_quality audio sr) = true <->
     (8000 <= sr)%Z /\
     IZR sr <= INR (length audio) <= 10 * IZR sr /\
     0.01 <= rms /\
     Forall (fun x => Rabs x <= 0.99) audio) /\
    (fst (AudioProcessor.validate_audio_quality audio sr) = true ->
     (8000 <= Z.of_nat (length audio))%Z /\
     rms <= 0.99 /\
     Exists (fun x => 0.01 <= Rabs x) audio).
Proof.
  intros audio sr rms.
  assert (Hiff :
    fst (AudioProcessor.validate_audio_quality audio sr) = true <->
    (8000 <= sr)%Z /\
    IZR sr <= INR (length audio) <= 10 * IZR sr /\
    0.01 <= rms /\
    Forall (fun x => Rabs x <= 0.99) audio).
  { unfold AudioProcessor.validate_audio_quality. fold rms.
    destruct (Z.eqb_spec sr 0) as [->|Hsr0].
    { cbn [fst]. split; [discriminate|]. intros [H _]. lia. }
    destruct (Rlt_dec (INR (length audio) / IZR sr) 1) as [Hshort|Hshort].
    { cbn [fst]. split; [discriminate|]. intros (Hsr & [Hlo _] & _).
      exfalso. assert (Hpos : 0 < IZR sr) by (apply IZR_lt; lia).
      apply (Rmult_lt_compat_r (IZR sr)) in Hshort; [|exact Hpos].
      unfold Rdiv in Hshort. rewrite Rmult_assoc, Rinv_l in Hshort by lra.
      lra. }
    destruct (Rlt_dec 10 (INR (length audio) / IZR sr)) as [Hlong|Hlong].
    { cbn [fst]. split; [discriminate|]. intros (Hsr & [_ Hhi] & _).
      exfalso. assert (Hpos : 0 < IZR sr) by (apply IZR_lt; lia).
      apply (Rmult_lt_compat_r (IZR sr)) in Hlong; [|exact Hpos].
      unfold Rdiv in Hlong. rewrite Rmult_assoc, Rinv_l in Hlong by lra.
      lra. }
    destruct (Rlt_dec rms 0.01) as [Hweak|Hweak].
    { cbn [fst]. split; [discriminate|]. intros (_ & _ & Hr & _). lra. }
    destruct (np_max (map Rabs audio)) as [peak|] eqn:Epeak.
    2:{ cbn [fst]. split; [discriminate|]. intros (Hsr & [Hlo _] & _).
        exfalso. destruct audio; [|discriminate]. simpl in Hlo.
        assert (Hpos : 0 < IZR sr) by (apply IZR_lt; lia). lra. }
    destruct (Rlt_dec 0.99 peak) as [Hclip|Hclip].
    { cbn [fst]. split; [discriminate|]. intros (_ & _ & _ & Hall).
      apply (np_max_abs_le 0.99 audio peak Epeak) in Hall. lra. }
    destruct (Z.ltb_spec sr 8000) as [Hlow|Hok].
    { cbn [fst]. split; [discriminate|]. intros [H _]. lia. }
    cbn [fst]. split; [|reflexivity]. intros _.
    assert (Hpos : 0 < IZR sr) by (apply IZR_lt; lia).
    split; [exact Hok|]. split; [|split].
    - apply Rnot_lt_le in Hshort, Hlong. split.
      + apply (Rmult_le_compat_r (IZR sr)) in Hshort; [|lra].
        unfold Rdiv in Hshort.
        rewrite Rmult_assoc, Rinv_l in Hshort by lra. lra.
      + apply (Rmult_le_compat_r (IZR sr)) in Hlong; [|lra].
        unfold Rdiv in Hlong.
        rewrite Rmult_assoc, Rinv_l in Hlong by lra. lra.
    - lra.
    - apply (np_max_abs_le 0.99 audio peak Epeak). lra. }
  split; [exact Hiff|].
  intros Hacc. apply Hiff in Hacc as (Hsr & [Hlo Hhi] & Hrms & Hall).
  assert (Hlen : (8000 <= Z.of_nat (length audio))%Z).
  { rewrite INR_IZR_INZ in Hlo. apply le_IZR in Hlo. lia. }
  assert (Hne : audio <> []).
  { intros ->. simpl in Hlen. lia. }
  split; [exact Hlen|]. split.
  - apply rms_le; [lra | exact Hne | exact Hall].
  - destruct (Forall_or_Exists_abs 0.01 audio) as [Hsmall|Hex];
      [|exact Hex].
    exfalso. pose proof (rms_lt 0.01 audio ltac:(lra) Hne Hsmall) as Hlt.
    fold rms in Hlt. lra.
Qed.

(** * Where binary64 departs from real arithmetic *)


(** The cosine of a vector with itself is 1 only in real arithmetic: in
    binary64 it is 0 when the squared norm overflows, and it can exceed 1
    by rounding. *)
Lemma binary64_self_cosine :
  Binary64.l2_norm [1e200; 0; 0]%float = infinity /\
  Binary64.cosine [1e200; 0; 0]%float [1e200; 0; 0]%float = 0%float /\
  Binary64.cosine [1; 0; 0]%float [1e200; 0; 0]%float = 0%float /\
  Binary64.cosine [1; 1; 1]%float [1; 1; 1]%float
    = 1.0000000000000002%float.
Proof. repeat split; vm_compute; reflexivity. Qed.

(** The mean of a constant row can exceed its maximum by rounding. *)
Lemma binary64_mean_above_max :
  Binary64.np_mean [0.1; 0.1; 0.1]%float = 0.10000000000000002%float /\
  PrimFloat.ltb 0.1 0.10000000000000002 = true.
Proof. split; vm_compute; reflexivity. Qed.

(** [_pre_emphasis] is not injective in binary64: a sample that is small
    against [alpha] times its predecessor is absorbed. *)
Lemma binary64_pre_emphasis_absorbs :
  Binary64._pre_emphasis [1; 1e-17]%float 0.97%float =
    Some [1; -0.97]%float /\
  Binary64._pre_emphasis [1; 2e-17]%float 0.97%float =
    Some [1; -0.97]%float.
Proof. split; vm_compute; reflexivity. Qed.
